(** * OAuth App Marketplace: review statistics, marketplace search and routes

    A shallow embedding of the parts of the marketplace that carry logic:

    - [Reviews]      client/OAuthAppReviews.tsx  ([calculateReviewStats],
                     [handleEdit], [handleSubmit]);
    - [Details]      the app details page ([averageRating], [ratingCounts]);
    - [Marketplace]  the marketplace page ([filteredApps], [AppCard]);
    - [Routes]       server/oauthAppRoutes.ts (the creation and the
                     top-rated handlers);
    - [RatingAggregator], [CredentialIssuer]: the validation and credential
      components, whose server side is not part of the sources.

    Conventions.  A JS number that holds an integer is a [Z]; quotients of
    such numbers ([averageRating], [percentages]) are the exact rationals
    [Q] that the IEEE double of the source rounds, and where the rounding
    decides what is shown or sent the double itself is computed ([double]
    for the percentages of the breakdown, [toNumber] for a parsed limit).
    Text of the rows, the forms and the requests is a [string] whose
    characters are the code units below 256; the marketplace search, whose
    lower-casing depends on more than one code unit, is on [JSString], all
    sequences of UTF-16 code units.  A value that may be [undefined] or
    [null] is an [option]. *)

From Stdlib Require Import ZArith QArith Qround Qpower Qfield String Ascii List Lia.
From Stdlib Require Import DecimalString DecimalPos DecimalN DecimalZ Lqa SpecFloat.
From stdpp Require Import base list gmap strings.

Open Scope Z_scope.

(** ** shared/schema *)

Module AppReview.
Record t : Type := mk {
  id : Z;
  appId : Z;
  userId : Z;
  rating : Z;
  reviewText : option string;
  createdAt : Z
}.
End AppReview.

Module OAuthApp.
Record t : Type := mk {
  id : Z;
  userId : Z;
  name : string;
  description : string;
  clientId : option string;
  clientSecret : option string;
  homepageUrl : string;
  callbackUrl : string;
  isPublished : bool;
  verificationStatus : string;
  logoUrl : option string;
  isListed : bool
}.
End OAuthApp.

(** ** Rating statistics *)

(** [review.rating > 0 && review.rating <= 5] *)
Definition in_range (r : AppReview.t) : bool :=
  (0 <? AppReview.rating r) && (AppReview.rating r <=? 5).

(** The body of the [forEach]: [ratingCounts[5 - review.rating]++] under the
    guard.  For an integer rating the guard gives an index in 0..4, so the
    write never falls outside the five slots ([alter] leaves the array as it
    is there). *)
Definition countRating (ratingCounts : list Z) (review : AppReview.t) : list Z :=
  if in_range review
  then alter (fun count => count + 1) (Z.to_nat (5 - AppReview.rating review)) ratingCounts
  else ratingCounts.

(** [reviews.reduce((sum, review) => sum + review.rating, 0)] *)
Definition sumRatings (reviews : list AppReview.t) : Z :=
  fold_left (fun sum review => sum + AppReview.rating review) reviews 0.

(** [const ratingCounts = [0,0,0,0,0]; reviews.forEach(...)] *)
Definition countRatings (reviews : list AppReview.t) : list Z :=
  fold_left countRating reviews [0; 0; 0; 0; 0].

Module Reviews.

Record ReviewStats : Type := mkStats {
  averageRating : Q;
  totalReviews : Z;
  ratingCounts : list Z;
  percentages : list Q
}.

(** [reviews] is the data of a query: [None] while it is not loaded. *)
Definition calculateReviewStats (reviews : option (list AppReview.t)) : ReviewStats :=
  match reviews with
  | None | Some [] =>
      {| averageRating := 0;
         totalReviews := 0;
         ratingCounts := [0; 0; 0; 0; 0];
         percentages := [0; 0; 0; 0; 0]%Q |}
  | Some reviews =>
      let totalReviews := Z.of_nat (length reviews) in
      let averageRating := (inject_Z (sumRatings reviews) / inject_Z totalReviews)%Q in
      let ratingCounts := countRatings reviews in
      let percentages :=
        map (fun count => ((inject_Z count / inject_Z totalReviews) * 100)%Q) ratingCounts in
      {| averageRating := averageRating;
         totalReviews := totalReviews;
         ratingCounts := ratingCounts;
         percentages := percentages |}
  end.

(** The state of the page that the form handlers read and set. *)
Record FormData : Type := mkForm { rating : Z; reviewText : string }.

Record State : Type := mkState {
  showReviewDialog : bool;
  selectedReview : option AppReview.t;
  isEditing : bool;
  formData : FormData
}.

Definition initialState : State :=
  {| showReviewDialog := false;
     selectedReview := None;
     isEditing := false;
     formData := {| rating := 5; reviewText := EmptyString |} |}.

(** [handleRatingChange], called by [StarRating] with one of its stars. *)
Definition stars : list Z := [1; 2; 3; 4; 5].

Definition handleRatingChange (star : Z) (st : State) : State :=
  {| showReviewDialog := showReviewDialog st;
     selectedReview := selectedReview st;
     isEditing := isEditing st;
     formData := {| rating := star; reviewText := reviewText (formData st) |} |}.

(** [handleInputChange] on the text area. *)
Definition handleInputChange (value : string) (st : State) : State :=
  {| showReviewDialog := showReviewDialog st;
     selectedReview := selectedReview st;
     isEditing := isEditing st;
     formData := {| rating := rating (formData st); reviewText := value |} |}.

(** [handleEdit]: the form is filled from the review, a [null] text
    becoming the empty string ([review.reviewText || '']). *)
Definition handleEdit (review : AppReview.t) (st : State) : State :=
  {| showReviewDialog := true;
     selectedReview := Some review;
     isEditing := true;
     formData := {| rating := AppReview.rating review;
                    reviewText := match AppReview.reviewText review with
                                  | Some text => text
                                  | None => EmptyString
                                  end |} |}.

(** The button in the header: [!userReview ? "Write a Review" : "Edit Your
    Review"], and what a click on it does. *)
Definition headerButton (userReview : option AppReview.t) (st : State) : State :=
  match userReview with
  | None =>
      {| showReviewDialog := true;
         selectedReview := selectedReview st;
         isEditing := isEditing st;
         formData := formData st |}
  | Some review => handleEdit review st
  end.

(** [handleSubmit]: which request the form sends.  The form data goes out
    as it is; the page checks neither the rating nor the reviews there
    are. *)
Inductive Request : Type :=
| PutReview (reviewId : Z) (data : FormData)
| PostReview (data : FormData).

Definition handleSubmit (st : State) : Request :=
  match isEditing st, selectedReview st with
  | true, Some review => PutReview (AppReview.id review) (formData st)
  | _, _ => PostReview (formData st)
  end.

End Reviews.

Module Details.

(** [reviews?.length ? reduce(...) / reviews.length : 0] *)
Definition averageRating (reviews : option (list AppReview.t)) : Q :=
  match reviews with
  | None | Some [] => 0
  | Some reviews => (inject_Z (sumRatings reviews) / inject_Z (Z.of_nat (length reviews)))%Q
  end.

(** [ratingCounts] stays at its initial value unless [reviews?.length]. *)
Definition ratingCounts (reviews : option (list AppReview.t)) : list Z :=
  match reviews with
  | None | Some [] => [0; 0; 0; 0; 0]
  | Some reviews => countRatings reviews
  end.

End Details.

(** ** Counting *)

(** The entries with a given rating, and the entries the guard lets through. *)
Definition withRating (k : Z) (reviews : list AppReview.t) : Z :=
  Z.of_nat (length (filter (fun r => AppReview.rating r = k) reviews)).

Definition counted (reviews : list AppReview.t) : list AppReview.t :=
  List.filter in_range reviews.

Definition sumZ (l : list Z) : Z := fold_right Z.add 0 l.
Definition sumQ (l : list Q) : Q := fold_right Qplus 0%Q l.

(** The entries the guard rejects. *)
Definition skipped (reviews : list AppReview.t) : list AppReview.t :=
  List.filter (fun r => negb (in_range r)) reviews.

(** ** Rounding *)

(** [n / d] rounded to the nearest integer, a half going to the even
    neighbour ([0 < d]). *)
Definition roundHalfEven (n d : Z) : Z :=
  let q := n / d in
  let r := n mod d in
  if 2 * r <? d then q
  else if d <? 2 * r then q + 1
  else if Z.even q then q else q + 1.

(** ** Strings

    The string methods the forms and the routes call, on code units below
    256. *)

Definition code (c : ascii) : Z := Z.of_N (N_of_ascii c).

(** WhiteSpace and LineTerminator code units: TAB, LF, VT, FF, CR, SP, NBSP. *)
Definition isWhiteSpace (c : ascii) : bool :=
  let n := code c in
  ((9 <=? n) && (n <=? 13)) || (n =? 32) || (n =? 160).

Fixpoint trimStart (s : string) : string :=
  match s with
  | String c s' => if isWhiteSpace c then trimStart s' else s
  | EmptyString => EmptyString
  end.

Fixpoint trimEnd (s : string) : string :=
  match s with
  | String c s' =>
      match trimEnd s' with
      | EmptyString => if isWhiteSpace c then EmptyString else String c EmptyString
      | rest => String c rest
      end
  | EmptyString => EmptyString
  end.

(** [String.prototype.trim] *)
Definition trim (s : string) : string := trimEnd (trimStart s).

(** ** JS strings in full

    A JS string is a sequence of UTF-16 code units.  The rows of the
    store and the forms above hold text of code units below 256, as
    [string]; the marketplace search is modelled on all strings, since
    [toLowerCase] depends on what surrounds a letter. *)

Definition JSString : Type := list Z.

(** The code units of a [string]. *)
Definition units (s : string) : JSString := map code (list_ascii_of_string s).

(** *** The case tables of Unicode 14.0

    [String.prototype.toLowerCase] follows the Unicode Default Case
    Conversion, whose tables belong to the engine and not to the sources;
    they are given here as ranges of code points. *)

(** Simple lower-case mappings: the code points [first], [first + step],
    ..., [last] map to themselves plus [delta]. *)
Definition lowerRanges : list (Z * Z * Z * Z) :=
  [(65, 90, 1, 32); (192, 214, 1, 32); (216, 222, 1, 32);
   (256, 302, 2, 1); (306, 310, 2, 1); (313, 327, 2, 1);
   (330, 374, 2, 1); (376, 376, 1, (-121)); (377, 381, 2, 1);
   (385, 385, 1, 210); (386, 388, 2, 1); (390, 390, 1, 206);
   (391, 391, 1, 1); (393, 394, 1, 205); (395, 395, 1, 1);
   (398, 398, 1, 79); (399, 399, 1, 202); (400, 400, 1, 203);
   (401, 401, 1, 1); (403, 403, 1, 205); (404, 404, 1, 207);
   (406, 406, 1, 211); (407, 407, 1, 209); (408, 408, 1, 1);
   (412, 412, 1, 211); (413, 413, 1, 213); (415, 415, 1, 214);
   (416, 420, 2, 1); (422, 422, 1, 218); (423, 423, 1, 1);
   (425, 425, 1, 218); (428, 428, 1, 1); (430, 430, 1, 218);
   (431, 431, 1, 1); (433, 434, 1, 217); (435, 437, 2, 1);
   (439, 439, 1, 219); (440, 440, 1, 1); (444, 444, 1, 1);
   (452, 452, 1, 2); (453, 453, 1, 1); (455, 455, 1, 2);
   (456, 456, 1, 1); (458, 458, 1, 2); (459, 475, 2, 1);
   (478, 494, 2, 1); (497, 497, 1, 2); (498, 500, 2, 1);
   (502, 502, 1, (-97)); (503, 503, 1, (-56)); (504, 542, 2, 1);
   (544, 544, 1, (-130)); (546, 562, 2, 1); (570, 570, 1, 10795);
   (571, 571, 1, 1); (573, 573, 1, (-163)); (574, 574, 1, 10792);
   (577, 577, 1, 1); (579, 579, 1, (-195)); (580, 580, 1, 69);
   (581, 581, 1, 71); (582, 590, 2, 1); (880, 882, 2, 1);
   (886, 886, 1, 1); (895, 895, 1, 116); (902, 902, 1, 38);
   (904, 906, 1, 37); (908, 908, 1, 64); (910, 911, 1, 63);
   (913, 929, 1, 32); (931, 939, 1, 32); (975, 975, 1, 8);
   (984, 1006, 2, 1); (1012, 1012, 1, (-60)); (1015, 1015, 1, 1);
   (1017, 1017, 1, (-7)); (1018, 1018, 1, 1); (1021, 1023, 1, (-130));
   (1024, 1039, 1, 80); (1040, 1071, 1, 32); (1120, 1152, 2, 1);
   (1162, 1214, 2, 1); (1216, 1216, 1, 15); (1217, 1229, 2, 1);
   (1232, 1326, 2, 1); (1329, 1366, 1, 48); (4256, 4293, 1, 7264);
   (4295, 4295, 1, 7264); (4301, 4301, 1, 7264); (5024, 5103, 1, 38864);
   (5104, 5109, 1, 8); (7312, 7354, 1, (-3008)); (7357, 7359, 1, (-3008));
   (7680, 7828, 2, 1); (7838, 7838, 1, (-7615)); (7840, 7934, 2, 1);
   (7944, 7951, 1, (-8)); (7960, 7965, 1, (-8)); (7976, 7983, 1, (-8));
   (7992, 7999, 1, (-8)); (8008, 8013, 1, (-8)); (8025, 8031, 2, (-8));
   (8040, 8047, 1, (-8)); (8072, 8079, 1, (-8)); (8088, 8095, 1, (-8));
   (8104, 8111, 1, (-8)); (8120, 8121, 1, (-8)); (8122, 8123, 1, (-74));
   (8124, 8124, 1, (-9)); (8136, 8139, 1, (-86)); (8140, 8140, 1, (-9));
   (8152, 8153, 1, (-8)); (8154, 8155, 1, (-100)); (8168, 8169, 1, (-8));
   (8170, 8171, 1, (-112)); (8172, 8172, 1, (-7)); (8184, 8185, 1, (-128));
   (8186, 8187, 1, (-126)); (8188, 8188, 1, (-9)); (8486, 8486, 1, (-7517));
   (8490, 8490, 1, (-8383)); (8491, 8491, 1, (-8262)); (8498, 8498, 1, 28);
   (8544, 8559, 1, 16); (8579, 8579, 1, 1); (9398, 9423, 1, 26);
   (11264, 11311, 1, 48); (11360, 11360, 1, 1); (11362, 11362, 1, (-10743));
   (11363, 11363, 1, (-3814)); (11364, 11364, 1, (-10727)); (11367, 11371, 2, 1);
   (11373, 11373, 1, (-10780)); (11374, 11374, 1, (-10749)); (11375, 11375, 1, (-10783));
   (11376, 11376, 1, (-10782)); (11378, 11378, 1, 1); (11381, 11381, 1, 1);
   (11390, 11391, 1, (-10815)); (11392, 11490, 2, 1); (11499, 11501, 2, 1);
   (11506, 11506, 1, 1); (42560, 42604, 2, 1); (42624, 42650, 2, 1);
   (42786, 42798, 2, 1); (42802, 42862, 2, 1); (42873, 42875, 2, 1);
   (42877, 42877, 1, (-35332)); (42878, 42886, 2, 1); (42891, 42891, 1, 1);
   (42893, 42893, 1, (-42280)); (42896, 42898, 2, 1); (42902, 42920, 2, 1);
   (42922, 42922, 1, (-42308)); (42923, 42923, 1, (-42319)); (42924, 42924, 1, (-42315));
   (42925, 42925, 1, (-42305)); (42926, 42926, 1, (-42308)); (42928, 42928, 1, (-42258));
   (42929, 42929, 1, (-42282)); (42930, 42930, 1, (-42261)); (42931, 42931, 1, 928);
   (42932, 42946, 2, 1); (42948, 42948, 1, (-48)); (42949, 42949, 1, (-42307));
   (42950, 42950, 1, (-35384)); (42951, 42953, 2, 1); (42960, 42960, 1, 1);
   (42966, 42968, 2, 1); (42997, 42997, 1, 1); (65313, 65338, 1, 32);
   (66560, 66599, 1, 40); (66736, 66771, 1, 40); (66928, 66938, 1, 39);
   (66940, 66954, 1, 39); (66956, 66962, 1, 39); (66964, 66965, 1, 39);
   (68736, 68786, 1, 64); (71840, 71871, 1, 32); (93760, 93791, 1, 32);
   (125184, 125217, 1, 34)].

(** The code points with the property Case_Ignorable, as ranges. *)
Definition caseIgnorableRanges : list (Z * Z) :=
  [(39, 39); (46, 46); (58, 58); (94, 94); (96, 96);
   (168, 168); (173, 173); (175, 175); (180, 180); (183, 184);
   (688, 879); (884, 885); (890, 890); (900, 901); (903, 903);
   (1155, 1161); (1369, 1369); (1375, 1375); (1425, 1469); (1471, 1471);
   (1473, 1474); (1476, 1477); (1479, 1479); (1524, 1524); (1536, 1541);
   (1552, 1562); (1564, 1564); (1600, 1600); (1611, 1631); (1648, 1648);
   (1750, 1757); (1759, 1768); (1770, 1773); (1807, 1807); (1809, 1809);
   (1840, 1866); (1958, 1968); (2027, 2037); (2042, 2042); (2045, 2045);
   (2070, 2093); (2137, 2139); (2184, 2184); (2192, 2193); (2200, 2207);
   (2249, 2306); (2362, 2362); (2364, 2364); (2369, 2376); (2381, 2381);
   (2385, 2391); (2402, 2403); (2417, 2417); (2433, 2433); (2492, 2492);
   (2497, 2500); (2509, 2509); (2530, 2531); (2558, 2558); (2561, 2562);
   (2620, 2620); (2625, 2626); (2631, 2632); (2635, 2637); (2641, 2641);
   (2672, 2673); (2677, 2677); (2689, 2690); (2748, 2748); (2753, 2757);
   (2759, 2760); (2765, 2765); (2786, 2787); (2810, 2815); (2817, 2817);
   (2876, 2876); (2879, 2879); (2881, 2884); (2893, 2893); (2901, 2902);
   (2914, 2915); (2946, 2946); (3008, 3008); (3021, 3021); (3072, 3072);
   (3076, 3076); (3132, 3132); (3134, 3136); (3142, 3144); (3146, 3149);
   (3157, 3158); (3170, 3171); (3201, 3201); (3260, 3260); (3263, 3263);
   (3270, 3270); (3276, 3277); (3298, 3299); (3328, 3329); (3387, 3388);
   (3393, 3396); (3405, 3405); (3426, 3427); (3457, 3457); (3530, 3530);
   (3538, 3540); (3542, 3542); (3633, 3633); (3636, 3642); (3654, 3662);
   (3761, 3761); (3764, 3772); (3782, 3782); (3784, 3789); (3864, 3865);
   (3893, 3893); (3895, 3895); (3897, 3897); (3953, 3966); (3968, 3972);
   (3974, 3975); (3981, 3991); (3993, 4028); (4038, 4038); (4141, 4144);
   (4146, 4151); (4153, 4154); (4157, 4158); (4184, 4185); (4190, 4192);
   (4209, 4212); (4226, 4226); (4229, 4230); (4237, 4237); (4253, 4253);
   (4348, 4348); (4957, 4959); (5906, 5908); (5938, 5939); (5970, 5971);
   (6002, 6003); (6068, 6069); (6071, 6077); (6086, 6086); (6089, 6099);
   (6103, 6103); (6109, 6109); (6155, 6159); (6211, 6211); (6277, 6278);
   (6313, 6313); (6432, 6434); (6439, 6440); (6450, 6450); (6457, 6459);
   (6679, 6680); (6683, 6683); (6742, 6742); (6744, 6750); (6752, 6752);
   (6754, 6754); (6757, 6764); (6771, 6780); (6783, 6783); (6823, 6823);
   (6832, 6862); (6912, 6915); (6964, 6964); (6966, 6970); (6972, 6972);
   (6978, 6978); (7019, 7027); (7040, 7041); (7074, 7077); (7080, 7081);
   (7083, 7085); (7142, 7142); (7144, 7145); (7149, 7149); (7151, 7153);
   (7212, 7219); (7222, 7223); (7288, 7293); (7376, 7378); (7380, 7392);
   (7394, 7400); (7405, 7405); (7412, 7412); (7416, 7417); (7468, 7530);
   (7544, 7544); (7579, 7679); (8125, 8125); (8127, 8129); (8141, 8143);
   (8157, 8159); (8173, 8175); (8189, 8190); (8203, 8207); (8216, 8217);
   (8228, 8228); (8231, 8231); (8234, 8238); (8288, 8292); (8294, 8303);
   (8305, 8305); (8319, 8319); (8336, 8348); (8400, 8432); (11388, 11389);
   (11503, 11505); (11631, 11631); (11647, 11647); (11744, 11775); (11823, 11823);
   (12293, 12293); (12330, 12333); (12337, 12341); (12347, 12347); (12441, 12446);
   (12540, 12542); (40981, 40981); (42232, 42237); (42508, 42508); (42607, 42610);
   (42612, 42621); (42623, 42623); (42652, 42655); (42736, 42737); (42752, 42785);
   (42864, 42864); (42888, 42890); (42994, 42996); (43000, 43001); (43010, 43010);
   (43014, 43014); (43019, 43019); (43045, 43046); (43052, 43052); (43204, 43205);
   (43232, 43249); (43263, 43263); (43302, 43309); (43335, 43345); (43392, 43394);
   (43443, 43443); (43446, 43449); (43452, 43453); (43471, 43471); (43493, 43494);
   (43561, 43566); (43569, 43570); (43573, 43574); (43587, 43587); (43596, 43596);
   (43632, 43632); (43644, 43644); (43696, 43696); (43698, 43700); (43703, 43704);
   (43710, 43711); (43713, 43713); (43741, 43741); (43756, 43757); (43763, 43764);
   (43766, 43766); (43867, 43871); (43881, 43883); (44005, 44005); (44008, 44008);
   (44013, 44013); (64286, 64286); (64434, 64450); (65024, 65039); (65043, 65043);
   (65056, 65071); (65106, 65106); (65109, 65109); (65279, 65279); (65287, 65287);
   (65294, 65294); (65306, 65306); (65342, 65342); (65344, 65344); (65392, 65392);
   (65438, 65439); (65507, 65507); (65529, 65531); (66045, 66045); (66272, 66272);
   (66422, 66426); (67456, 67461); (67463, 67504); (67506, 67514); (68097, 68099);
   (68101, 68102); (68108, 68111); (68152, 68154); (68159, 68159); (68325, 68326);
   (68900, 68903); (69291, 69292); (69446, 69456); (69506, 69509); (69633, 69633);
   (69688, 69702); (69744, 69744); (69747, 69748); (69759, 69761); (69811, 69814);
   (69817, 69818); (69821, 69821); (69826, 69826); (69837, 69837); (69888, 69890);
   (69927, 69931); (69933, 69940); (70003, 70003); (70016, 70017); (70070, 70078);
   (70089, 70092); (70095, 70095); (70191, 70193); (70196, 70196); (70198, 70199);
   (70206, 70206); (70367, 70367); (70371, 70378); (70400, 70401); (70459, 70460);
   (70464, 70464); (70502, 70508); (70512, 70516); (70712, 70719); (70722, 70724);
   (70726, 70726); (70750, 70750); (70835, 70840); (70842, 70842); (70847, 70848);
   (70850, 70851); (71090, 71093); (71100, 71101); (71103, 71104); (71132, 71133);
   (71219, 71226); (71229, 71229); (71231, 71232); (71339, 71339); (71341, 71341);
   (71344, 71349); (71351, 71351); (71453, 71455); (71458, 71461); (71463, 71467);
   (71727, 71735); (71737, 71738); (71995, 71996); (71998, 71998); (72003, 72003);
   (72148, 72151); (72154, 72155); (72160, 72160); (72193, 72202); (72243, 72248);
   (72251, 72254); (72263, 72263); (72273, 72278); (72281, 72283); (72330, 72342);
   (72344, 72345); (72752, 72758); (72760, 72765); (72767, 72767); (72850, 72871);
   (72874, 72880); (72882, 72883); (72885, 72886); (73009, 73014); (73018, 73018);
   (73020, 73021); (73023, 73029); (73031, 73031); (73104, 73105); (73109, 73109);
   (73111, 73111); (73459, 73460); (78896, 78904); (92912, 92916); (92976, 92982);
   (92992, 92995); (94031, 94031); (94095, 94111); (94176, 94177); (94179, 94180);
   (110576, 110579); (110581, 110587); (110589, 110590); (113821, 113822); (113824, 113827);
   (118528, 118573); (118576, 118598); (119143, 119145); (119155, 119170); (119173, 119179);
   (119210, 119213); (119362, 119364); (121344, 121398); (121403, 121452); (121461, 121461);
   (121476, 121476); (121499, 121503); (121505, 121519); (122880, 122886); (122888, 122904);
   (122907, 122913); (122915, 122916); (122918, 122922); (123184, 123197); (123566, 123566);
   (123628, 123631); (125136, 125142); (125252, 125259); (127995, 127999); (917505, 917505);
   (917536, 917631); (917760, 917999)].

(** The code points with the property Cased that are not Case_Ignorable,
    as ranges. *)
Definition casedRanges : list (Z * Z) :=
  [(65, 90); (97, 122); (170, 170); (181, 181); (186, 186);
   (192, 214); (216, 246); (248, 442); (444, 447); (452, 659);
   (661, 687); (880, 883); (886, 887); (891, 893); (895, 895);
   (902, 902); (904, 906); (908, 908); (910, 929); (931, 1013);
   (1015, 1153); (1162, 1327); (1329, 1366); (1376, 1416); (4256, 4293);
   (4295, 4295); (4301, 4301); (4304, 4346); (4349, 4351); (5024, 5109);
   (5112, 5117); (7296, 7304); (7312, 7354); (7357, 7359); (7424, 7467);
   (7531, 7543); (7545, 7578); (7680, 7957); (7960, 7965); (7968, 8005);
   (8008, 8013); (8016, 8023); (8025, 8025); (8027, 8027); (8029, 8029);
   (8031, 8061); (8064, 8116); (8118, 8124); (8126, 8126); (8130, 8132);
   (8134, 8140); (8144, 8147); (8150, 8155); (8160, 8172); (8178, 8180);
   (8182, 8188); (8450, 8450); (8455, 8455); (8458, 8467); (8469, 8469);
   (8473, 8477); (8484, 8484); (8486, 8486); (8488, 8488); (8490, 8493);
   (8495, 8500); (8505, 8505); (8508, 8511); (8517, 8521); (8526, 8526);
   (8544, 8575); (8579, 8580); (9398, 9449); (11264, 11387); (11390, 11492);
   (11499, 11502); (11506, 11507); (11520, 11557); (11559, 11559); (11565, 11565);
   (42560, 42605); (42624, 42651); (42786, 42863); (42865, 42887); (42891, 42894);
   (42896, 42954); (42960, 42961); (42963, 42963); (42965, 42969); (42997, 42998);
   (43002, 43002); (43824, 43866); (43872, 43880); (43888, 43967); (64256, 64262);
   (64275, 64279); (65313, 65338); (65345, 65370); (66560, 66639); (66736, 66771);
   (66776, 66811); (66928, 66938); (66940, 66954); (66956, 66962); (66964, 66965);
   (66967, 66977); (66979, 66993); (66995, 67001); (67003, 67004); (68736, 68786);
   (68800, 68850); (71840, 71903); (93760, 93823); (119808, 119892); (119894, 119964);
   (119966, 119967); (119970, 119970); (119973, 119974); (119977, 119980); (119982, 119993);
   (119995, 119995); (119997, 120003); (120005, 120069); (120071, 120074); (120077, 120084);
   (120086, 120092); (120094, 120121); (120123, 120126); (120128, 120132); (120134, 120134);
   (120138, 120144); (120146, 120485); (120488, 120512); (120514, 120538); (120540, 120570);
   (120572, 120596); (120598, 120628); (120630, 120654); (120656, 120686); (120688, 120712);
   (120714, 120744); (120746, 120770); (120772, 120779); (122624, 122633); (122635, 122654);
   (125184, 125251); (127280, 127305); (127312, 127337); (127344, 127369)].

(** The lower case of one code point, out of context: its simple mapping,
    or itself; U+0130 alone becomes two code points. *)
Definition lowerOf (c : Z) : list Z :=
  match List.find (fun '(first, last, step, _) =>
                     (first <=? c) && (c <=? last) && ((c - first) mod step =? 0))
                  lowerRanges with
  | Some (_, _, _, delta) => [c + delta]
  | None => if c =? 304 then [105; 775] else [c]
  end.

Definition inRanges (ranges : list (Z * Z)) (c : Z) : bool :=
  existsb (fun '(first, last) => (first <=? c) && (c <=? last)) ranges.

Definition caseIgnorable (c : Z) : bool := inRanges caseIgnorableRanges c.

(** A cased letter, for the context of a sigma: a point that is also
    case-ignorable is skipped before it is looked at. *)
Definition cased (c : Z) : bool := inRanges casedRanges c.

Module JS.

(** WhiteSpace and LineTerminator code units, what [trim] strips: TAB, LF,
    VT, FF, CR, SP, NBSP, U+1680, U+2000 to U+200A, U+2028, U+2029, U+202F,
    U+205F, U+3000 and U+FEFF. *)
Definition isWhiteSpace (u : Z) : bool :=
  ((9 <=? u) && (u <=? 13)) || (u =? 32) || (u =? 160) || (u =? 5760) ||
  ((8192 <=? u) && (u <=? 8202)) || (u =? 8232) || (u =? 8233) || (u =? 8239) ||
  (u =? 8287) || (u =? 12288) || (u =? 65279).

Fixpoint trimStart (s : JSString) : JSString :=
  match s with
  | u :: s' => if isWhiteSpace u then trimStart s' else s
  | [] => []
  end.

Fixpoint trimEnd (s : JSString) : JSString :=
  match s with
  | u :: s' =>
      match trimEnd s' with
      | [] => if isWhiteSpace u then [] else [u]
      | rest => u :: rest
      end
  | [] => []
  end.

(** [String.prototype.trim] *)
Definition trim (s : JSString) : JSString := trimEnd (trimStart s).

(** [q] is at the start of [s]. *)
Fixpoint startsWith (s q : JSString) {struct q} : bool :=
  match q, s with
  | [], _ => true
  | a :: q', b :: s' => (a =? b) && startsWith s' q'
  | _ :: _, [] => false
  end.

(** [String.prototype.includes]: [q] is in [s] at some position. *)
Fixpoint includes (s q : JSString) : bool :=
  startsWith s q ||
  match s with
  | _ :: s' => includes s' q
  | [] => false
  end.

(** The code points of a string: a leading surrogate and the trailing
    surrogate after it make one code point, any other code unit is one by
    itself. *)
Definition isLeadingSurrogate (u : Z) : bool := (55296 <=? u) && (u <=? 56319).
Definition isTrailingSurrogate (u : Z) : bool := (56320 <=? u) && (u <=? 57343).

Fixpoint codePoints (s : JSString) : list Z :=
  match s with
  | lead :: rest =>
      match rest with
      | trail :: rest' =>
          if isLeadingSurrogate lead && isTrailingSurrogate trail
          then ((lead - 55296) * 1024 + (trail - 56320) + 65536) :: codePoints rest'
          else lead :: codePoints rest
      | [] => [lead]
      end
  | [] => []
  end.

(** The code units of a code point. *)
Definition codeUnits (c : Z) : JSString :=
  if c <? 65536 then [c]
  else [55296 + (c - 65536) / 1024; 56320 + (c - 65536) mod 1024].

(** What follows a sigma: case-ignorable points and then a cased letter. *)
Fixpoint casedFollows (after : list Z) : bool :=
  match after with
  | c :: after' => if caseIgnorable c then casedFollows after' else cased c
  | [] => false
  end.

(** The lower case of a sequence of code points.  [before] tells that a
    cased letter and then only case-ignorable points precede.  A capital
    sigma (U+03A3) with a cased letter before it and none after it is a
    final sigma and becomes U+03C2; every other point has its lower case
    out of context. *)
Fixpoint lowerPoints (before : bool) (s : list Z) : list Z :=
  match s with
  | c :: after =>
      (if (c =? 931) && before && negb (casedFollows after) then [962] else lowerOf c)
      ++ lowerPoints (if caseIgnorable c then before else cased c) after
  | [] => []
  end.

(** [String.prototype.toLowerCase] *)
Definition toLowerCase (s : JSString) : JSString :=
  flat_map codeUnits (lowerPoints false (codePoints s)).

End JS.

(** ** The marketplace page *)

Module Marketplace.

Section Search.

(** The filter reads the name and the description of an app and nothing
    else: the search is stated for any type of apps with these two
    fields, so that it covers every JS string. *)
Context {App : Type} (name description : App -> JSString).

(** The predicate given to [allApps.filter]. *)
Definition matches (query : JSString) (app : App) : bool :=
  JS.includes (JS.toLowerCase (name app)) query ||
  JS.includes (JS.toLowerCase (description app)) query.

(** [allApps] is the data of a query: [None] while it is not loaded, and
    [allApps?.filter] is then [undefined] too. *)
Definition filteredApps (allApps : option (list App)) (searchQuery : JSString)
    : option (list App) :=
  match JS.trim searchQuery with
  | [] => allApps
  | _ =>
      let query := JS.toLowerCase searchQuery in
      match allApps with
      | Some apps => Some (List.filter (matches query) apps)
      | None => None
      end
  end.

End Search.

(** What a card shows.  [Math.random()] is a number in [0, 1) that the
    runtime supplies at each evaluation; the two evaluations of one
    rendering are the arguments [random1] and [random2]. *)
Record Card : Type := mkCard {
  title : string;
  subtitle : string;
  verified : bool;
  stars : Z;
  installs : Z
}.

Definition AppCard (app : OAuthApp.t) (random1 random2 : Q) : Card :=
  {| title := OAuthApp.name app;
     subtitle := OAuthApp.description app;
     verified := String.eqb (OAuthApp.verificationStatus app) "verified";
     stars := Qfloor (random1 * 5) + 1;
     installs := Qfloor (random2 * 1000) + 10 |}.

End Marketplace.

(** ** server/oauthAppRoutes.ts *)

Module Routes.

(** A JS number holding an integer, an infinity, or NaN. *)
Inductive JSNumber : Type :=
| Num (n : Z)
| Infinity (positive : bool)
| NaN.

(** The Number value of a mathematical integer: the integer itself below
    2^53, and above it the nearest double (a significand of 53 bits, ties
    to the even one); an infinity from 2^1024 - 2^970 on. *)
Definition toNumber (mathInt : Z) : JSNumber :=
  let magnitude := Z.abs mathInt in
  if magnitude <? 2 ^ 53 then Num mathInt
  else
    let ulp := 2 ^ (Z.log2 magnitude - 52) in
    let rounded := roundHalfEven magnitude ulp * ulp in
    if rounded <? 2 ^ 1024 then Num (Z.sgn mathInt * rounded)
    else Infinity (0 <? mathInt).

(** The value of a code unit as a digit: 0-9, a-z, A-Z. *)
Definition digitValue (c : ascii) : option Z :=
  let n := code c in
  if (48 <=? n) && (n <=? 57) then Some (n - 48)
  else if (97 <=? n) && (n <=? 122) then Some (n - 87)
  else if (65 <=? n) && (n <=? 90) then Some (n - 55)
  else None.

Definition radixDigit (R : Z) (c : ascii) : option Z :=
  match digitValue c with
  | Some d => if d <? R then Some d else None
  | None => None
  end.

(** The value of the longest prefix of radix-[R] digits; [acc] is the
    value read so far, [None] before the first digit. *)
Fixpoint digits (R : Z) (s : string) (acc : option Z) : option Z :=
  match s with
  | String c s' =>
      match radixDigit R c with
      | Some d => digits R s' (Some (match acc with Some a => a * R + d | None => d end))
      | None => acc
      end
  | EmptyString => acc
  end.

(** [parseInt(string)] with no radix: leading white space is skipped, a
    sign is read, a [0x] or [0X] prefix selects radix 16, and the longest
    prefix of digits is the result, as a Number value ([toNumber]: above
    2^53 the nearest double, all the digits being read); NaN when there is
    none. *)
Definition parseInt (string : string) : JSNumber :=
  let inputString := trimStart string in
  let '(sign, unsigned) :=
    match inputString with
    | String "-" rest => (-1, rest)
    | String "+" rest => (1, rest)
    | _ => (1, inputString)
    end in
  let '(R, numeral) :=
    match unsigned with
    | String "0" (String "x" rest) | String "0" (String "X" rest) => (16, rest)
    | _ => (10, unsigned)
    end in
  match digits R numeral None with
  | Some mathInt => toNumber (sign * mathInt)
  | None => NaN
  end.

(** The part of [req] the handlers read.  A body field is [None] when it
    is absent. *)
Record Body : Type := mkBody {
  name : option string;
  description : option string;
  homepageUrl : option string;
  callbackUrl : option string;
  logoUrl : option string
}.

Record Request : Type := mkRequest {
  isAuthenticated : bool;
  user : option Z;               (* [req.user.id] *)
  body : Body;
  queryLimit : option string     (* [req.query.limit] *)
}.

(** The argument of [storage.createOAuthApp]. *)
Record InsertOAuthApp : Type := mkInsert {
  insUserId : Z;
  insName : string;
  insDescription : string;
  insHomepageUrl : string;
  insCallbackUrl : string;
  insLogoUrl : option string
}.

Inductive Json : Type :=
| Message (message : string)
| App (app : OAuthApp.t)
| Apps (apps : list OAuthApp.t).

Record Response : Type := mkResponse { status : Z; json : Json }.

(** A handler is a tree of calls to [./storage], which is not part of the
    sources: each call names its argument and continues with the awaited
    result, [None] when the promise rejects (the [catch] branch). *)
Inductive Handler : Type :=
| Respond (res : Response)
| GetUserOAuthApps (userId : Z) (k : option (list OAuthApp.t) -> Handler)
| CreateOAuthApp (data : InsertOAuthApp) (k : option OAuthApp.t -> Handler)
| GetPublishedOAuthApps (k : option (list OAuthApp.t) -> Handler)
| GetTopRatedOAuthApps (limit : JSNumber) (k : option (list OAuthApp.t) -> Handler).

(** [!value] for a body field: absent, or the empty string. *)
Definition falsy (value : option string) : bool :=
  match value with
  | Some s => String.eqb s EmptyString
  | None => true
  end.

Definition text (value : option string) : string :=
  match value with
  | Some s => s
  | None => EmptyString
  end.

(** [requireAuth] *)
Definition requireAuth (req : Request) (next : Z -> Handler) : Handler :=
  match isAuthenticated req, user req with
  | true, Some userId => next userId
  | _, _ => Respond {| status := 401; json := Message "Authentication required" |}
  end.

(** [router.get('/')] *)
Definition getApps (req : Request) : Handler :=
  requireAuth req (fun userId =>
    GetUserOAuthApps userId (fun apps =>
      match apps with
      | Some apps => Respond {| status := 200; json := Apps apps |}
      | None => Respond {| status := 500; json := Message "Failed to fetch OAuth apps" |}
      end)).

(** [router.post('/')] *)
Definition createApp (req : Request) : Handler :=
  requireAuth req (fun userId =>
    let b := body req in
    if falsy (name b) || falsy (description b) ||
       falsy (homepageUrl b) || falsy (callbackUrl b)
    then Respond {| status := 400; json := Message "Required fields missing" |}
    else
      CreateOAuthApp
        {| insUserId := userId;
           insName := text (name b);
           insDescription := text (description b);
           insHomepageUrl := text (homepageUrl b);
           insCallbackUrl := text (callbackUrl b);
           insLogoUrl := logoUrl b |}
        (fun app =>
           match app with
           | Some app => Respond {| status := 201; json := App app |}
           | None => Respond {| status := 500; json := Message "Failed to create OAuth app" |}
           end)).

(** [router.get('/marketplace/list')] *)
Definition marketplaceList (req : Request) : Handler :=
  GetPublishedOAuthApps (fun apps =>
    match apps with
    | Some apps => Respond {| status := 200; json := Apps apps |}
    | None => Respond {| status := 500; json := Message "Failed to fetch marketplace" |}
    end).

(** [req.query.limit ? parseInt(req.query.limit as string) : 10] *)
Definition limitOf (req : Request) : JSNumber :=
  match queryLimit req with
  | Some limit => if String.eqb limit EmptyString then Num 10 else parseInt limit
  | None => Num 10
  end.

(** [router.get('/marketplace/top-rated')] *)
Definition topRated (req : Request) : Handler :=
  let limit := limitOf req in
  GetTopRatedOAuthApps limit (fun apps =>
    match apps with
    | Some apps => Respond {| status := 200; json := Apps apps |}
    | None => Respond {| status := 500; json := Message "Failed to fetch top-rated apps" |}
    end).

(** The store behind the handlers, as an interface over its state. *)
Class Storage (S : Type) : Type := {
  getUserOAuthApps : Z -> S -> option (list OAuthApp.t);
  createOAuthApp : InsertOAuthApp -> S -> option (OAuthApp.t * S);
  getPublishedOAuthApps : S -> option (list OAuthApp.t);
  getTopRatedOAuthApps : JSNumber -> S -> option (list OAuthApp.t)
}.

(** Running a handler against a store. *)
Fixpoint run {S : Type} `{Storage S} (h : Handler) (st : S) : Response * S :=
  match h with
  | Respond res => (res, st)
  | GetUserOAuthApps userId k => run (k (getUserOAuthApps userId st)) st
  | CreateOAuthApp data k =>
      match createOAuthApp data st with
      | Some (app, st') => run (k (Some app)) st'
      | None => run (k None) st
      end
  | GetPublishedOAuthApps k => run (k (getPublishedOAuthApps st)) st
  | GetTopRatedOAuthApps limit k => run (k (getTopRatedOAuthApps limit st)) st
  end.

(** Modelled from the spec: the row that the persistence collaborator
    [./storage], missing from the sources, creates for an application:
    unpublished, unverified, and with no credential pair until one is
    issued. *)
Definition rowOf (newId : Z) (data : InsertOAuthApp) : OAuthApp.t :=
  {| OAuthApp.id := newId;
     OAuthApp.userId := insUserId data;
     OAuthApp.name := insName data;
     OAuthApp.description := insDescription data;
     OAuthApp.clientId := None;
     OAuthApp.clientSecret := None;
     OAuthApp.homepageUrl := insHomepageUrl data;
     OAuthApp.callbackUrl := insCallbackUrl data;
     OAuthApp.isPublished := false;
     OAuthApp.verificationStatus := "unverified";
     OAuthApp.logoUrl := insLogoUrl data;
     OAuthApp.isListed := false |}.

(** Modelled from the spec: the "external persistence collaborator
    (create/read/update/delete of app, credential, and review records)"
    behind [./storage], missing from the sources: a store that keeps the
    rows it is given, in order of creation, with no check of its own. *)
#[global] Instance memoryStorage : Storage (list OAuthApp.t) := {|
  getUserOAuthApps userId rows :=
    Some (List.filter (fun app => OAuthApp.userId app =? userId) rows);
  createOAuthApp data rows :=
    let app := rowOf (Z.of_nat (length rows) + 1) data in
    Some (app, rows ++ [app]);
  getPublishedOAuthApps rows := Some (List.filter OAuthApp.isPublished rows);
  getTopRatedOAuthApps limit rows :=
    match limit with
    | Num n => Some (take (Z.to_nat n) (List.filter OAuthApp.isPublished rows))
    | Infinity true => Some (List.filter OAuthApp.isPublished rows)
    | Infinity false | NaN => Some []
    end
|}.

End Routes.

(** ** Review submission *)

Module RatingAggregator.

(** Modelled from the spec: the two errors of [validateSubmission], "both
    expected, recoverable user-input errors". *)
Inductive Error : Type :=
| DuplicateReviewError
| InvalidRatingError.

(** Modelled from the spec: the candidate [{userId, rating, text}] of
    [validateSubmission]; the sources only hold the form that posts it
    ([Reviews.handleSubmit]), the handler of [POST /reviews] is missing.
    The text may be null or absent. *)
Record Candidate : Type := mkCandidate {
  candUserId : Z;
  candRating : Z;
  candText : option string
}.

(** Modelled from the spec: an accepted record, as kept in the review
    collection of one application; its text is a string, never null. *)
Record Review : Type := mkReview {
  userId : Z;
  rating : Z;
  text : string
}.

(** Modelled from the spec: "existingReviews already contains an entry with
    the same userId". *)
Definition hasReviewed (existingReviews : list Review) (user : Z) : bool :=
  existsb (fun review => userId review =? user) existingReviews.

(** Modelled from the spec: the rating "is an integer in [1,5]". *)
Definition validRating (rating : Z) : bool := (1 <=? rating) && (rating <=? 5).

(** Modelled from the spec: [validateSubmission(existingReviews,
    candidate)], missing from the sources.  It "fails with
    DuplicateReviewError if existingReviews already contains an entry with
    the same userId; fails with InvalidRatingError if candidate.rating is
    not an integer in [1,5]; otherwise succeeds and returns the accepted
    record unchanged", a null or absent text becoming the empty string. *)
Definition validateSubmission (existingReviews : list Review) (candidate : Candidate)
    : Error + Review :=
  if hasReviewed existingReviews (candUserId candidate) then inl DuplicateReviewError
  else if negb (validRating (candRating candidate)) then inl InvalidRatingError
  else inr {| userId := candUserId candidate;
              rating := candRating candidate;
              text := match candText candidate with
                      | Some text => text
                      | None => EmptyString
                      end |}.

(** Modelled from the spec: [POST /apps/{id}/reviews] "invokes
    validateSubmission before the store boundary inserts a row"; the
    handler is missing from the sources. *)
Definition postReview (existingReviews : list Review) (candidate : Candidate)
    : list Review :=
  match validateSubmission existingReviews candidate with
  | inr review => existingReviews ++ [review]
  | inl _ => existingReviews
  end.

(** Modelled from the spec: the collection after a sequence of such
    requests. *)
Definition postReviews (existingReviews : list Review) (candidates : list Candidate)
    : list Review :=
  fold_left postReview candidates existingReviews.

End RatingAggregator.

(** ** Credentials *)

Module CredentialIssuer.

(** Modelled from the spec: the credential pair [{clientId, clientSecret}],
    "both opaque random strings"; the schema keeps them in the two fields of
    the application row. *)
Record CredentialPair : Type := mkPair {
  clientId : string;
  clientSecret : string
}.

(** Modelled from the spec: the two errors of [issue]. *)
Inductive Error : Type :=
| GenerationError
| ExhaustedRetriesError.

(** Modelled from the spec: the entropy source of [issue], missing from
    the sources.  The n-th draw of a client id and the draw of a secret
    come from separate spaces; a draw is [None] when the source is
    unavailable. *)
Record Entropy : Type := mkEntropy {
  drawClientId : nat -> option string;
  drawClientSecret : option string
}.

(** Modelled from the spec: the bound on the retries, "e.g., 5 attempts". *)
Definition maxAttempts : nat := 5.

(** Modelled from the spec: the attempts of [issue], missing from the
    sources: "must retry-on-collision if clientId happens to already be in
    existingClientIds", the retry is bounded and "raises
    ExhaustedRetriesError if collisions persist"; it "fails with
    GenerationError only if the entropy source is unavailable". *)
Fixpoint attempts (remaining n : nat) (entropy : Entropy)
    (existingClientIds : gset string) : Error + CredentialPair :=
  match remaining with
  | O => inl ExhaustedRetriesError
  | S remaining =>
      match drawClientId entropy n with
      | None => inl GenerationError
      | Some id =>
          if decide (id ∈ existingClientIds)
          then attempts remaining (S n) entropy existingClientIds
          else
            match drawClientSecret entropy with
            | None => inl GenerationError
            | Some secret => inr {| clientId := id; clientSecret := secret |}
            end
      end
  end.

(** Modelled from the spec: [issue(existingClientIds)], missing from the
    sources. *)
Definition issue (entropy : Entropy) (existingClientIds : gset string)
    : Error + CredentialPair :=
  attempts maxAttempts 0 entropy existingClientIds.

(** Modelled from the spec: [regenerate(applicationId,
    existingClientIds)], "identical generation contract"; missing from the
    sources, which only hold the form that posts to it
    ([regenerateCredentialsMutation]). *)
Definition regenerate (applicationId : Z) (entropy : Entropy)
    (existingClientIds : gset string) : Error + CredentialPair :=
  issue entropy existingClientIds.

(** The pair an application row holds: both fields, or none. *)
Definition credentials (app : OAuthApp.t) : option CredentialPair :=
  match OAuthApp.clientId app, OAuthApp.clientSecret app with
  | Some id, Some secret => Some {| clientId := id; clientSecret := secret |}
  | _, _ => None
  end.

(** Modelled from the spec: the store's "single atomic replace" of the
    credential pair field: both fields change in one step. *)
Definition replace (pair : CredentialPair) (app : OAuthApp.t) : OAuthApp.t :=
  {| OAuthApp.id := OAuthApp.id app;
     OAuthApp.userId := OAuthApp.userId app;
     OAuthApp.name := OAuthApp.name app;
     OAuthApp.description := OAuthApp.description app;
     OAuthApp.clientId := Some (clientId pair);
     OAuthApp.clientSecret := Some (clientSecret pair);
     OAuthApp.homepageUrl := OAuthApp.homepageUrl app;
     OAuthApp.callbackUrl := OAuthApp.callbackUrl app;
     OAuthApp.isPublished := OAuthApp.isPublished app;
     OAuthApp.verificationStatus := OAuthApp.verificationStatus app;
     OAuthApp.logoUrl := OAuthApp.logoUrl app;
     OAuthApp.isListed := OAuthApp.isListed app |}.

(** Modelled from the spec: the uniqueness set [existingClientIds], here
    the client ids in use over all the applications of the store. *)
Definition clientIds (store : gmap Z OAuthApp.t) : gset string :=
  list_to_set (omap (fun row => OAuthApp.clientId row.2) (map_to_list store)).

(** Modelled from the spec: what [POST /apps/{id}/credentials] answers: the
    new pair, the error of the generation, or that there is no such
    application. *)
Inductive Outcome : Type :=
| Issued (pair : CredentialPair)
| Failed (error : Error)
| NotFound.

(** Modelled from the spec: [POST /apps/{id}/credentials] "invokes
    regenerate, then the store boundary atomically replaces the stored
    pair; response echoes the new pair once"; the handler is missing from
    the sources.  The uniqueness set is the store's client ids. *)
Definition postCredentials (applicationId : Z) (entropy : Entropy)
    (store : gmap Z OAuthApp.t) : Outcome * gmap Z OAuthApp.t :=
  match store !! applicationId with
  | None => (NotFound, store)
  | Some app =>
      match regenerate applicationId entropy (clientIds store) with
      | inr newPair => (Issued newPair, <[applicationId := replace newPair app]> store)
      | inl error => (Failed error, store)
      end
  end.

(** Modelled from the spec: a pair is valid for an application when the
    store holds it there ("one-active-pair-at-a-time"). *)
Definition valid (store : gmap Z OAuthApp.t) (applicationId : Z)
    (pair : CredentialPair) : Prop :=
  exists app, store !! applicationId = Some app /\ credentials app = Some pair.

(** Modelled from the spec: client ids are "unique across all applications
    at the clientId level". *)
Definition uniqueClientIds (store : gmap Z OAuthApp.t) : Prop :=
  forall i j a b id,
    store !! i = Some a -> store !! j = Some b ->
    OAuthApp.clientId a = Some id -> OAuthApp.clientId b = Some id -> i = j.

(** Modelled from the spec: the states a store goes through under a
    sequence of regeneration requests, each applied in one step (the
    "single-writer transaction" of the store boundary). *)
Fixpoint states (store : gmap Z OAuthApp.t) (requests : list (Z * Entropy))
    : list (gmap Z OAuthApp.t) :=
  match requests with
  | [] => [store]
  | (applicationId, entropy) :: requests =>
      store :: states (postCredentials applicationId entropy store).2 requests
  end.

End CredentialIssuer.

(** ** Absolute URLs *)

Definition isAlpha (c : ascii) : bool :=
  let n := code c in
  ((65 <=? n) && (n <=? 90)) || ((97 <=? n) && (n <=? 122)).

Definition isSchemeChar (c : ascii) : bool :=
  let n := code c in
  isAlpha c || ((48 <=? n) && (n <=? 57)) || (n =? 43) || (n =? 45) || (n =? 46).

(** The rest of a scheme, up to its colon. *)
Fixpoint schemeEnds (s : string) : bool :=
  match s with
  | String c s' => if code c =? 58 then true else isSchemeChar c && schemeEnds s'
  | EmptyString => false
  end.

Fixpoint noWhiteSpace (s : string) : bool :=
  match s with
  | String c s' => negb (isWhiteSpace c) && noWhiteSpace s'
  | EmptyString => true
  end.

(** Modelled from the spec: a "well-formed absolute URL".  The sources have
    no such check (the creation form only marks its inputs [type="url"]);
    this is the necessary condition of RFC 3986: a scheme, that is a letter
    followed by letters, digits, [+], [-] or [.], then a colon, and no white
    space anywhere. *)
Definition absoluteUrl (s : string) : bool :=
  match s with
  | String c s' => isAlpha c && schemeEnds s' && noWhiteSpace s
  | EmptyString => false
  end.

(** ** Search vocabulary *)

(** Text made of white space only (the empty text included). *)
Fixpoint allWhiteSpace (s : string) : bool :=
  match s with
  | String c s' => isWhiteSpace c && allWhiteSpace s'
  | EmptyString => true
  end.

(** A query made of white space only (the empty query included). *)
Definition blank (s : JSString) : bool := forallb JS.isWhiteSpace s.

(** [q] occurs in [s]. *)
Definition occurs (q s : JSString) : Prop :=
  exists before after, s = before ++ q ++ after.

(** Text of the code units 0 to 127. *)
Definition isAscii (s : JSString) : Prop := Forall (fun u => 0 <= u < 128) s.

(** Two code units that are the same letter up to case: the same unit, or
    one of the capitals A to Z and its small letter. *)
Definition sameLetter (a b : Z) : Prop :=
  a = b \/ (65 <= a <= 90 /\ b = a + 32) \/ (65 <= b <= 90 /\ a = b + 32).

(** [s] contains [q] case-insensitively: a part of [s] is [q] letter by
    letter, up to the case of the letters A to Z. *)
Definition containsIgnoringCase (s q : JSString) : Prop :=
  exists before part after, s = before ++ part ++ after /\ Forall2 sameLetter part q.

(** The lower case of a code unit of ASCII text: A to Z move up by 32. *)
Definition lowerAscii (u : Z) : Z := if (65 <=? u) && (u <=? 90) then u + 32 else u.

(** The name and the description of a row, as JS strings. *)
Definition nameOf (app : OAuthApp.t) : JSString := units (OAuthApp.name app).
Definition descriptionOf (app : OAuthApp.t) : JSString := units (OAuthApp.description app).

(** ** Sample rows *)

(** A review row of application 1 by a user, with no text. *)
Definition review (user rating : Z) : AppReview.t :=
  AppReview.mk user 1 user rating None 0.

(** A signed-in request to create an application. *)
Definition creation (userId : Z) (name description homepageUrl callbackUrl : string)
    : Routes.Request :=
  {| Routes.isAuthenticated := true;
     Routes.user := Some userId;
     Routes.body := Routes.mkBody (Some name) (Some description)
                      (Some homepageUrl) (Some callbackUrl) None;
     Routes.queryLimit := None |}.

(** An anonymous request whose query string is [?limit=...] or has no
    [limit]. *)
Definition withLimit (limit : option string) : Routes.Request :=
  {| Routes.isAuthenticated := false;
     Routes.user := None;
     Routes.body := Routes.mkBody None None None None None;
     Routes.queryLimit := limit |}.

(** An application row holding the given credential pair. *)
Definition appWith (id : Z) (clientId clientSecret : string) : OAuthApp.t :=
  CredentialIssuer.replace (CredentialIssuer.mkPair clientId clientSecret)
    (Routes.rowOf id (Routes.mkInsert 1 "app" "an app" "https://app.test" "https://app.test/cb" None)).

(** The two reviews of the spec's example, and a collection where an entry
    has the rating 6. *)
Definition sampleReviews : list AppReview.t := [review 1 5; review 2 1].

Definition corruptReviews : list AppReview.t := [review 1 6; review 2 5].

(** The summary leaves the rejected entries out of all its counts: it is the
    summary of the entries the guard lets through. *)
Definition excludesSkipped (reviews : list AppReview.t) : Prop :=
  let stats := Reviews.calculateReviewStats (Some reviews) in
  let kept := Reviews.calculateReviewStats (Some (counted reviews)) in
  Reviews.totalReviews stats = Reviews.totalReviews kept /\
  (Reviews.averageRating stats == Reviews.averageRating kept)%Q /\
  Reviews.ratingCounts stats = Reviews.ratingCounts kept /\
  Forall2 Qeq (Reviews.percentages stats) (Reviews.percentages kept).

(** Two applications of the marketplace. *)
Definition sampleApps : list OAuthApp.t :=
  [appWith 1 "id-1" "secret-1";
   Routes.rowOf 2 (Routes.mkInsert 1 "Mail" "Send MAIL" "https://mail.test" "https://mail.test/cb" None)].

(** A collection with one review, by user 1. *)
Definition oneReview : list RatingAggregator.Review :=
  [RatingAggregator.mkReview 1 5 "fine"].

(** A store of two applications holding a pair each. *)
Definition sampleStore : gmap Z OAuthApp.t :=
  <[1 := appWith 1 "id-1" "secret-1"]> (<[2 := appWith 2 "id-2" "secret-2"]> ∅).

(** An entropy source whose first two client ids collide with the store. *)
Definition sampleEntropy : CredentialIssuer.Entropy :=
  {| CredentialIssuer.drawClientId := fun n =>
       match n with
       | O => Some "id-1"
       | S O => Some "id-2"
       | _ => Some "id-3"
       end;
     CredentialIssuer.drawClientSecret := Some "secret-3" |}.

(** * The rest of the pages *)

(** ** Numbers *)

(** [Math.round]: the nearest integer, a half going up. *)
Definition mathRound (x : Q) : Z := Qfloor (x + (1 # 2)).

(** The integer nearest to a rational, a half going to the even one. *)
Definition nearestInteger (x : Q) : Z := roundHalfEven (Qnum x) (Z.pos (Qden x)).

(** The binary exponent of a positive rational: the [e] with
    [2^e <= q < 2^(e+1)]. *)
Definition binade (q : Q) : Z :=
  let k := Z.log2 (Qnum q) - Z.log2 (Z.pos (Qden q)) in
  if Qle_bool (2 ^ k) q then k else k - 1.

(** The distance between the doubles around a positive rational: 52 binary
    places below its exponent, and 2^-1074 below 2^-1022. *)
Definition ulp (q : Q) : Q := (2 ^ (Z.max (binade q) (-1022) - 52))%Q.

(** The double that a rational is rounded to, as every arithmetic operation
    of the source does with its exact result: the nearest multiple of
    [ulp], a half going to the even one.  For magnitudes below the largest
    double (2^1024 - 2^970 and more would be an infinity). *)
Definition double (q : Q) : Q :=
  match (q ?= 0)%Q with
  | Eq => 0
  | Gt => inject_Z (nearestInteger (q / ulp q)) * ulp q
  | Lt => - (inject_Z (nearestInteger (- q / ulp (- q))) * ulp (- q))
  end.

(** [(count / total) * 100] as the source computes it, each of the two
    operations rounding to a double. *)
Definition percent (count total : Z) : Q :=
  double (double (inject_Z count / inject_Z total) * 100).

(** The same computation with the binary64 operations of the Standard
    Library ([SpecFloat], 53 bits of precision and exponents below 1024),
    kept to compare [double] with. *)
Definition binary64 (n : Z) : spec_float :=
  match n with
  | Z0 => S754_zero false
  | Z.pos p => binary_normalize 53 1024 (Z.pos p) 0 false
  | Z.neg p => binary_normalize 53 1024 (Z.pos p) 0 true
  end.

Definition valueOf (x : spec_float) : option Q :=
  match x with
  | S754_zero _ => Some 0%Q
  | S754_finite negative m e =>
      Some ((if negative then -1 else 1) * inject_Z (Z.pos m) * 2 ^ e)%Q
  | _ => None
  end.

Definition percent64 (count total : Z) : option Q :=
  valueOf (SFmul 53 1024 (SFdiv 53 1024 (binary64 count) (binary64 total)) (binary64 100)).

(** [String(n)], and [${n}] in a template, for an integer [n] of magnitude
    below 10^21: its decimal numeral. *)
Definition numberToString (n : Z) : string := NilZero.string_of_int (Z.to_int n).

(** A JS number that need not be an integer: the exact rational that the
    double rounds, an infinity, or NaN. *)
Inductive JSFloat : Type :=
| Finite (q : Q)
| Infinite (negative : bool)
| NotANumber.

Definition isNaN (x : JSFloat) : bool :=
  match x with
  | NotANumber => true
  | _ => false
  end.

(** The longest prefix of decimal digits: its value after [acc], the number
    of its digits after [n], and what follows it. *)
Fixpoint decimalDigits (s : string) (acc : Z) (n : nat) : Z * nat * string :=
  match s with
  | String c s' =>
      match Routes.radixDigit 10 c with
      | Some d => decimalDigits s' (acc * 10 + d) (S n)
      | None => (acc, n, s)
      end
  | EmptyString => (acc, n, s)
  end.

(** The value of an ExponentPart at the start of [s]: [e] or [E], a sign or
    none, and at least one digit; 0 when there is no complete one. *)
Definition exponentPart (s : string) : Z :=
  match s with
  | String c s' =>
      if (code c =? 101) || (code c =? 69)
      then
        let '(sign, s'') :=
          match s' with
          | String "-" rest => (-1, rest)
          | String "+" rest => (1, rest)
          | _ => (1, s')
          end in
        let '(value, n, _) := decimalDigits s'' 0 0 in
        if (n =? 0)%nat then 0 else sign * value
      else 0
  | EmptyString => 0
  end.

(** [parseFloat(string)]: leading white space is skipped and the longest
    prefix that is a decimal literal is read: a sign or none, then
    [Infinity], or digits with an optional fraction and exponent, or a
    fraction alone; NaN when there is no such prefix. *)
Definition parseFloat (string : string) : JSFloat :=
  let trimmed := trimStart string in
  let '(negative, unsigned) :=
    match trimmed with
    | String "-" rest => (true, rest)
    | String "+" rest => (false, rest)
    | _ => (false, trimmed)
    end in
  if String.prefix "Infinity" unsigned then Infinite negative
  else
    let '(int, nInt, rest) := decimalDigits unsigned 0 0 in
    let '(frac, nFrac, rest') :=
      match rest with
      | String "." afterPoint => decimalDigits afterPoint 0 0
      | _ => (0, 0%nat, rest)
      end in
    if (nInt + nFrac =? 0)%nat then NotANumber
    else
      let mantissa := (inject_Z int + inject_Z frac / 10 ^ Z.of_nat nFrac)%Q in
      let value := (mantissa * 10 ^ exponentPart rest')%Q in
      Finite (if negative then (- value)%Q else value).

(** ** The reviews page, client/OAuthAppReviews.tsx *)

Module ReviewsPage.

(** [StarRating]: [[1, 2, 3, 4, 5].map(star => star <= rating)], the stars
    that are filled. *)
Definition StarRating (rating : Z) : list bool :=
  map (fun star => star <=? rating) Reviews.stars.

(** The stars of the overview: [<StarRating rating={Math.round(averageRating)} />]. *)
Definition overviewStars (stats : Reviews.ReviewStats) : list bool :=
  StarRating (mathRound (Reviews.averageRating stats)).

(** The doubles that [percentages] holds ([Reviews.percentages] has the
    exact quotients): zeros without reviews, else
    [ratingCounts.map(count => (count / totalReviews) * 100)]. *)
Definition percentages (reviews : option (list AppReview.t)) : list Q :=
  match reviews with
  | None | Some [] => [0; 0; 0; 0; 0]%Q
  | Some reviews =>
      map (fun count => percent count (Z.of_nat (length reviews))) (countRatings reviews)
  end.

(** The rows of the breakdown, for the stars 5 to 1: [ratingCounts[5 - star]]
    and [Math.round(percentages[5 - star])]; an entry is [None] where the
    array has none. *)
Definition breakdown (reviews : option (list AppReview.t)) : list (option Z * option Z) :=
  map (fun star =>
         (Reviews.ratingCounts (Reviews.calculateReviewStats reviews) !! Z.to_nat (5 - star),
          mathRound <$> percentages reviews !! Z.to_nat (5 - star)))
      [5; 4; 3; 2; 1].

(** The letter of a reviewer: [String.fromCharCode(65 + (review.userId % 26))];
    [%] is the remainder that has the sign of the dividend. *)
Definition avatarLetter (review : AppReview.t) : ascii :=
  ascii_of_N (Z.to_N (65 + Z.rem (AppReview.userId review) 26)).

(** The page state: the state of the form and the delete dialog. *)
Record Page : Type := mkPage {
  form : Reviews.State;
  showDeleteDialog : bool
}.

Definition initialPage : Page :=
  {| form := Reviews.initialState; showDeleteDialog := false |}.

(** [resetForm] *)
Definition resetForm (st : Reviews.State) : Reviews.State :=
  {| Reviews.showReviewDialog := Reviews.showReviewDialog st;
     Reviews.selectedReview := Reviews.selectedReview st;
     Reviews.isEditing := Reviews.isEditing st;
     Reviews.formData := {| Reviews.rating := 5; Reviews.reviewText := EmptyString |} |}.

Definition setShowReviewDialog (open : bool) (st : Reviews.State) : Reviews.State :=
  {| Reviews.showReviewDialog := open;
     Reviews.selectedReview := Reviews.selectedReview st;
     Reviews.isEditing := Reviews.isEditing st;
     Reviews.formData := Reviews.formData st |}.

Definition setIsEditing (editing : bool) (st : Reviews.State) : Reviews.State :=
  {| Reviews.showReviewDialog := Reviews.showReviewDialog st;
     Reviews.selectedReview := Reviews.selectedReview st;
     Reviews.isEditing := editing;
     Reviews.formData := Reviews.formData st |}.

Definition setSelectedReview (selected : option AppReview.t) (st : Reviews.State)
    : Reviews.State :=
  {| Reviews.showReviewDialog := Reviews.showReviewDialog st;
     Reviews.selectedReview := selected;
     Reviews.isEditing := Reviews.isEditing st;
     Reviews.formData := Reviews.formData st |}.

(** What the user and the mutations do to the page. *)
Inductive Event : Type :=
| ClickWrite                              (* "Write a Review", "Add Your Review" *)
| ClickEdit (review : AppReview.t)        (* [handleEdit(review)] *)
| ClickDelete (review : AppReview.t)      (* [handleDelete(review)] *)
| RatingChange (star : Z)                 (* [handleRatingChange], from [StarRating] *)
| InputChange (value : string)            (* [handleInputChange], the text area *)
| Submit                                  (* [handleSubmit] *)
| Cancel                                  (* the Cancel button of the review dialog *)
| ReviewDialogOpenChange (open : bool)    (* [onOpenChange={setShowReviewDialog}] *)
| DeleteDialogOpenChange (open : bool)    (* [onOpenChange] and Cancel of the delete dialog *)
| ConfirmDelete                           (* [confirmDelete] *)
| SubmitSuccess                           (* [submitReviewMutation.onSuccess] *)
| UpdateSuccess                           (* [updateReviewMutation.onSuccess] *)
| DeleteSuccess.                          (* [deleteReviewMutation.onSuccess] *)

Definition handle (event : Event) (page : Page) : Page :=
  match event with
  | ClickWrite =>
      {| form := setShowReviewDialog true (form page);
         showDeleteDialog := showDeleteDialog page |}
  | ClickEdit review =>
      {| form := Reviews.handleEdit review (form page);
         showDeleteDialog := showDeleteDialog page |}
  | ClickDelete review =>
      {| form := setSelectedReview (Some review) (form page);
         showDeleteDialog := true |}
  | RatingChange star =>
      {| form := Reviews.handleRatingChange star (form page);
         showDeleteDialog := showDeleteDialog page |}
  | InputChange value =>
      {| form := Reviews.handleInputChange value (form page);
         showDeleteDialog := showDeleteDialog page |}
  | Submit => page
  | Cancel =>
      {| form := resetForm (setIsEditing false (setShowReviewDialog false (form page)));
         showDeleteDialog := showDeleteDialog page |}
  | ReviewDialogOpenChange open =>
      {| form := setShowReviewDialog open (form page);
         showDeleteDialog := showDeleteDialog page |}
  | DeleteDialogOpenChange open =>
      {| form := form page; showDeleteDialog := open |}
  | ConfirmDelete => page
  | SubmitSuccess =>
      {| form := resetForm (setShowReviewDialog false (form page));
         showDeleteDialog := showDeleteDialog page |}
  | UpdateSuccess =>
      {| form := resetForm (setIsEditing false (setShowReviewDialog false (form page)));
         showDeleteDialog := showDeleteDialog page |}
  | DeleteSuccess =>
      {| form := setSelectedReview None (form page);
         showDeleteDialog := false |}
  end.

(** The requests the page sends: the form's PUT or POST, and the DELETE of
    [confirmDelete]. *)
Inductive Sent : Type :=
| SentForm (request : Reviews.Request)
| SentDelete (reviewId : Z).

Definition send (event : Event) (page : Page) : option Sent :=
  match event with
  | Submit => Some (SentForm (Reviews.handleSubmit (form page)))
  | ConfirmDelete =>
      match Reviews.selectedReview (form page) with
      | Some review => Some (SentDelete (AppReview.id review))
      | None => None
      end
  | _ => None
  end.

(** The page after a sequence of events, and the requests sent on the way. *)
Fixpoint run (events : list Event) (page : Page) : Page * list Sent :=
  match events with
  | [] => (page, [])
  | event :: events =>
      let '(final, sent) := run events (handle event page) in
      (final, match send event page with
              | Some request => request :: sent
              | None => sent
              end)
  end.

(** The controls that the page offers: a star of [StarRating] is one of its
    five, and Edit and Delete are rendered on the reviews of the current
    user ([review.userId === currentUserId], and the [userReview] of the
    header) with a rating from 1 to 5. *)
Definition currentUserId : Z := 1.

Definition offered (event : Event) : Prop :=
  match event with
  | RatingChange star => In star Reviews.stars
  | ClickEdit review | ClickDelete review =>
      AppReview.userId review = currentUserId /\ 1 <= AppReview.rating review <= 5
  | _ => True
  end.

(** The rating in the form is from 1 to 5. *)
Definition ratingInRange (page : Page) : Prop :=
  1 <= Reviews.rating (Reviews.formData (form page)) <= 5.

(** The rating picked last and the text typed last in a sequence of events,
    [current] where there is none. *)
Fixpoint lastRating (events : list Event) (current : Z) : Z :=
  match events with
  | [] => current
  | RatingChange star :: events => lastRating events star
  | _ :: events => lastRating events current
  end.

Fixpoint lastText (events : list Event) (current : string) : string :=
  match events with
  | [] => current
  | InputChange value :: events => lastText events value
  | _ :: events => lastText events current
  end.

(** The events of filling the form in. *)
Definition isInput (event : Event) : bool :=
  match event with
  | RatingChange _ | InputChange _ => true
  | _ => false
  end.

(** The reviews on which Edit or Delete is clicked in a sequence of events. *)
Fixpoint clicked (events : list Event) : list AppReview.t :=
  match events with
  | [] => []
  | ClickEdit review :: events | ClickDelete review :: events => review :: clicked events
  | _ :: events => clicked events
  end.

(** The review that a request is about, when it is a PUT or a DELETE, and
    the form data that it carries, when it is a PUT or a POST. *)
Definition target (request : Sent) : option Z :=
  match request with
  | SentForm (Reviews.PutReview reviewId _) | SentDelete reviewId => Some reviewId
  | SentForm (Reviews.PostReview _) => None
  end.

Definition carried (request : Sent) : option Reviews.FormData :=
  match request with
  | SentForm (Reviews.PutReview _ data) | SentForm (Reviews.PostReview data) => Some data
  | SentDelete _ => None
  end.

(** What the queries of the page hold at a rendering: [reviews], and
    [userReview], the review that the server returns as the user's own. *)
Record View : Type := mkView {
  reviews : option (list AppReview.t);
  userReview : option AppReview.t
}.

(** The Edit and Delete buttons of a rendering.  The header has "Edit Your
    Review" when [userReview] is there, with [handleEdit(userReview)] and no
    test of whose review it is; the list has Edit and Delete on the rows
    with [review.userId === currentUserId].  (Such a row also evaluates
    [Badge], which the file does not import: where that throws, the row and
    its buttons are not shown, so the page offers no more than this.) *)
Definition buttons (view : View) : list Event :=
  match userReview view with
  | Some review => [ClickEdit review]
  | None => []
  end ++
  flat_map (fun review =>
              if AppReview.userId review =? currentUserId
              then [ClickEdit review; ClickDelete review]
              else [])
           (default [] (reviews view)).

(** An event that a rendering offers: an Edit or a Delete is one of its
    buttons. *)
Definition renders (view : View) (event : Event) : Prop :=
  match event with
  | ClickEdit _ | ClickDelete _ => In event (buttons view)
  | _ => True
  end.

End ReviewsPage.

(** ** The details page *)

Module DetailsPage.

(** The stars of the overview: for [i] from 0 to 4, filled when
    [i < Math.floor(averageRating)], and also when
    [i < Math.ceil(averageRating)]. *)
Definition starRow (averageRating : Q) : list bool :=
  map (fun i => if i <? Qfloor averageRating then true
                else if i <? Qceiling averageRating then true
                else false)
      [0; 1; 2; 3; 4].

(** The stars of one review: [i < review.rating] for [i] from 0 to 4. *)
Definition reviewStars (review : AppReview.t) : list bool :=
  map (fun i => i <? AppReview.rating review) [0; 1; 2; 3; 4].

(** The breakdown, for the stars 5 to 1: [ratingCounts[5 - star] || 0] and
    [reviews?.length ? Math.round((count / reviews.length) * 100) : 0]. *)
Definition breakdown (reviews : option (list AppReview.t)) : list (Z * Z) :=
  map (fun star =>
         let count := default 0 (Details.ratingCounts reviews !! Z.to_nat (5 - star)) in
         let percentage :=
           match reviews with
           | None | Some [] => 0
           | Some reviews =>
               mathRound (percent count (Z.of_nat (length reviews)))
           end in
         (count, percentage))
      [5; 4; 3; 2; 1].

End DetailsPage.

(** ** The marketplace page: the "All Apps" tab *)

Module MarketplacePage.

Inductive TabContent (App : Type) : Type :=
| Loading
| Grid (apps : list App)
| NoApps (hint : string).

Arguments Loading {App}.
Arguments Grid {App} apps.
Arguments NoApps {App} hint.

(** [isLoadingAll ? ... : filteredApps?.length > 0 ? grid : "No apps found"],
    with the hint [searchQuery ? "Try a different search term" : ...]. *)
Definition allTab {App : Type} (name description : App -> JSString)
    (isLoadingAll : bool) (allApps : option (list App)) (searchQuery : JSString)
    : TabContent App :=
  if isLoadingAll then Loading
  else
    match Marketplace.filteredApps name description allApps searchQuery with
    | Some (app :: apps) => Grid (app :: apps)
    | _ =>
        NoApps (match searchQuery with
                | [] => "Check back later for new apps"
                | _ => "Try a different search term"
                end)
    end.

End MarketplacePage.

(** ** The pricing plans page, client/OAuthAppPricingPlans.tsx *)

Module PricingPlan.
Record t : Type := mk {
  id : Z;
  appId : Z;
  name : string;
  price : JSFloat;
  billingInterval : string;
  features : list string;
  isPublic : bool
}.
End PricingPlan.

Module PricingPlans.

(** The form data, a [Partial<PricingPlan>]: [features] is the field the
    code reads as possibly undefined. *)
Record FormData : Type := mkForm {
  name : string;
  price : JSFloat;
  billingInterval : string;
  features : option (list string);
  isPublic : bool
}.

Record State : Type := mkState {
  showAddPlanDialog : bool;
  showEditPlanDialog : bool;
  showDeleteDialog : bool;
  selectedPlan : option PricingPlan.t;
  formData : FormData
}.

Definition emptyForm : FormData :=
  {| name := EmptyString;
     price := Finite 0;
     billingInterval := "monthly";
     features := Some [EmptyString];
     isPublic := true |}.

Definition initialState : State :=
  {| showAddPlanDialog := false;
     showEditPlanDialog := false;
     showDeleteDialog := false;
     selectedPlan := None;
     formData := emptyForm |}.

Definition setFormData (data : FormData) (st : State) : State :=
  {| showAddPlanDialog := showAddPlanDialog st;
     showEditPlanDialog := showEditPlanDialog st;
     showDeleteDialog := showDeleteDialog st;
     selectedPlan := selectedPlan st;
     formData := data |}.

Definition setSelectedPlan (plan : option PricingPlan.t) (st : State) : State :=
  {| showAddPlanDialog := showAddPlanDialog st;
     showEditPlanDialog := showEditPlanDialog st;
     showDeleteDialog := showDeleteDialog st;
     selectedPlan := plan;
     formData := formData st |}.

Definition setShowAddPlanDialog (open : bool) (st : State) : State :=
  {| showAddPlanDialog := open;
     showEditPlanDialog := showEditPlanDialog st;
     showDeleteDialog := showDeleteDialog st;
     selectedPlan := selectedPlan st;
     formData := formData st |}.

Definition setShowEditPlanDialog (open : bool) (st : State) : State :=
  {| showAddPlanDialog := showAddPlanDialog st;
     showEditPlanDialog := open;
     showDeleteDialog := showDeleteDialog st;
     selectedPlan := selectedPlan st;
     formData := formData st |}.

Definition setShowDeleteDialog (open : bool) (st : State) : State :=
  {| showAddPlanDialog := showAddPlanDialog st;
     showEditPlanDialog := showEditPlanDialog st;
     showDeleteDialog := open;
     selectedPlan := selectedPlan st;
     formData := formData st |}.

Definition withFeatures (fs : list string) (data : FormData) : FormData :=
  {| name := name data;
     price := price data;
     billingInterval := billingInterval data;
     features := Some fs;
     isPublic := isPublic data |}.

(** [formData.features || ['']] *)
Definition featuresOr (data : FormData) : list string :=
  match features data with
  | Some fs => fs
  | None => [EmptyString]
  end.

(** [handleInputChange], on the inputs named [name] and [price] (no input
    of the page has another name): the price is [parseFloat(value)], and 0
    when that is NaN. *)
Definition handleInputChange (field value : string) (st : State) : State :=
  let data := formData st in
  if String.eqb field "price" then
    let numValue := parseFloat value in
    setFormData
      {| name := name data;
         price := if isNaN numValue then Finite 0 else numValue;
         billingInterval := billingInterval data;
         features := features data;
         isPublic := isPublic data |} st
  else if String.eqb field "name" then
    setFormData
      {| name := value;
         price := price data;
         billingInterval := billingInterval data;
         features := features data;
         isPublic := isPublic data |} st
  else st.

(** [handleFeatureChange]: [updatedFeatures[index] = value] on a copy.  The
    index is the position of a rendered field, below the length of the
    list; above it the source would extend the array, which [<[_:=_]>] does
    not. *)
Definition handleFeatureChange (index : nat) (value : string) (st : State) : State :=
  setFormData (withFeatures (<[index := value]> (featuresOr (formData st))) (formData st)) st.

(** [addFeatureField] *)
Definition addFeatureField (st : State) : State :=
  setFormData (withFeatures (featuresOr (formData st) ++ [EmptyString]) (formData st)) st.

(** [removeFeatureField]: [updatedFeatures.splice(index, 1)] on a copy; a
    position past the end removes nothing. *)
Definition removeFeatureField (index : nat) (st : State) : State :=
  setFormData (withFeatures (delete index (featuresOr (formData st))) (formData st)) st.

(** [handleBillingIntervalChange] *)
Definition handleBillingIntervalChange (value : string) (st : State) : State :=
  let data := formData st in
  setFormData
    {| name := name data;
       price := price data;
       billingInterval := value;
       features := features data;
       isPublic := isPublic data |} st.

(** [handlePublicToggle] *)
Definition handlePublicToggle (checked : bool) (st : State) : State :=
  let data := formData st in
  setFormData
    {| name := name data;
       price := price data;
       billingInterval := billingInterval data;
       features := features data;
       isPublic := checked |} st.

(** [resetForm] *)
Definition resetForm (st : State) : State := setFormData emptyForm st.

(** [f.trim() !== ''] *)
Definition nonBlank (f : string) : bool := negb (String.eqb (trim f) EmptyString).

(** [cleanedData]: the form data with
    [features: formData.features?.filter(f => f.trim() !== '') || []]. *)
Definition cleanedData (data : FormData) : FormData :=
  withFeatures
    match features data with
    | Some fs => List.filter nonBlank fs
    | None => []
    end
    data.

Inductive Request : Type :=
| PutPlan (planId : Z) (data : FormData)
| PostPlan (data : FormData)
| DeletePlan (planId : Z).

(** [handleSubmit] *)
Definition handleSubmit (st : State) : Request :=
  match selectedPlan st with
  | Some plan => PutPlan (PricingPlan.id plan) (cleanedData (formData st))
  | None => PostPlan (cleanedData (formData st))
  end.

(** [handleEdit] *)
Definition handleEdit (plan : PricingPlan.t) (st : State) : State :=
  setShowEditPlanDialog true
    (setFormData
       {| name := PricingPlan.name plan;
          price := PricingPlan.price plan;
          billingInterval := PricingPlan.billingInterval plan;
          features := Some (PricingPlan.features plan);
          isPublic := PricingPlan.isPublic plan |}
       (setSelectedPlan (Some plan) st)).

(** [handleDelete] *)
Definition handleDelete (plan : PricingPlan.t) (st : State) : State :=
  setShowDeleteDialog true (setSelectedPlan (Some plan) st).

(** [confirmDelete] *)
Definition confirmDelete (st : State) : option Request :=
  match selectedPlan st with
  | Some plan => Some (DeletePlan (PricingPlan.id plan))
  | None => None
  end.

(** What the user and the mutations do to the page. *)
Inductive Event : Type :=
| InputChange (field value : string)
| FeatureChange (index : nat) (value : string)
| AddFeature
| RemoveFeature (index : nat)
| BillingIntervalChange (value : string)
| PublicToggle (checked : bool)
| Submit
| ClickEdit (plan : PricingPlan.t)
| ClickDelete (plan : PricingPlan.t)
| ConfirmDelete
| AddDialogOpenChange (open : bool)       (* the Add buttons, Cancel, [onOpenChange] *)
| EditDialogOpenChange (open : bool)      (* Cancel and [onOpenChange] *)
| DeleteDialogOpenChange (open : bool)    (* Cancel and [onOpenChange] *)
| CreateSuccess                           (* [createPlanMutation.onSuccess] *)
| UpdateSuccess                           (* [updatePlanMutation.onSuccess] *)
| DeleteSuccess.                          (* [deletePlanMutation.onSuccess] *)

Definition handle (event : Event) (st : State) : State :=
  match event with
  | InputChange field value => handleInputChange field value st
  | FeatureChange index value => handleFeatureChange index value st
  | AddFeature => addFeatureField st
  | RemoveFeature index => removeFeatureField index st
  | BillingIntervalChange value => handleBillingIntervalChange value st
  | PublicToggle checked => handlePublicToggle checked st
  | Submit => st
  | ClickEdit plan => handleEdit plan st
  | ClickDelete plan => handleDelete plan st
  | ConfirmDelete => st
  | AddDialogOpenChange open => setShowAddPlanDialog open st
  | EditDialogOpenChange open => setShowEditPlanDialog open st
  | DeleteDialogOpenChange open => setShowDeleteDialog open st
  | CreateSuccess => resetForm (setShowAddPlanDialog false st)
  | UpdateSuccess => setSelectedPlan None (setShowEditPlanDialog false st)
  | DeleteSuccess => setSelectedPlan None (setShowDeleteDialog false st)
  end.

Definition run (events : list Event) (st : State) : State :=
  fold_left (fun st event => handle event st) events st.



(** The form data that a request carries. *)
Definition carried (request : Request) : option FormData :=
  match request with
  | PutPlan _ data | PostPlan data => Some data
  | DeletePlan _ => None
  end.

(** The events that leave [selectedPlan] as it is: all but Edit, Delete and
    the success of an update or of a deletion. *)
Definition keepsSelection (event : Event) : bool :=
  match event with
  | ClickEdit _ | ClickDelete _ | UpdateSuccess | DeleteSuccess => false
  | _ => true
  end.




End PricingPlans.

(** ** The page of the user's applications *)

Module MyApps.

Record FormData : Type := mkForm {
  name : string;
  description : string;
  homepageUrl : string;
  callbackUrl : string;
  logoUrl : string
}.

Definition emptyForm : FormData :=
  {| name := EmptyString;
     description := EmptyString;
     homepageUrl := EmptyString;
     callbackUrl := EmptyString;
     logoUrl := EmptyString |}.

(** [handleInputChange]: [{...prev, [name]: value}], on the five inputs of
    the form. *)
Definition handleInputChange (field value : string) (data : FormData) : FormData :=
  if String.eqb field "name" then
    mkForm value (description data) (homepageUrl data) (callbackUrl data) (logoUrl data)
  else if String.eqb field "description" then
    mkForm (name data) value (homepageUrl data) (callbackUrl data) (logoUrl data)
  else if String.eqb field "homepageUrl" then
    mkForm (name data) (description data) value (callbackUrl data) (logoUrl data)
  else if String.eqb field "callbackUrl" then
    mkForm (name data) (description data) (homepageUrl data) value (logoUrl data)
  else if String.eqb field "logoUrl" then
    mkForm (name data) (description data) (homepageUrl data) (callbackUrl data) value
  else data.

(** [handleSubmit]: [createAppMutation.mutate(formData)] posts the form data
    as the JSON body of [POST /api/oauth-apps]; every field is there, empty
    or not. *)
Definition handleSubmit (data : FormData) : Routes.Body :=
  Routes.mkBody (Some (name data)) (Some (description data))
    (Some (homepageUrl data)) (Some (callbackUrl data)) (Some (logoUrl data)).

(** The request that reaches the server for a session. *)
Definition posted (isAuthenticated : bool) (user : option Z) (data : FormData)
    : Routes.Request :=
  {| Routes.isAuthenticated := isAuthenticated;
     Routes.user := user;
     Routes.body := handleSubmit data;
     Routes.queryLimit := None |}.

End MyApps.

(** ** Vocabulary of the pages' properties *)

(** A row of five stars of which the first [k] are filled. *)
Definition filled (k : Z) : list bool :=
  replicate (Z.to_nat k) true ++ replicate (5 - Z.to_nat k) false.

(** A number of stars, kept between 0 and 5. *)
Definition clamp (k : Z) : Z := Z.max 0 (Z.min 5 k).

(** How a string starts. *)
Definition startsWith (test : ascii -> bool) (s : string) : bool :=
  match s with
  | String c _ => test c
  | EmptyString => false
  end.

Definition isDecimalDigit (c : ascii) : bool := (48 <=? code c) && (code c <=? 57).

Definition isX (c : ascii) : bool := (code c =? 120) || (code c =? 88).

(** The values that the accumulator of [reviews.reduce((sum, review) => sum
    + review.rating, 0)] takes, one after each review, from [sum] on. *)
Fixpoint partialSums (sum : Z) (reviews : list AppReview.t) : list Z :=
  match reviews with
  | [] => []
  | review :: reviews =>
      (sum + AppReview.rating review) :: partialSums (sum + AppReview.rating review) reviews
  end.

(** The magnitudes of the ratings, added up. *)
Definition magnitude (reviews : list AppReview.t) : Z :=
  sumZ (map (fun review => Z.abs (AppReview.rating review)) reviews).

(** A rendering of the reviews page with two reviews, the first by the
    current user, and no [userReview]. *)
Definition sampleView : ReviewsPage.View :=
  ReviewsPage.mkView (Some [review 1 4; review 2 5]) None.

(** An app, as its name and description, whose name is a capital A and a
    capital sigma (U+03A3). *)
Definition sigmaApp : JSString * JSString := ([65; 931], []).

(** * Properties *)


(** ** Counting the ratings *)

Lemma withRating_cons k r rs :
  withRating k (r :: rs) = (if decide (AppReview.rating r = k) then 1 else 0) + withRating k rs.
Proof.
  unfold withRating. rewrite filter_cons.
  destruct (decide (AppReview.rating r = k)); simpl length; lia.
Qed.

Lemma withRating_nonneg k rs : 0 <= withRating k rs.
Proof. unfold withRating. lia. Qed.

Ltac slots_lia := repeat (apply (f_equal2 cons); [lia|]); reflexivity.

Lemma in_range_iff r : in_range r = true <-> 1 <= AppReview.rating r <= 5.
Proof. unfold in_range. rewrite andb_true_iff, Z.ltb_lt, Z.leb_le. lia. Qed.

(** The loop adds to each of the five slots the number of entries with the
    slot's rating, whatever the slots hold at the start. *)
Lemma fold_countRating rs : forall a b c d e,
  fold_left countRating rs [a; b; c; d; e] =
  [a + withRating 5 rs; b + withRating 4 rs; c + withRating 3 rs;
   d + withRating 2 rs; e + withRating 1 rs].
Proof.
  induction rs as [|r rs IH]; intros a b c d e.
  - unfold withRating. simpl. slots_lia.
  - simpl fold_left. rewrite !withRating_cons.
    unfold countRating.
    destruct (in_range r) eqn:Hr.
    + apply in_range_iff in Hr.
      assert (Hcase : AppReview.rating r = 1 \/ AppReview.rating r = 2 \/
                      AppReview.rating r = 3 \/ AppReview.rating r = 4 \/
                      AppReview.rating r = 5) by lia.
      destruct Hcase as [H|[H|[H|[H|H]]]]; rewrite H; simpl alter;
        rewrite IH; repeat case_decide; try lia; slots_lia.
    + assert (Hout : ~ (1 <= AppReview.rating r <= 5)).
      { intros Hin. apply in_range_iff in Hin. congruence. }
      rewrite IH; repeat case_decide; try lia; slots_lia.
Qed.

Lemma countRatings_spec rs :
  countRatings rs =
  [withRating 5 rs; withRating 4 rs; withRating 3 rs; withRating 2 rs; withRating 1 rs].
Proof. unfold countRatings. now rewrite fold_countRating. Qed.

Lemma ratingCounts_calculateReviewStats rs :
  Reviews.ratingCounts (Reviews.calculateReviewStats (Some rs)) = countRatings rs.
Proof. destruct rs; reflexivity. Qed.

Lemma totalReviews_calculateReviewStats rs :
  Reviews.totalReviews (Reviews.calculateReviewStats (Some rs)) = Z.of_nat (length rs).
Proof. destruct rs; reflexivity. Qed.

Lemma counted_cons r rs :
  counted (r :: rs) = if in_range r then r :: counted rs else counted rs.
Proof. reflexivity. Qed.

(** The five slots together hold the entries that pass the guard. *)
Lemma sum_countRatings rs : sumZ (countRatings rs) = Z.of_nat (length (counted rs)).
Proof.
  rewrite countRatings_spec. unfold sumZ, fold_right.
  induction rs as [|r rs IH]; [reflexivity|].
  rewrite !withRating_cons, counted_cons.
  destruct (in_range r) eqn:Hr.
  - apply in_range_iff in Hr. simpl length.
    repeat case_decide; lia.
  - assert (Hout : ~ (1 <= AppReview.rating r <= 5)).
    { intros Hin. apply in_range_iff in Hin. congruence. }
    repeat case_decide; lia.
Qed.

Lemma withRating_counted k rs :
  1 <= k <= 5 -> withRating k (counted rs) = withRating k rs.
Proof.
  intros Hk. induction rs as [|r rs IH]; [reflexivity|].
  rewrite counted_cons, withRating_cons.
  destruct (in_range r) eqn:Hr.
  - rewrite withRating_cons, IH. reflexivity.
  - assert (Hout : ~ (1 <= AppReview.rating r <= 5)).
    { intros Hin. apply in_range_iff in Hin. congruence. }
    rewrite IH. case_decide; lia.
Qed.

Lemma countRatings_counted rs : countRatings (counted rs) = countRatings rs.
Proof. rewrite !countRatings_spec, !withRating_counted by lia. reflexivity. Qed.

Lemma counted_all rs :
  Forall (fun r => 1 <= AppReview.rating r <= 5) rs -> counted rs = rs.
Proof.
  induction 1 as [|r rs Hr _ IH]; [reflexivity|].
  rewrite counted_cons. apply in_range_iff in Hr. rewrite Hr, IH. reflexivity.
Qed.

Lemma length_counted_skipped rs :
  (length (counted rs) + length (skipped rs) = length rs)%nat.
Proof.
  induction rs as [|r rs IH]; [reflexivity|].
  unfold counted, skipped in *. simpl.
  destruct (in_range r); simpl; lia.
Qed.

(** [reduce] from the left adds up the ratings. *)
Lemma sumRatings_spec rs : sumRatings rs = sumZ (map AppReview.rating rs).
Proof.
  assert (H : forall acc, fold_left (fun sum review => sum + AppReview.rating review) rs acc
                          = acc + sumZ (map AppReview.rating rs)).
  { induction rs as [|r rs IH]; intros acc; simpl.
    - lia.
    - rewrite IH. unfold sumZ. simpl. lia. }
  unfold sumRatings. rewrite H. lia.
Qed.

Lemma percent_sum (a b c d e n : Z) :
  n <> 0 -> a + b + c + d + e = n ->
  (inject_Z a / inject_Z n * 100 +
   (inject_Z b / inject_Z n * 100 +
    (inject_Z c / inject_Z n * 100 +
     (inject_Z d / inject_Z n * 100 +
      (inject_Z e / inject_Z n * 100 + 0)))) == 100)%Q.
Proof.
  intros Hn Hsum.
  assert (HN : ~ (inject_Z n == 0)%Q).
  { intros H. apply Hn. unfold Qeq in H. simpl in H. lia. }
  assert (Hs : (inject_Z a + inject_Z b + inject_Z c + inject_Z d + inject_Z e
                == inject_Z n)%Q).
  { rewrite <- !inject_Z_plus, Hsum. reflexivity. }
  transitivity ((inject_Z a + inject_Z b + inject_Z c + inject_Z d + inject_Z e)
                / inject_Z n * 100)%Q.
  - field. exact HN.
  - rewrite Hs. field. exact HN.
Qed.

(** ** The rating summary *)

Lemma in_range_false r : in_range r = false <-> ~ (1 <= AppReview.rating r <= 5).
Proof.
  rewrite <- in_range_iff. destruct (in_range r); split; congruence.
Qed.

Lemma length_countRatings rs : length (countRatings rs) = 5%nat.
Proof. rewrite countRatings_spec. reflexivity. Qed.

(** The details page and the reviews page compute the same average and the
    same histogram. *)
Lemma Details_agrees reviews :
  Details.averageRating reviews = Reviews.averageRating (Reviews.calculateReviewStats reviews) /\
  Details.ratingCounts reviews = Reviews.ratingCounts (Reviews.calculateReviewStats reviews).
Proof. destruct reviews as [[|r rs]|]; split; reflexivity. Qed.

(** The example of the spec: ratings 5 and 1 give the average 3, the
    histogram [1,0,0,0,1] and the percentages [50,0,0,0,50]. *)
Example calculateReviewStats_sample :
  (Reviews.averageRating (Reviews.calculateReviewStats (Some sampleReviews)) == 3)%Q /\
  Reviews.ratingCounts (Reviews.calculateReviewStats (Some sampleReviews)) = [1; 0; 0; 0; 1] /\
  Forall2 Qeq (Reviews.percentages (Reviews.calculateReviewStats (Some sampleReviews)))
              [50; 0; 0; 0; 50]%Q.
Proof.
  split; [reflexivity|]. split; [reflexivity|].
  repeat constructor.
Qed.

(** C6: summarizing an empty review list (or one that is not loaded) returns
    average 0, total 0, histogram [0,0,0,0,0] and percentages [0,0,0,0,0];
    the details page shows the same average and histogram. *)
Theorem calculateReviewStats_empty :
  Reviews.calculateReviewStats (Some []) =
    Reviews.mkStats 0 0 [0; 0; 0; 0; 0] [0; 0; 0; 0; 0]%Q /\
  Reviews.calculateReviewStats None =
    Reviews.mkStats 0 0 [0; 0; 0; 0; 0] [0; 0; 0; 0; 0]%Q /\
  Details.averageRating (Some []) = 0%Q /\
  Details.ratingCounts (Some []) = [0; 0; 0; 0; 0].
Proof. repeat split. Qed.



(** C1, as stated, fails: an entry with rating 6 is counted in the total
    (2, where one entry passes the guard), in the average (11/2, where the
    entry that passes has rating 5) and in the denominator of the
    percentages, so the summary is not that of the entries inside [1,5]. *)
Lemma calculateReviewStats_counts_out_of_range :
  counted corruptReviews = [review 2 5] /\
  Reviews.totalReviews (Reviews.calculateReviewStats (Some corruptReviews)) = 2 /\
  (Reviews.averageRating (Reviews.calculateReviewStats (Some corruptReviews)) == 11 # 2)%Q /\
  (sumQ (Reviews.percentages (Reviews.calculateReviewStats (Some corruptReviews))) == 50)%Q /\
  ~ excludesSkipped corruptReviews.
Proof.
  split; [reflexivity|]. split; [reflexivity|]. split; [reflexivity|].
  split; [reflexivity|].
  intros [Htotal _]. vm_compute in Htotal. discriminate.
Qed.

(** C1, amended: only the histogram leaves out the entries whose rating is
    outside [1,5]: it is the histogram of the entries inside, and its
    buckets sum to their number.  The total is the length of the whole
    list, so that the number of skipped entries, which the summary has no
    field for, is the total minus the sum of the histogram; the average is
    the mean of all the ratings and the percentages are taken over the
    total. *)
Theorem calculateReviewStats_skips (reviews : list AppReview.t) :
  let stats := Reviews.calculateReviewStats (Some reviews) in
  Reviews.ratingCounts stats =
    Reviews.ratingCounts (Reviews.calculateReviewStats (Some (counted reviews))) /\
  (forall i : nat, (i < 5)%nat ->
     Reviews.ratingCounts stats !! i = Some (withRating (5 - Z.of_nat i) (counted reviews))) /\
  sumZ (Reviews.ratingCounts stats) = Z.of_nat (length (counted reviews)) /\
  Reviews.totalReviews stats = Z.of_nat (length reviews) /\
  Reviews.totalReviews stats - sumZ (Reviews.ratingCounts stats)
    = Z.of_nat (length (skipped reviews)) /\
  (reviews <> [] ->
   Reviews.averageRating stats =
     (inject_Z (sumZ (map AppReview.rating reviews)) / inject_Z (Z.of_nat (length reviews)))%Q /\
   Reviews.percentages stats =
     map (fun count => (inject_Z count / inject_Z (Z.of_nat (length reviews)) * 100)%Q)
         (Reviews.ratingCounts stats)).
Proof.
  intros stats. subst stats.
  rewrite !ratingCounts_calculateReviewStats, totalReviews_calculateReviewStats.
  rewrite countRatings_counted, sum_countRatings.
  split; [reflexivity|]. split; [|split; [reflexivity|split; [reflexivity|split]]].
  - intros i Hi. rewrite countRatings_spec.
    destruct i as [|[|[|[|[|i]]]]]; try lia; simpl;
      rewrite withRating_counted by lia; reflexivity.
  - pose proof (length_counted_skipped reviews). lia.
  - intros Hne. destruct reviews as [|r rs]; [congruence|].
    unfold Reviews.calculateReviewStats, Reviews.averageRating, Reviews.percentages,
      Reviews.ratingCounts.
    rewrite sumRatings_spec. split; reflexivity.
Qed.

Lemma calculateReviewStats_skips_witness :
  corruptReviews <> [] /\
  Reviews.ratingCounts (Reviews.calculateReviewStats (Some corruptReviews)) = [1; 0; 0; 0; 0] /\
  Reviews.totalReviews (Reviews.calculateReviewStats (Some corruptReviews))
    - sumZ (Reviews.ratingCounts (Reviews.calculateReviewStats (Some corruptReviews))) = 1 /\
  Reviews.averageRating (Reviews.calculateReviewStats (Some corruptReviews))
    = (inject_Z 11 / inject_Z 2)%Q.
Proof.
  destruct (calculateReviewStats_skips corruptReviews) as (_ & _ & _ & _ & Hskip & Hrest).
  destruct Hrest as [Havg _]; [discriminate|].
  split; [discriminate|]. split; [reflexivity|]. split; [exact Hskip | exact Havg].
Defined.

(** ** The marketplace card *)

Lemma Qfloor_stars (random : Q) :
  (0 <= random)%Q -> (random < 1)%Q -> 1 <= Qfloor (random * 5) + 1 <= 5.
Proof.
  intros H0 H1.
  assert (Hlo : 0 <= Qfloor (random * 5)).
  { change 0 with (Qfloor 0). apply Qfloor_resp_le.
    apply Qmult_le_0_compat; [assumption | discriminate]. }
  assert (Hhi : Qfloor (random * 5) < 5).
  { rewrite Zlt_Qlt. apply Qle_lt_trans with (random * 5)%Q; [apply Qfloor_le|].
    change (inject_Z 5) with (1 * 5)%Q.
    apply Qmult_lt_compat_r; [reflexivity | assumption]. }
  lia.
Qed.

(** Every draw gives a figure from 1 to 5. *)
Lemma AppCard_stars_range (app : OAuthApp.t) (random1 random2 : Q) :
  (0 <= random1)%Q -> (random1 < 1)%Q ->
  1 <= Marketplace.stars (Marketplace.AppCard app random1 random2) <= 5.
Proof. intros H0 H1. simpl. apply Qfloor_stars; assumption. Qed.

(** C8, at a failing input: the star figure of a marketplace card is drawn
    from [Math.random()] and from nothing else.  For one and the same
    application, whatever its reviews are, the renderings with the draws 0,
    1/5, 2/5, 3/5 and 9/10 show 1, 2, 3, 4 and 5 stars, and the install
    figure moves with its draw in the same way. *)
Theorem AppCard_stars_random (app : OAuthApp.t) (random : Q) :
  Marketplace.stars (Marketplace.AppCard app 0 random) = 1 /\
  Marketplace.stars (Marketplace.AppCard app (1 # 5) random) = 2 /\
  Marketplace.stars (Marketplace.AppCard app (2 # 5) random) = 3 /\
  Marketplace.stars (Marketplace.AppCard app (3 # 5) random) = 4 /\
  Marketplace.stars (Marketplace.AppCard app (9 # 10) random) = 5 /\
  Marketplace.installs (Marketplace.AppCard app random 0) = 10 /\
  Marketplace.installs (Marketplace.AppCard app random (1 # 2)) = 510.
Proof. repeat split. Qed.

(** ** Marketplace search *)




Lemma append_String c a b : String c a +:+ b = String c (a +:+ b).
Proof. reflexivity. Qed.

Lemma append_empty b : EmptyString +:+ b = b.
Proof. reflexivity. Qed.

(** *** JS strings *)

Lemma trimEnd_nil s : JS.trimEnd s = [] <-> blank s = true.
Proof.
  induction s as [|u s IH]; simpl; [tauto|].
  destruct (JS.trimEnd s) as [|v rest] eqn:Hend.
  - destruct (JS.isWhiteSpace u); simpl.
    + rewrite <- IH. tauto.
    + split; discriminate.
  - split; [discriminate|]. intros H. apply andb_true_iff in H as [_ H].
    apply IH in H. discriminate.
Qed.

Lemma blank_trimStart s : blank (JS.trimStart s) = blank s.
Proof.
  induction s as [|u s IH]; [reflexivity|]. simpl.
  destruct (JS.isWhiteSpace u) eqn:Hu; simpl; [exact IH | rewrite Hu; reflexivity].
Qed.

Lemma trim_nil s : JS.trim s = [] <-> blank s = true.
Proof. unfold JS.trim. rewrite trimEnd_nil, blank_trimStart. reflexivity. Qed.

(** The string methods on text of code units below 256 are those on JS
    strings. *)
Lemma isWhiteSpace_code c : isWhiteSpace c = JS.isWhiteSpace (code c).
Proof. destruct c as [[] [] [] [] [] [] [] []]; vm_compute; reflexivity. Qed.

Lemma units_String c s : units (String c s) = code c :: units s.
Proof. reflexivity. Qed.

Lemma units_trimStart s : units (trimStart s) = JS.trimStart (units s).
Proof.
  induction s as [|c s IH]; [reflexivity|].
  rewrite units_String. simpl. rewrite <- isWhiteSpace_code.
  destruct (isWhiteSpace c); [exact IH | reflexivity].
Qed.

Lemma units_trimEnd s : units (trimEnd s) = JS.trimEnd (units s).
Proof.
  induction s as [|c s IH]; [reflexivity|].
  rewrite units_String. simpl. rewrite <- isWhiteSpace_code, <- IH.
  destruct (trimEnd s); [destruct (isWhiteSpace c)|]; reflexivity.
Qed.

Lemma units_trim s : units (trim s) = JS.trim (units s).
Proof. unfold trim, JS.trim. rewrite units_trimEnd, units_trimStart. reflexivity. Qed.

Lemma allWhiteSpace_units s : allWhiteSpace s = blank (units s).
Proof.
  induction s as [|c s IH]; [reflexivity|].
  rewrite units_String. simpl. rewrite <- isWhiteSpace_code, IH. reflexivity.
Qed.

Lemma startsWith_spec q : forall s,
  JS.startsWith s q = true <-> exists after, s = q ++ after.
Proof.
  induction q as [|a q IH]; intros s; simpl.
  - split; [exists s; reflexivity | reflexivity].
  - destruct s as [|b s].
    + split; [discriminate | intros (after & H); discriminate].
    + rewrite andb_true_iff, Z.eqb_eq, IH. split.
      * intros (-> & after & ->). exists after. reflexivity.
      * intros (after & [= -> ->]). split; [reflexivity|]. exists after. reflexivity.
Qed.

Lemma includes_occurs s q : JS.includes s q = true <-> occurs q s.
Proof.
  unfold occurs. induction s as [|u s IH].
  - simpl. rewrite orb_false_r, startsWith_spec. split.
    + intros (after & ->). exists [], after. reflexivity.
    + intros (before & after & H). symmetry in H.
      apply app_eq_nil in H as [-> H]. exists after. simpl. symmetry. exact H.
  - cbn [JS.includes]. rewrite orb_true_iff, startsWith_spec, IH. split.
    + intros [(after & ->)|(before & after & ->)].
      * exists [], after. reflexivity.
      * exists (u :: before), after. reflexivity.
    + intros (before & after & H). destruct before as [|u' before].
      * left. exists after. exact H.
      * right. injection H as -> ->. exists before, after. reflexivity.
Qed.

(** Lower case on ASCII text: unit by unit. *)
Lemma codePoints_ascii s : isAscii s -> JS.codePoints s = s.
Proof.
  unfold isAscii. induction 1 as [|u s Hu Hs IH]; [reflexivity|].
  destruct s as [|v s']; [reflexivity|].
  change (JS.codePoints (u :: v :: s'))
    with (if JS.isLeadingSurrogate u && JS.isTrailingSurrogate v
          then ((u - 55296) * 1024 + (v - 56320) + 65536) :: JS.codePoints s'
          else u :: JS.codePoints (v :: s')).
  replace (JS.isLeadingSurrogate u) with false.
  - simpl andb. cbv iota. rewrite IH. reflexivity.
  - unfold JS.isLeadingSurrogate. symmetry. apply andb_false_iff. left.
    apply Z.leb_gt. lia.
Qed.

Lemma lowerOf_ascii c : 0 <= c < 128 -> lowerOf c = [lowerAscii c].
Proof.
  intros Hc.
  assert (H : forallb (fun n => match lowerOf (Z.of_nat n) with
                                | [x] => x =? lowerAscii (Z.of_nat n)
                                | _ => false
                                end) (seq 0 128) = true) by (vm_compute; reflexivity).
  rewrite forallb_forall in H. specialize (H (Z.to_nat c)).
  rewrite Z2Nat.id in H by lia.
  destruct (lowerOf c) as [|x [|y l]].
  - discriminate H. apply in_seq. lia.
  - f_equal. apply Z.eqb_eq, H, in_seq. lia.
  - discriminate H. apply in_seq. lia.
Qed.

Lemma lowerPoints_ascii s : isAscii s -> forall before,
  JS.lowerPoints before s = map lowerAscii s.
Proof.
  unfold isAscii. induction 1 as [|c s Hc Hs IH]; intros before; [reflexivity|].
  cbn [JS.lowerPoints map].
  replace (c =? 931) with false by (symmetry; apply Z.eqb_neq; lia).
  simpl andb. cbv iota. rewrite lowerOf_ascii by exact Hc. rewrite IH. reflexivity.
Qed.

Lemma lowerAscii_ascii u : 0 <= u < 128 -> 0 <= lowerAscii u < 128.
Proof.
  intros Hu. unfold lowerAscii.
  destruct (65 <=? u) eqn:H1, (u <=? 90) eqn:H2; simpl; lia.
Qed.

Lemma toLowerCase_ascii s : isAscii s -> JS.toLowerCase s = map lowerAscii s.
Proof.
  intros Hs. unfold JS.toLowerCase.
  rewrite codePoints_ascii, lowerPoints_ascii by exact Hs.
  unfold isAscii in Hs. induction Hs as [|u s Hu Hs IH]; [reflexivity|].
  cbn [map flat_map]. rewrite IH. unfold JS.codeUnits.
  pose proof (lowerAscii_ascii u Hu).
  replace (lowerAscii u <? 65536) with true by (symmetry; apply Z.ltb_lt; lia).
  reflexivity.
Qed.

Lemma lowerAscii_sameLetter a b : lowerAscii a = lowerAscii b <-> sameLetter a b.
Proof.
  unfold lowerAscii, sameLetter.
  destruct (65 <=? a) eqn:A1, (a <=? 90) eqn:A2, (65 <=? b) eqn:B1, (b <=? 90) eqn:B2;
    simpl; rewrite ?Z.leb_le, ?Z.leb_gt in *; lia.
Qed.

Lemma map_lowerAscii part : forall q,
  map lowerAscii part = map lowerAscii q <-> Forall2 sameLetter part q.
Proof.
  induction part as [|a part IH]; intros [|b q]; simpl.
  - split; [constructor | reflexivity].
  - split; [discriminate | inversion 1].
  - split; [discriminate | inversion 1].
  - split.
    + intros [= Hab Hrest]. constructor; [apply lowerAscii_sameLetter, Hab | apply IH, Hrest].
    + inversion 1 as [|? ? ? ? Hab Hrest]; subst. f_equal.
      * apply lowerAscii_sameLetter, Hab.
      * apply IH, Hrest.
Qed.

Lemma isAscii_forallb s :
  forallb (fun u => (0 <=? u) && (u <? 128)) s = true -> isAscii s.
Proof.
  intros H. apply List.Forall_forall. intros u Hu.
  rewrite forallb_forall in H. specialize (H u Hu).
  apply andb_true_iff in H as [H1 H2]. apply Z.leb_le in H1. apply Z.ltb_lt in H2. lia.
Qed.

Lemma isAscii_app a b : isAscii (a ++ b) <-> isAscii a /\ isAscii b.
Proof. unfold isAscii. apply Forall_app. Qed.

Lemma includes_ignoring_case s q :
  isAscii s -> isAscii q ->
  JS.includes (JS.toLowerCase s) (JS.toLowerCase q) = true <-> containsIgnoringCase s q.
Proof.
  intros Hs Hq. rewrite !toLowerCase_ascii by assumption.
  rewrite includes_occurs. unfold occurs, containsIgnoringCase. split.
  - intros (before & after & H).
    apply map_eq_app in H as (s1 & rest & -> & <- & H).
    apply map_eq_app in H as (part & s3 & -> & H & <-).
    exists s1, part, s3. split; [reflexivity|]. apply map_lowerAscii. exact H.
  - intros (before & part & after & -> & H). apply map_lowerAscii in H.
    exists (map lowerAscii before), (map lowerAscii after).
    rewrite !map_app, H. reflexivity.
Qed.

Section SearchProofs.
Context {App : Type} (name description : App -> JSString).

Lemma matches_spec q app :
  isAscii q -> isAscii (name app) -> isAscii (description app) ->
  Marketplace.matches name description (JS.toLowerCase q) app = true <->
  containsIgnoringCase (name app) q \/ containsIgnoringCase (description app) q.
Proof.
  intros Hq Hn Hd. unfold Marketplace.matches.
  rewrite orb_true_iff, !includes_ignoring_case by assumption. tauto.
Qed.

Lemma filteredApps_blank (allApps : option (list App)) q :
  blank q = true -> Marketplace.filteredApps name description allApps q = allApps.
Proof.
  intros Hq. unfold Marketplace.filteredApps. apply trim_nil in Hq. rewrite Hq. reflexivity.
Qed.

Lemma filteredApps_filter (apps : list App) q :
  blank q = false ->
  Marketplace.filteredApps name description (Some apps) q
  = Some (List.filter (Marketplace.matches name description (JS.toLowerCase q)) apps).
Proof.
  intros Hq. unfold Marketplace.filteredApps.
  destruct (JS.trim q) as [|u t] eqn:Ht; [|reflexivity].
  apply trim_nil in Ht. congruence.
Qed.

End SearchProofs.

(** C10: on a loaded list, an empty or white-space-only query gives the list
    back as it is; any other query keeps, in order, exactly the apps whose
    name or description in lower case contains the query in lower case; for
    a query and an app whose name and description are ASCII text, these are
    exactly the apps whose name or description contains the query up to the
    case of the letters. *)
Theorem filteredApps_spec {App : Type} (name description : App -> JSString)
    (apps : list App) (searchQuery : JSString) :
  (blank searchQuery = true ->
   Marketplace.filteredApps name description (Some apps) searchQuery = Some apps) /\
  (blank searchQuery = false ->
   exists keep : App -> bool,
     Marketplace.filteredApps name description (Some apps) searchQuery
       = Some (List.filter keep apps) /\
     (forall app,
        keep app = true <->
        occurs (JS.toLowerCase searchQuery) (JS.toLowerCase (name app)) \/
        occurs (JS.toLowerCase searchQuery) (JS.toLowerCase (description app))) /\
     (isAscii searchQuery ->
      forall app, isAscii (name app) -> isAscii (description app) ->
        (keep app = true <->
         containsIgnoringCase (name app) searchQuery \/
         containsIgnoringCase (description app) searchQuery))).
Proof.
  split; intros Hq.
  - apply filteredApps_blank, Hq.
  - exists (Marketplace.matches name description (JS.toLowerCase searchQuery)).
    split; [apply filteredApps_filter, Hq|]. split.
    + intros app. unfold Marketplace.matches.
      rewrite orb_true_iff, !includes_occurs. reflexivity.
    + intros Hascii app Hn Hd. apply matches_spec; assumption.
Qed.


Ltac ascii_text := apply isAscii_forallb; vm_compute; reflexivity.

Lemma filteredApps_spec_witness :
  Marketplace.filteredApps nameOf descriptionOf (Some sampleApps) (units "  ")
    = Some sampleApps /\
  exists keep : OAuthApp.t -> bool,
    Marketplace.filteredApps nameOf descriptionOf (Some sampleApps) (units "mAiL")
      = Some (List.filter keep sampleApps) /\
    forall app, In app sampleApps ->
      (keep app = true <->
       containsIgnoringCase (nameOf app) (units "mAiL") \/
       containsIgnoringCase (descriptionOf app) (units "mAiL")).
Proof.
  split.
  - destruct (filteredApps_spec nameOf descriptionOf sampleApps (units "  ")) as [H _].
    apply H. reflexivity.
  - destruct (filteredApps_spec nameOf descriptionOf sampleApps (units "mAiL")) as [_ H].
    destruct (H eq_refl) as (keep & Hkeep & _ & Hascii).
    exists keep. split; [exact Hkeep|].
    intros app [<-|[<-|[]]]; apply Hascii; ascii_text.
Defined.

(** The claim as it is written fails on a final sigma: the name [A], capital
    sigma contains the query, a capital sigma, as it is, and the query is
    not blank, yet the search drops the app: alone the sigma becomes U+03C3,
    and after the A it becomes the final U+03C2. *)
Lemma filteredApps_final_sigma :
  blank [931] = false /\
  occurs [931] (fst sigmaApp) /\
  containsIgnoringCase (fst sigmaApp) [931] /\
  JS.toLowerCase [931] = [963] /\
  JS.toLowerCase (fst sigmaApp) = [97; 962] /\
  Marketplace.filteredApps fst snd (Some [sigmaApp]) [931] = Some [].
Proof.
  split; [reflexivity|]. split; [exists [65], []; reflexivity|].
  split; [exists [65], [931], []; split; [reflexivity | repeat constructor]|].
  repeat split; vm_compute; reflexivity.
Qed.

(** The search on the sample: ["mAiL"] keeps the second application; the
    query is not trimmed before the search, so a trailing space must occur
    in the name or the description too. *)
Example filteredApps_sample :
  Marketplace.filteredApps nameOf descriptionOf (Some sampleApps) (units "mAiL")
    = Some (drop 1 sampleApps) /\
  Marketplace.filteredApps nameOf descriptionOf (Some sampleApps) (units " mail")
    = Some (drop 1 sampleApps) /\
  Marketplace.filteredApps nameOf descriptionOf (Some sampleApps) (units "mail ")
    = Some [] /\
  Marketplace.filteredApps nameOf descriptionOf None (units "mail") = None.
Proof. repeat split; vm_compute; reflexivity. Qed.

(** Lower case beyond ASCII: the Latin-1 capitals, a final sigma and one
    that is not final, the capital I with a dot (U+0130, two code units in
    lower case) and a Deseret capital outside the basic plane. *)
Example toLowerCase_samples :
  JS.toLowerCase [201; 67; 79; 76; 69] = [233; 99; 111; 108; 101] /\
  JS.toLowerCase [927; 931; 32; 931; 927; 931] = [959; 962; 32; 963; 959; 962] /\
  JS.toLowerCase [65; 39; 931; 46] = [97; 39; 962; 46] /\
  JS.toLowerCase [304] = [105; 775] /\
  JS.toLowerCase [55297; 56320] = [55297; 56360].
Proof. repeat split; vm_compute; reflexivity. Qed.

(** ** The routes *)

Example parseInt_samples :
  Routes.parseInt "25" = Routes.Num 25 /\
  Routes.parseInt "  -7" = Routes.Num (-7) /\
  Routes.parseInt "+12.5" = Routes.Num 12 /\
  Routes.parseInt "42px" = Routes.Num 42 /\
  Routes.parseInt "0x1F" = Routes.Num 31 /\
  Routes.parseInt "0x" = Routes.NaN /\
  Routes.parseInt "abc" = Routes.NaN /\
  Routes.parseInt " " = Routes.NaN.
Proof. repeat split. Qed.

(** The top-rated handler makes one call to the store, with [limitOf], and
    answers 200 with the apps or 500 when the call fails. *)
Lemma topRated_run {S : Type} `{Routes.Storage S} (req : Routes.Request) (st : S) :
  Routes.run (Routes.topRated req) st =
  match Routes.getTopRatedOAuthApps (Routes.limitOf req) st with
  | Some apps => (Routes.mkResponse 200 (Routes.Apps apps), st)
  | None => (Routes.mkResponse 500 (Routes.Message "Failed to fetch top-rated apps"), st)
  end.
Proof.
  unfold Routes.topRated. simpl.
  destruct (Routes.getTopRatedOAuthApps (Routes.limitOf req) st); reflexivity.
Qed.

(** C9, as stated, fails: with [?limit=] the parameter is present and its
    integer parse is NaN, but the handler asks the store for 10 apps. *)
Lemma topRated_empty_limit :
  Routes.queryLimit (withLimit (Some EmptyString)) = Some EmptyString /\
  Routes.parseInt EmptyString = Routes.NaN /\
  (exists k, Routes.topRated (withLimit (Some EmptyString))
             = Routes.GetTopRatedOAuthApps (Routes.Num 10) k) /\
  Routes.limitOf (withLimit (Some EmptyString)) <> Routes.parseInt EmptyString.
Proof.
  split; [reflexivity|]. split; [reflexivity|].
  split; [eexists; reflexivity | discriminate].
Qed.

(** C9, amended: a request with no [limit] parameter, or with an empty one,
    makes the handler ask the store for exactly 10 apps; with a non-empty
    [limit] the handler passes [parseInt(limit)] to the store, which is NaN
    when the value does not start with a number. *)
Theorem topRated_limit (req : Routes.Request) :
  (exists k, Routes.topRated req = Routes.GetTopRatedOAuthApps (Routes.limitOf req) k) /\
  (Routes.queryLimit req = None -> Routes.limitOf req = Routes.Num 10) /\
  (Routes.queryLimit req = Some EmptyString -> Routes.limitOf req = Routes.Num 10) /\
  (forall limit, Routes.queryLimit req = Some limit -> limit <> EmptyString ->
     Routes.limitOf req = Routes.parseInt limit).
Proof.
  unfold Routes.limitOf. split; [eexists; reflexivity|].
  split; [intros ->; reflexivity|]. split; [intros ->; reflexivity|].
  intros limit -> Hne.
  destruct (String.eqb_spec limit EmptyString); [contradiction | reflexivity].
Qed.

Lemma topRated_limit_witness :
  Routes.limitOf (withLimit None) = Routes.Num 10 /\
  Routes.limitOf (withLimit (Some EmptyString)) = Routes.Num 10 /\
  Routes.limitOf (withLimit (Some "25")) = Routes.Num 25 /\
  Routes.limitOf (withLimit (Some "abc")) = Routes.NaN.
Proof.
  split; [|split; [|split]].
  - destruct (topRated_limit (withLimit None)) as (_ & H & _).
    apply H. reflexivity.
  - destruct (topRated_limit (withLimit (Some EmptyString))) as (_ & _ & H & _).
    apply H. reflexivity.
  - destruct (topRated_limit (withLimit (Some "25"))) as (_ & _ & _ & H).
    rewrite (H "25"); [reflexivity | reflexivity | discriminate].
  - destruct (topRated_limit (withLimit (Some "abc"))) as (_ & _ & _ & H).
    rewrite (H "abc"); [reflexivity | reflexivity | discriminate].
Defined.

Lemma falsy_false value : Routes.falsy value = false <-> exists s, value = Some s /\ s <> EmptyString.
Proof.
  destruct value as [s|]; simpl.
  - destruct (String.eqb_spec s EmptyString) as [->|Hs].
    + split; [discriminate | intros (s & [= <-] & H); contradiction].
    + split; [eauto | reflexivity].
  - split; [discriminate | intros (s & H & _); discriminate].
Qed.

(** The creation handler only looks at whether its four fields are there:
    whatever two non-empty strings come as URLs, they go to the store as
    they are, and the row the store returns is answered with 201. *)
Lemma createApp_forwards (userId : Z) (name description homepageUrl callbackUrl : string) :
  name <> EmptyString -> description <> EmptyString ->
  homepageUrl <> EmptyString -> callbackUrl <> EmptyString ->
  exists k,
    Routes.createApp (creation userId name description homepageUrl callbackUrl) =
      Routes.CreateOAuthApp
        (Routes.mkInsert userId name description homepageUrl callbackUrl None) k /\
    forall app, k (Some app) = Routes.Respond (Routes.mkResponse 201 (Routes.App app)).
Proof.
  intros Hn Hd Hh Hc.
  unfold Routes.createApp, Routes.requireAuth, creation. simpl.
  destruct (String.eqb_spec name EmptyString); [contradiction|].
  destruct (String.eqb_spec description EmptyString); [contradiction|].
  destruct (String.eqb_spec homepageUrl EmptyString); [contradiction|].
  destruct (String.eqb_spec callbackUrl EmptyString); [contradiction|].
  simpl. eexists. split; reflexivity.
Qed.

(** C7, at a failing input: a signed-in request whose [homepageUrl] is
    ["not a url"] and whose [callbackUrl] is ["javascript"] has no absolute
    URL in either field, yet the handler passes both to the store, and over
    a store that keeps what it is given the row is created and answered
    with 201. *)
Theorem createApp_accepts_non_url :
  let req := creation 7 "app" "an app" "not a url" "javascript" in
  let row := Routes.rowOf 1 (Routes.mkInsert 7 "app" "an app" "not a url" "javascript" None) in
  absoluteUrl "not a url" = false /\
  absoluteUrl "javascript" = false /\
  (exists k, Routes.createApp req =
     Routes.CreateOAuthApp
       (Routes.mkInsert 7 "app" "an app" "not a url" "javascript" None) k) /\
  Routes.run (Routes.createApp req) [] = (Routes.mkResponse 201 (Routes.App row), [row]) /\
  absoluteUrl (OAuthApp.homepageUrl row) = false /\
  absoluteUrl (OAuthApp.callbackUrl row) = false.
Proof.
  repeat split; try reflexivity. eexists. reflexivity.
Qed.

(** ** The review form *)

(** A user who has a review is offered the edit button only, and the form
    it opens sends a PUT for that review, not a second POST. *)
Lemma headerButton_edits review st :
  exists data,
    Reviews.handleSubmit (Reviews.headerButton (Some review) st)
      = Reviews.PutReview (AppReview.id review) data /\
    Reviews.rating data = AppReview.rating review.
Proof. eexists. split; reflexivity. Qed.

(** A null text enters the form as the empty string. *)
Lemma handleEdit_null_text review st :
  AppReview.reviewText review = None ->
  Reviews.reviewText (Reviews.formData (Reviews.handleEdit review st)) = EmptyString.
Proof. intros H. simpl. rewrite H. reflexivity. Qed.

(** The stars of the form only set ratings from 1 to 5. *)
Lemma handleRatingChange_in_range star st :
  In star Reviews.stars ->
  1 <= Reviews.rating (Reviews.formData (Reviews.handleRatingChange star st)) <= 5.
Proof. simpl. lia. Qed.

(** ** Review submission *)

Section ReviewSubmission.
Import RatingAggregator.

Lemma hasReviewed_true existing user :
  hasReviewed existing user = true <->
  exists review, In review existing /\ userId review = user.
Proof.
  unfold hasReviewed. rewrite existsb_exists.
  split; intros (review & Hin & H); exists review; split; auto;
    [apply Z.eqb_eq in H | apply Z.eqb_eq]; exact H.
Qed.

Lemma hasReviewed_false existing user :
  hasReviewed existing user = false <->
  forall review, In review existing -> userId review <> user.
Proof.
  split.
  - intros Hf review Hin Heq.
    assert (hasReviewed existing user = true) by (apply hasReviewed_true; eauto).
    congruence.
  - intros Hall. destruct (hasReviewed existing user) eqn:Hh; [|reflexivity].
    apply hasReviewed_true in Hh as (review & Hin & Heq).
    exfalso. eapply Hall; eauto.
Qed.

Lemma validRating_iff rating : validRating rating = true <-> 1 <= rating <= 5.
Proof. unfold validRating. rewrite andb_true_iff, !Z.leb_le. tauto. Qed.

(** What an accepted submission looks like. *)
Lemma validateSubmission_accepts existing candidate review :
  validateSubmission existing candidate = inr review ->
  hasReviewed existing (candUserId candidate) = false /\
  userId review = candUserId candidate /\
  rating review = candRating candidate /\
  1 <= rating review <= 5.
Proof.
  unfold validateSubmission.
  destruct (hasReviewed existing (candUserId candidate)); [discriminate|].
  destruct (validRating (candRating candidate)) eqn:Hr; simpl; [|discriminate].
  intros [= <-]. simpl. apply validRating_iff in Hr. auto.
Qed.

(** Posting keeps the users of the collection distinct. *)
Lemma postReview_NoDup existing candidate :
  NoDup (map userId existing) -> NoDup (map userId (postReview existing candidate)).
Proof.
  intros Hnd. unfold postReview.
  destruct (validateSubmission existing candidate) as [e|review] eqn:Hv; [assumption|].
  apply validateSubmission_accepts in Hv as (Hfresh & Huser & _).
  rewrite map_app. simpl. apply NoDup_app. split; [assumption|]. split.
  - intros user Hin Hin'. apply list_elem_of_In in Hin, Hin'.
    destruct Hin' as [<-|[]].
    apply in_map_iff in Hin as (other & Hother & Hin).
    eapply hasReviewed_false in Hfresh; [|exact Hin]. congruence.
  - apply NoDup_singleton.
Qed.

Lemma postReviews_NoDup candidates : forall existing,
  NoDup (map userId existing) -> NoDup (map userId (postReviews existing candidates)).
Proof.
  unfold postReviews.
  induction candidates as [|candidate candidates IH]; intros existing Hnd; simpl.
  - assumption.
  - apply IH, postReview_NoDup, Hnd.
Qed.

(** C3: a candidate whose user already has a review in the collection is
    rejected with DuplicateReviewError, whatever its rating and text, and the
    collection stays as it is; so a collection with one review per user keeps
    one review per user under any sequence of submissions. *)
Theorem validateSubmission_duplicate (existing : list Review) (candidate : Candidate) :
  ((exists review, In review existing /\ userId review = candUserId candidate) ->
   validateSubmission existing candidate = inl DuplicateReviewError /\
   postReview existing candidate = existing) /\
  (forall candidates,
     NoDup (map userId existing) ->
     NoDup (map userId (postReviews existing candidates))).
Proof.
  split.
  - intros Hdup. apply hasReviewed_true in Hdup.
    unfold postReview, validateSubmission. rewrite Hdup. split; reflexivity.
  - intros candidates. apply postReviews_NoDup.
Qed.

Lemma validateSubmission_duplicate_witness :
  (validateSubmission oneReview (mkCandidate 1 4 (Some "again")) = inl DuplicateReviewError /\
   validateSubmission oneReview (mkCandidate 1 0 None) = inl DuplicateReviewError) /\
  NoDup (map userId
           (postReviews oneReview [mkCandidate 2 3 None; mkCandidate 1 4 None; mkCandidate 2 5 None])).
Proof.
  split; [split|].
  - destruct (validateSubmission_duplicate oneReview (mkCandidate 1 4 (Some "again"))) as [H _].
    apply H. exists (mkReview 1 5 "fine"). split; [left; reflexivity | reflexivity].
  - destruct (validateSubmission_duplicate oneReview (mkCandidate 1 0 None)) as [H _].
    apply H. exists (mkReview 1 5 "fine"). split; [left; reflexivity | reflexivity].
  - destruct (validateSubmission_duplicate oneReview (mkCandidate 1 0 None)) as [_ H].
    apply H. simpl. apply NoDup_singleton.
Defined.

(** C4, as stated, fails for a user who has already reviewed: the invalid
    rating 0 is answered with DuplicateReviewError, not InvalidRatingError,
    and rating 3 with no text does not succeed. *)
Lemma validateSubmission_invalid_duplicate :
  validateSubmission oneReview (mkCandidate 1 0 None) = inl DuplicateReviewError /\
  validateSubmission oneReview (mkCandidate 1 0 None) <> inl InvalidRatingError /\
  validateSubmission oneReview (mkCandidate 1 3 None) = inl DuplicateReviewError /\
  validateSubmission oneReview (mkCandidate 1 3 None) <> inr (mkReview 1 3 EmptyString).
Proof.
  split; [reflexivity|]. split; [discriminate|]. split; [reflexivity | discriminate].
Qed.

(** C4, amended: for a candidate whose user has no review in the collection
    yet, a rating outside [1,5] (such as 0 or 6) fails with
    InvalidRatingError, and a rating inside succeeds with the same user and
    rating and with the text as given, a null or absent text becoming the
    empty string (so rating 3 with no text is accepted with an empty text). *)
Theorem validateSubmission_fresh (existing : list Review) (candidate : Candidate) :
  (forall review, In review existing -> userId review <> candUserId candidate) ->
  (~ (1 <= candRating candidate <= 5) ->
   validateSubmission existing candidate = inl InvalidRatingError) /\
  (1 <= candRating candidate <= 5 ->
   forall given, candText candidate = Some given ->
   validateSubmission existing candidate =
     inr (mkReview (candUserId candidate) (candRating candidate) given)) /\
  (1 <= candRating candidate <= 5 ->
   candText candidate = None ->
   validateSubmission existing candidate =
     inr (mkReview (candUserId candidate) (candRating candidate) EmptyString)).
Proof.
  intros Hfresh. apply hasReviewed_false in Hfresh.
  unfold validateSubmission. rewrite Hfresh.
  split; [|split].
  - intros Hr. destruct (validRating (candRating candidate)) eqn:Hv; [|reflexivity].
    apply validRating_iff in Hv. contradiction.
  - intros Hr given Ht. apply validRating_iff in Hr. rewrite Hr, Ht. reflexivity.
  - intros Hr Ht. apply validRating_iff in Hr. rewrite Hr, Ht. reflexivity.
Qed.

Lemma validateSubmission_fresh_witness :
  validateSubmission oneReview (mkCandidate 2 0 None) = inl InvalidRatingError /\
  validateSubmission oneReview (mkCandidate 2 6 (Some "six")) = inl InvalidRatingError /\
  validateSubmission oneReview (mkCandidate 2 3 None) = inr (mkReview 2 3 EmptyString) /\
  validateSubmission oneReview (mkCandidate 2 4 (Some "good")) = inr (mkReview 2 4 "good").
Proof.
  assert (Hfresh : forall text stars review,
            In review oneReview -> userId review <> candUserId (mkCandidate 2 stars text)).
  { intros text stars review [<-|[]]. simpl. lia. }
  split; [|split; [|split]].
  - destruct (validateSubmission_fresh oneReview (mkCandidate 2 0 None) (Hfresh None 0))
      as (H & _).
    apply H. simpl. lia.
  - destruct (validateSubmission_fresh oneReview (mkCandidate 2 6 (Some "six")) (Hfresh _ 6))
      as (H & _).
    apply H. simpl. lia.
  - destruct (validateSubmission_fresh oneReview (mkCandidate 2 3 None) (Hfresh None 3))
      as (_ & _ & H).
    apply H; [simpl; lia | reflexivity].
  - destruct (validateSubmission_fresh oneReview (mkCandidate 2 4 (Some "good")) (Hfresh _ 4))
      as (_ & H & _).
    apply H; [simpl; lia | reflexivity].
Defined.

End ReviewSubmission.

(** ** Credentials *)

Section Credentials.
Import CredentialIssuer.

(** An issued client id is not one of the existing ones. *)
Lemma attempts_fresh remaining : forall n entropy existing issued,
  attempts remaining n entropy existing = inr issued ->
  clientId issued ∉ existing.
Proof.
  induction remaining as [|remaining IH]; intros n entropy existing issued; simpl.
  - discriminate.
  - destruct (drawClientId entropy n) as [id|]; [|discriminate].
    destruct (decide (id ∈ existing)) as [Hin|Hout].
    + apply IH.
    + destruct (drawClientSecret entropy); [|discriminate].
      intros [= <-]. exact Hout.
Qed.

(** The attempts stop at the first draw that is free, within the bound. *)
Lemma attempts_first_free remaining : forall n entropy existing id secret,
  drawClientId entropy n = Some id ->
  id ∉ existing ->
  drawClientSecret entropy = Some secret ->
  attempts (S remaining) n entropy existing = inr (mkPair id secret).
Proof.
  intros n entropy existing id secret Hid Hfree Hsecret. simpl.
  rewrite Hid. destruct (decide (id ∈ existing)); [contradiction|].
  rewrite Hsecret. reflexivity.
Qed.

(** Five collisions in a row exhaust the retries. *)
Lemma issue_exhausted entropy existing :
  (forall n, (n < maxAttempts)%nat ->
     exists id, drawClientId entropy n = Some id /\ id ∈ existing) ->
  issue entropy existing = inl ExhaustedRetriesError.
Proof.
  intros Hall. unfold issue.
  assert (H : forall remaining n, (n + remaining = maxAttempts)%nat ->
              attempts remaining n entropy existing = inl ExhaustedRetriesError).
  { induction remaining as [|remaining IH]; intros n Hn; simpl; [reflexivity|].
    destruct (Hall n) as (id & -> & Hin); [lia|].
    destruct (decide (id ∈ existing)); [|contradiction].
    apply IH. lia. }
  apply H. reflexivity.
Qed.

Lemma elem_of_clientIds id (store : gmap Z OAuthApp.t) :
  id ∈ clientIds store <->
  exists applicationId app,
    store !! applicationId = Some app /\ OAuthApp.clientId app = Some id.
Proof.
  unfold clientIds. rewrite elem_of_list_to_set, list_elem_of_omap. split.
  - intros ([applicationId app] & Hin & Hid).
    apply elem_of_map_to_list in Hin. eauto.
  - intros (applicationId & app & Hlook & Hid).
    exists (applicationId, app). split; [|exact Hid].
    apply elem_of_map_to_list. exact Hlook.
Qed.

Lemma credentials_replace issued app : credentials (replace issued app) = Some issued.
Proof. destruct issued. reflexivity. Qed.

Lemma credentials_clientId app held :
  credentials app = Some held -> OAuthApp.clientId app = Some (clientId held).
Proof.
  unfold credentials.
  destruct (OAuthApp.clientId app), (OAuthApp.clientSecret app); try discriminate.
  intros [= <-]. reflexivity.
Qed.

(** In one state an application has at most one valid pair. *)
Lemma valid_functional (store : gmap Z OAuthApp.t) applicationId p q :
  valid store applicationId p -> valid store applicationId q -> p = q.
Proof. intros (a & Ha & Hp) (b & Hb & Hq). congruence. Qed.

(** A regeneration keeps the client ids unique across the store. *)
Lemma postCredentials_unique applicationId entropy (store : gmap Z OAuthApp.t) :
  uniqueClientIds store ->
  uniqueClientIds (postCredentials applicationId entropy store).2.
Proof.
  intros Huniq. unfold postCredentials.
  destruct (store !! applicationId) as [app|] eqn:Hlook; [|exact Huniq].
  destruct (regenerate applicationId entropy (clientIds store)) as [e|issued] eqn:Hgen;
    [exact Huniq|].
  apply attempts_fresh in Hgen. simpl.
  intros i j a b id Hi Hj Ha Hb.
  destruct (decide (i = applicationId)) as [->|Hne_i];
    destruct (decide (j = applicationId)) as [->|Hne_j]; [reflexivity| | |].
  - rewrite lookup_insert_eq in Hi. rewrite lookup_insert_ne in Hj by congruence.
    injection Hi as <-. simpl in Ha. injection Ha as <-.
    exfalso. apply Hgen. apply elem_of_clientIds. eauto.
  - rewrite lookup_insert_eq in Hj. rewrite lookup_insert_ne in Hi by congruence.
    injection Hj as <-. simpl in Hb. injection Hb as <-.
    exfalso. apply Hgen. apply elem_of_clientIds. eauto.
  - rewrite lookup_insert_ne in Hi, Hj by congruence. eauto.
Qed.

(** Uniqueness holds in every state of a run that starts with it. *)
Lemma states_unique requests : forall store : gmap Z OAuthApp.t,
  uniqueClientIds store ->
  Forall uniqueClientIds (states store requests).
Proof.
  induction requests as [|[applicationId entropy] requests IH]; intros store Huniq; simpl.
  - repeat constructor. exact Huniq.
  - constructor; [exact Huniq|]. apply IH, postCredentials_unique, Huniq.
Qed.

(** C5: a regeneration that issues a pair for an application holding a pair
    returns a different pair, with a client id that no application uses;
    the store goes in one step from a state where only the old pair is
    valid for the application to a state where only the new pair is, so
    that in no state of the run both are valid. *)
Theorem regenerate_replaces (store store' : gmap Z OAuthApp.t) (applicationId : Z)
    (app : OAuthApp.t) (old new : CredentialPair) (entropy : Entropy) :
  store !! applicationId = Some app ->
  credentials app = Some old ->
  postCredentials applicationId entropy store = (Issued new, store') ->
  new <> old /\
  (clientId new ∉ clientIds store) /\
  (valid store applicationId old /\ ~ valid store applicationId new) /\
  (valid store' applicationId new /\ ~ valid store' applicationId old) /\
  states store [(applicationId, entropy)] = [store; store'] /\
  (forall s, In s (states store [(applicationId, entropy)]) ->
     ~ (valid s applicationId old /\ valid s applicationId new)).
Proof.
  intros Hlook Hold Hpost.
  assert (Hstates : states store [(applicationId, entropy)] = [store; store']).
  { simpl. rewrite Hpost. reflexivity. }
  unfold postCredentials in Hpost. rewrite Hlook in Hpost.
  destruct (regenerate applicationId entropy (clientIds store)) as [e|issued] eqn:Hgen;
    [discriminate|].
  injection Hpost as -> <-.
  assert (Hfresh : clientId new ∉ clientIds store).
  { eapply attempts_fresh. exact Hgen. }
  assert (Hused : clientId old ∈ clientIds store).
  { apply elem_of_clientIds. exists applicationId, app.
    split; [exact Hlook | apply credentials_clientId, Hold]. }
  assert (Hne : new <> old) by (intros ->; contradiction).
  assert (Hbefore : valid store applicationId old) by (exists app; auto).
  assert (Hafter : valid (<[applicationId := replace new app]> store) applicationId new).
  { exists (replace new app). split; [apply lookup_insert_eq | apply credentials_replace]. }
  split; [exact Hne|]. split; [exact Hfresh|].
  split; [split; [exact Hbefore|]|].
  { intros Hnew. apply Hne. eapply valid_functional; eauto. }
  split; [split; [exact Hafter|]|].
  { intros Hold'. apply Hne. eapply valid_functional; eauto. }
  split; [exact Hstates|].
  intros s Hs [Ho Hn]. apply Hne. eapply valid_functional; eauto.
Qed.

Lemma regenerate_replaces_witness :
  mkPair "id-3" "secret-3" <> mkPair "id-1" "secret-1" /\
  valid (postCredentials 1 sampleEntropy sampleStore).2 1 (mkPair "id-3" "secret-3") /\
  ~ valid (postCredentials 1 sampleEntropy sampleStore).2 1 (mkPair "id-1" "secret-1").
Proof.
  destruct (regenerate_replaces sampleStore (postCredentials 1 sampleEntropy sampleStore).2
              1 (appWith 1 "id-1" "secret-1")
              (mkPair "id-1" "secret-1") (mkPair "id-3" "secret-3") sampleEntropy)
    as (Hne & _ & _ & [Hnew Hold] & _).
  - reflexivity.
  - reflexivity.
  - vm_compute. reflexivity.
  - auto.
Defined.

End Credentials.

(** * More of the pages *)

(** ** The summary under reordering and growth *)

Lemma withRating_Permutation k (l l' : list AppReview.t) :
  Permutation l l' -> withRating k l = withRating k l'.
Proof.
  intros H. unfold withRating. f_equal.
  apply Permutation_length. rewrite H. reflexivity.
Qed.

Lemma sumZ_Permutation (l l' : list Z) : Permutation l l' -> sumZ l = sumZ l'.
Proof.
  unfold sumZ. induction 1; simpl; lia.
Qed.

Lemma sumRatings_Permutation (l l' : list AppReview.t) :
  Permutation l l' -> sumRatings l = sumRatings l'.
Proof.
  intros H. rewrite !sumRatings_spec. apply sumZ_Permutation.
  apply Permutation_map. exact H.
Qed.

Lemma countRatings_Permutation (l l' : list AppReview.t) :
  Permutation l l' -> countRatings l = countRatings l'.
Proof.
  intros H. rewrite !countRatings_spec.
  rewrite !(withRating_Permutation _ l l' H). reflexivity.
Qed.

Lemma magnitude_cons (r : AppReview.t) (rs : list AppReview.t) :
  magnitude (r :: rs) = Z.abs (AppReview.rating r) + magnitude rs.
Proof. reflexivity. Qed.

Lemma magnitude_nonneg (rs : list AppReview.t) : 0 <= magnitude rs.
Proof.
  induction rs as [|r rs IH]; [reflexivity|]. rewrite magnitude_cons. lia.
Qed.

Lemma partialSums_bounds (reviews : list AppReview.t) : forall sum,
  Forall (fun s => Z.abs s <= Z.abs sum + magnitude reviews) (partialSums sum reviews).
Proof.
  induction reviews as [|r rs IH]; intros sum; [constructor|].
  rewrite magnitude_cons. pose proof (magnitude_nonneg rs).
  cbn [partialSums]. constructor; [lia|].
  eapply Forall_impl; [apply IH|]. simpl. intros s Hs. lia.
Qed.

(** The last of these values is the sum that [reduce] returns. *)
Lemma partialSums_last (reviews : list AppReview.t) (r : AppReview.t) :
  last (partialSums 0 (r :: reviews)) = Some (sumRatings (r :: reviews)).
Proof.
  unfold sumRatings. generalize 0. revert r.
  induction reviews as [|r' rs IH]; intros r sum; [reflexivity|].
  change (partialSums sum (r :: r' :: rs))
    with ((sum + AppReview.rating r) :: partialSums (sum + AppReview.rating r) (r' :: rs)).
  rewrite last_cons, IH. reflexivity.
Qed.

Lemma magnitude_Permutation (l l' : list AppReview.t) :
  Permutation l l' -> magnitude l = magnitude l'.
Proof.
  intros H. unfold magnitude. apply sumZ_Permutation, Permutation_map, H.
Qed.

(** The order in which the reviews arrive does not matter, as long as the
    magnitudes of the ratings add up to at most 2^53: then every sum that
    [reduce] passes through, in either order, is an integer of magnitude at
    most 2^53 (one that a double holds exactly), and a permutation of the
    list has the same summary, on the reviews page and on the details
    page. *)
Theorem calculateReviewStats_Permutation (reviews reviews' : list AppReview.t) :
  Permutation reviews reviews' ->
  magnitude reviews <= 2 ^ 53 ->
  Forall (fun sum => Z.abs sum <= 2 ^ 53) (partialSums 0 reviews ++ partialSums 0 reviews') /\
  Reviews.calculateReviewStats (Some reviews) = Reviews.calculateReviewStats (Some reviews') /\
  Details.averageRating (Some reviews) = Details.averageRating (Some reviews') /\
  Details.ratingCounts (Some reviews) = Details.ratingCounts (Some reviews').
Proof.
  intros H Hbound.
  pose proof (Permutation_length H) as Hlen.
  pose proof (sumRatings_Permutation _ _ H) as Hsum.
  pose proof (countRatings_Permutation _ _ H) as Hcount.
  pose proof (magnitude_Permutation _ _ H) as Hmag.
  split.
  { apply Forall_app. split.
    - eapply Forall_impl; [apply (partialSums_bounds reviews 0)|]. simpl. lia.
    - eapply Forall_impl; [apply (partialSums_bounds reviews' 0)|]. simpl. lia. }
  destruct reviews as [|r rs], reviews' as [|r' rs']; try discriminate.
  - repeat split.
  - unfold Reviews.calculateReviewStats, Details.averageRating, Details.ratingCounts.
    rewrite Hlen, Hsum, Hcount. repeat split.
Qed.

Lemma calculateReviewStats_Permutation_witness :
  Reviews.calculateReviewStats (Some [review 1 5; review 2 1; review 3 4]) =
  Reviews.calculateReviewStats (Some [review 3 4; review 1 5; review 2 1]).
Proof.
  apply (calculateReviewStats_Permutation
           [review 1 5; review 2 1; review 3 4] [review 3 4; review 1 5; review 2 1]).
  - symmetry. apply (Permutation_cons_append [review 1 5; review 2 1] (review 3 4)).
  - vm_compute. discriminate.
Defined.

Lemma withRating_le_length k rs : withRating k rs <= Z.of_nat (length rs).
Proof.
  unfold withRating. pose proof (length_filter (fun r => AppReview.rating r = k) rs). lia.
Qed.

Lemma Qpercent_bounds (count total : Z) :
  0 <= count <= total -> 0 < total ->
  (0 <= inject_Z count / inject_Z total * 100 /\
   inject_Z count / inject_Z total * 100 <= 100)%Q.
Proof.
  intros [Hc0 Hc1] Ht.
  rewrite Zlt_Qlt in Ht. rewrite Zle_Qle in Hc0, Hc1.
  change (inject_Z 0) with 0%Q in *.
  assert (H0 : (0 <= inject_Z count / inject_Z total)%Q).
  { apply Qle_shift_div_l; [exact Ht|]. rewrite Qmult_0_l. exact Hc0. }
  assert (H1 : (inject_Z count / inject_Z total <= 1)%Q).
  { apply Qle_shift_div_r; [exact Ht|]. rewrite Qmult_1_l. exact Hc1. }
  split.
  - apply Qmult_le_0_compat; [exact H0 | discriminate].
  - apply Qle_trans with (1 * 100)%Q; [|discriminate].
    apply Qmult_le_compat_r; [exact H1 | discriminate].
Qed.

(** Whatever the ratings are, every bucket of the histogram lies between 0
    and the total, and every percentage between 0 and 100. *)
Theorem calculateReviewStats_bounds (reviews : option (list AppReview.t)) (i : nat) :
  (forall count, Reviews.ratingCounts (Reviews.calculateReviewStats reviews) !! i = Some count ->
     0 <= count <= Reviews.totalReviews (Reviews.calculateReviewStats reviews)) /\
  (forall percentage,
     Reviews.percentages (Reviews.calculateReviewStats reviews) !! i = Some percentage ->
     (0 <= percentage /\ percentage <= 100)%Q).
Proof.
  destruct reviews as [[|r rs]|].
  - split; intros x Hx; destruct i as [|[|[|[|[|i]]]]]; simpl in Hx;
      try discriminate; injection Hx as <-; split; (lia || discriminate).
  - set (reviews := r :: rs).
    assert (Hn : 0 < Z.of_nat (length reviews)) by (simpl; lia).
    unfold Reviews.calculateReviewStats. fold reviews.
    cbn [Reviews.ratingCounts Reviews.percentages Reviews.totalReviews].
    rewrite countRatings_spec.
    split; intros x Hx; destruct i as [|[|[|[|[|i]]]]]; simpl in Hx;
      try discriminate; injection Hx as <-.
    all: try (split; [apply withRating_nonneg | apply withRating_le_length]).
    all: apply Qpercent_bounds;
      [split; [apply withRating_nonneg | apply withRating_le_length] | exact Hn].
  - split; intros x Hx; destruct i as [|[|[|[|[|i]]]]]; simpl in Hx;
      try discriminate; injection Hx as <-; split; (lia || discriminate).
Qed.

Lemma calculateReviewStats_bounds_witness :
  (0 <= inject_Z 1 / inject_Z 2 * 100 /\ inject_Z 1 / inject_Z 2 * 100 <= 100)%Q.
Proof.
  apply (calculateReviewStats_bounds (Some corruptReviews) 0).
  reflexivity.
Defined.

Lemma sumZ_bounds (lo hi : Z) (l : list Z) :
  Forall (fun x => lo <= x <= hi) l ->
  Z.of_nat (length l) * lo <= sumZ l <= Z.of_nat (length l) * hi.
Proof.
  unfold sumZ. induction 1 as [|x l Hx _ IH]; simpl fold_right; simpl length; lia.
Qed.

Lemma Qdiv_bounds (lo hi sum total : Z) :
  0 < total -> total * lo <= sum <= total * hi ->
  (inject_Z lo <= inject_Z sum / inject_Z total /\
   inject_Z sum / inject_Z total <= inject_Z hi)%Q.
Proof.
  intros Ht [Hlo Hhi].
  rewrite Zlt_Qlt in Ht. change (inject_Z 0) with 0%Q in Ht.
  split.
  - apply Qle_shift_div_l; [exact Ht|].
    rewrite <- inject_Z_mult, <- Zle_Qle. lia.
  - apply Qle_shift_div_r; [exact Ht|].
    rewrite <- inject_Z_mult, <- Zle_Qle. lia.
Qed.

Lemma quotient_between (lo hi : Z) (reviews : list AppReview.t) :
  reviews <> [] ->
  Forall (fun r => lo <= AppReview.rating r <= hi) reviews ->
  (inject_Z lo <= inject_Z (sumRatings reviews) / inject_Z (Z.of_nat (length reviews)) /\
   inject_Z (sumRatings reviews) / inject_Z (Z.of_nat (length reviews)) <= inject_Z hi)%Q.
Proof.
  intros Hne Hall. apply Qdiv_bounds.
  - destruct reviews; [congruence | simpl; lia].
  - rewrite sumRatings_spec.
    pose proof (sumZ_bounds lo hi (map AppReview.rating reviews)) as H.
    rewrite length_map in H. apply H.
    apply Forall_map. exact Hall.
Qed.



Lemma countRatings_snoc rs r : countRatings (rs ++ [r]) = countRating (countRatings rs) r.
Proof. unfold countRatings. rewrite fold_left_app. reflexivity. Qed.

Lemma sumRatings_snoc rs r : sumRatings (rs ++ [r]) = sumRatings rs + AppReview.rating r.
Proof. unfold sumRatings. rewrite fold_left_app. reflexivity. Qed.

(** One more review: the total grows by one; when its rating [k] is from 1
    to 5, bucket [5 - k] grows by one and the other buckets stay, otherwise
    the histogram stays as it is; and the average becomes
    [(average * total + k) / (total + 1)]. *)
Theorem calculateReviewStats_snoc (reviews : list AppReview.t) (r : AppReview.t) :
  let before := Reviews.calculateReviewStats (Some reviews) in
  let after := Reviews.calculateReviewStats (Some (reviews ++ [r])) in
  Reviews.totalReviews after = Reviews.totalReviews before + 1 /\
  (1 <= AppReview.rating r <= 5 ->
   forall i count, Reviews.ratingCounts before !! i = Some count ->
     Reviews.ratingCounts after !! i =
       Some (if decide (Z.of_nat i = 5 - AppReview.rating r) then count + 1 else count)) /\
  (~ (1 <= AppReview.rating r <= 5) ->
   Reviews.ratingCounts after = Reviews.ratingCounts before) /\
  (Reviews.averageRating after ==
     (Reviews.averageRating before * inject_Z (Reviews.totalReviews before)
      + inject_Z (AppReview.rating r)) / inject_Z (Reviews.totalReviews before + 1))%Q.
Proof.
  intros before after. subst before after.
  rewrite !ratingCounts_calculateReviewStats, !totalReviews_calculateReviewStats.
  rewrite countRatings_snoc, length_app. simpl length.
  split; [lia|]. split; [|split].
  - intros Hk i count Hi. unfold countRating.
    apply in_range_iff in Hk as Hg. rewrite Hg.
    rewrite list_lookup_alter. case_decide as Hd.
    + rewrite decide_True by lia. rewrite Hd, Hi. reflexivity.
    + rewrite decide_False by lia. exact Hi.
  - intros Hk. unfold countRating.
    apply in_range_false in Hk. rewrite Hk. reflexivity.
  - assert (Hafter : Reviews.averageRating (Reviews.calculateReviewStats (Some (reviews ++ [r])))
                     = (inject_Z (sumRatings (reviews ++ [r]))
                        / inject_Z (Z.of_nat (length (reviews ++ [r]))))%Q).
    { destruct reviews; reflexivity. }
    rewrite Hafter, sumRatings_snoc, length_app. simpl length.
    replace (Z.of_nat (length reviews + 1)) with (Z.of_nat (length reviews) + 1) by lia.
    destruct reviews as [|r0 rs].
    + unfold sumRatings. simpl.
      rewrite Qmult_0_l, Qplus_0_l. reflexivity.
    + set (n := Z.of_nat (length (r0 :: rs))).
      assert (Hn : ~ (inject_Z n == 0)%Q).
      { unfold n. intros H. unfold Qeq in H. simpl in H. lia. }
      assert (Hn1 : ~ (inject_Z n + inject_Z 1 == 0)%Q).
      { rewrite <- inject_Z_plus. intros H. unfold Qeq in H. simpl in H. lia. }
      unfold Reviews.calculateReviewStats, Reviews.averageRating. fold n.
      rewrite !inject_Z_plus.
      field. split; assumption.
Qed.

Lemma calculateReviewStats_snoc_witness :
  Reviews.ratingCounts (Reviews.calculateReviewStats (Some (sampleReviews ++ [review 3 4])))
    !! 1%nat = Some 1.
Proof.
  destruct (calculateReviewStats_snoc sampleReviews (review 3 4)) as (_ & H & _).
  apply (H ltac:(simpl; lia) 1%nat 0). reflexivity.
Defined.

(** ** The stars and the breakdown that the pages show *)

Ltac clamp_cases r :=
  first
    [ replace (clamp r) with 0 by (unfold clamp; lia)
    | replace (clamp r) with 1 by (unfold clamp; lia)
    | replace (clamp r) with 2 by (unfold clamp; lia)
    | replace (clamp r) with 3 by (unfold clamp; lia)
    | replace (clamp r) with 4 by (unfold clamp; lia)
    | replace (clamp r) with 5 by (unfold clamp; lia) ].

Lemma below_filled (r : Z) : map (fun i => i <? r) [0; 1; 2; 3; 4] = filled (clamp r).
Proof.
  simpl map.
  destruct (Z.ltb_spec 0 r), (Z.ltb_spec 1 r), (Z.ltb_spec 2 r),
    (Z.ltb_spec 3 r), (Z.ltb_spec 4 r); try lia; clamp_cases r; reflexivity.
Qed.

Lemma StarRating_below (r : Z) :
  ReviewsPage.StarRating r = map (fun i => i <? r) [0; 1; 2; 3; 4].
Proof.
  unfold ReviewsPage.StarRating, Reviews.stars. simpl map.
  repeat (apply (f_equal2 cons); [apply eq_true_iff_eq; rewrite Z.leb_le, Z.ltb_lt; lia|]).
  reflexivity.
Qed.

(** A review shows the same stars on both pages: the first
    [min(5, max(0, rating))] of the five are filled and the others are
    not. *)
Theorem StarRating_filled (review : AppReview.t) :
  ReviewsPage.StarRating (AppReview.rating review) = filled (clamp (AppReview.rating review)) /\
  DetailsPage.reviewStars review = ReviewsPage.StarRating (AppReview.rating review).
Proof.
  split.
  - rewrite StarRating_below. apply below_filled.
  - rewrite StarRating_below. reflexivity.
Qed.

Lemma Qfloor_le_ceiling (x : Q) : Qfloor x <= Qceiling x.
Proof.
  rewrite Zle_Qle. apply Qle_trans with x; [apply Qfloor_le | apply Qle_ceiling].
Qed.

Lemma mathRound_le_ceiling (x : Q) : mathRound x <= Qceiling x.
Proof.
  unfold mathRound.
  assert (H : Qfloor (x + (1 # 2)) < Qceiling x + 1); [|lia].
  rewrite Zlt_Qlt. apply Qle_lt_trans with (x + (1 # 2))%Q; [apply Qfloor_le|].
  rewrite inject_Z_plus.
  pose proof (Qle_ceiling x). change (inject_Z 1) with 1%Q. lra.
Qed.

Lemma mathRound_bounds (lo hi : Z) (x : Q) :
  (inject_Z lo <= x)%Q -> (x <= inject_Z hi)%Q -> lo <= mathRound x <= hi.
Proof.
  intros Hlo Hhi. unfold mathRound. split.
  - rewrite <- (Qfloor_Z lo). apply Qfloor_resp_le. lra.
  - assert (H : Qfloor (x + (1 # 2)) < hi + 1); [|lia].
    rewrite Zlt_Qlt. apply Qle_lt_trans with (x + (1 # 2))%Q; [apply Qfloor_le|].
    rewrite inject_Z_plus. change (inject_Z 1) with 1%Q. lra.
Qed.

Lemma Qceiling_bounds (lo hi : Z) (x : Q) :
  (inject_Z lo <= x)%Q -> (x <= inject_Z hi)%Q -> lo <= Qceiling x <= hi.
Proof.
  intros Hlo Hhi. split.
  - rewrite Zle_Qle. apply Qle_trans with x; [exact Hlo | apply Qle_ceiling].
  - rewrite <- (Qceiling_Z hi). apply Qceiling_resp_le. exact Hhi.
Qed.

Lemma starRow_below (x : Q) :
  DetailsPage.starRow x = map (fun i => i <? Qceiling x) [0; 1; 2; 3; 4].
Proof.
  unfold DetailsPage.starRow. pose proof (Qfloor_le_ceiling x) as H.
  apply map_ext. intros i.
  destruct (Z.ltb_spec i (Qfloor x)), (Z.ltb_spec i (Qceiling x)); try reflexivity; lia.
Qed.

(** The stars of the overview: the reviews page fills
    [Math.round(average)] stars and the details page [Math.ceil(average)],
    so the details page never shows fewer; for a non-empty list of ratings
    from 1 to 5 both pages fill from 1 to 5 stars. *)
Theorem overview_stars (reviews : list AppReview.t) :
  let average := Reviews.averageRating (Reviews.calculateReviewStats (Some reviews)) in
  ReviewsPage.overviewStars (Reviews.calculateReviewStats (Some reviews))
    = filled (clamp (mathRound average)) /\
  DetailsPage.starRow (Details.averageRating (Some reviews))
    = filled (clamp (Qceiling average)) /\
  mathRound average <= Qceiling average /\
  (reviews <> [] -> Forall (fun r => 1 <= AppReview.rating r <= 5) reviews ->
   1 <= mathRound average <= 5 /\ 1 <= Qceiling average <= 5).
Proof.
  intros average. split; [|split; [|split]].
  - unfold ReviewsPage.overviewStars. fold average.
    rewrite StarRating_below. apply below_filled.
  - destruct (Details_agrees (Some reviews)) as [-> _]. fold average.
    rewrite starRow_below. apply below_filled.
  - apply mathRound_le_ceiling.
  - intros Hne Hall.
    assert (Hb : (inject_Z 1 <= average /\ average <= inject_Z 5)%Q).
    { pose proof (quotient_between 1 5 reviews Hne Hall) as Hb.
      unfold average. destruct reviews as [|r rs]; [congruence | exact Hb]. }
    destruct Hb as [Hlo Hhi].
    split; [apply mathRound_bounds | apply Qceiling_bounds]; assumption.
Qed.

Lemma overview_stars_witness :
  1 <= mathRound (Reviews.averageRating (Reviews.calculateReviewStats (Some sampleReviews))) <= 5.
Proof.
  destruct (overview_stars sampleReviews) as (_ & _ & _ & H).
  apply H.
  - discriminate.
  - repeat constructor; simpl; lia.
Defined.

(** Where the two pages differ: with the ratings 5, 4, 4, 4, 4 the average
    is 4.2; the reviews page fills four stars and the details page five. *)
Example overview_stars_differ :
  ReviewsPage.overviewStars
    (Reviews.calculateReviewStats
       (Some [review 1 5; review 2 4; review 3 4; review 4 4; review 5 4]))
    = [true; true; true; true; false] /\
  DetailsPage.starRow
    (Details.averageRating
       (Some [review 1 5; review 2 4; review 3 4; review 4 4; review 5 4]))
    = [true; true; true; true; true].
Proof. split; reflexivity. Qed.

(** ** Doubles *)

Lemma roundHalfEven_near (n d : Z) :
  0 < d -> - d <= 2 * (roundHalfEven n d * d - n) <= d.
Proof.
  intros Hd. unfold roundHalfEven.
  pose proof (Z.div_mod n d ltac:(lia)) as Hdm.
  pose proof (Z.mod_pos_bound n d Hd) as Hr.
  destruct (2 * (n mod d) <? d) eqn:H1; [apply Z.ltb_lt in H1; nia|].
  apply Z.ltb_ge in H1.
  destruct (d <? 2 * (n mod d)) eqn:H2; [apply Z.ltb_lt in H2; nia|].
  apply Z.ltb_ge in H2.
  destruct (Z.even (n / d)); nia.
Qed.

Lemma roundHalfEven_nonneg (n d : Z) : 0 < d -> 0 <= n -> 0 <= roundHalfEven n d.
Proof.
  intros Hd Hn. unfold roundHalfEven.
  pose proof (Z.div_pos n d Hn Hd).
  destruct (2 * (n mod d) <? d); [lia|].
  destruct (d <? 2 * (n mod d)); [lia|].
  destruct (Z.even (n / d)); lia.
Qed.

Lemma nearestInteger_near (x : Q) :
  (x - (1 # 2) <= inject_Z (nearestInteger x) /\ inject_Z (nearestInteger x) <= x + (1 # 2))%Q.
Proof.
  destruct x as [n d]. unfold nearestInteger. simpl.
  pose proof (roundHalfEven_near n (Z.pos d) ltac:(lia)) as H.
  split; unfold Qle, Qminus, Qplus, Qopp, inject_Z; simpl; lia.
Qed.

Lemma nearestInteger_nonneg (x : Q) : (0 <= x)%Q -> 0 <= nearestInteger x.
Proof.
  destruct x as [n d]. unfold nearestInteger, Qle. simpl. intros H.
  apply roundHalfEven_nonneg; lia.
Qed.

Lemma two_pos (e : Z) : (0 < 2 ^ e)%Q.
Proof. apply Qpower_0_lt. reflexivity. Qed.

Lemma two_mono (a b : Z) : a <= b -> (2 ^ a <= 2 ^ b)%Q.
Proof. intros H. apply Qpower_le_compat_l; [exact H | discriminate]. Qed.

Lemma two_lt_inv (a b : Z) : (2 ^ a < 2 ^ b)%Q -> a < b.
Proof.
  intros H. destruct (Z_lt_le_dec a b) as [|Hle]; [assumption|].
  pose proof (two_mono b a Hle). lra.
Qed.

Lemma binade_le (q : Q) : (0 < q)%Q -> (2 ^ binade q <= q)%Q.
Proof.
  intros Hq. unfold binade.
  set (k := Z.log2 (Qnum q) - Z.log2 (Z.pos (Qden q))).
  destruct (Qle_bool (2 ^ k) q) eqn:Hle; [apply Qle_bool_iff, Hle|].
  destruct q as [n d]. cbn [Qnum Qden] in k.
  assert (Hn : 0 < n) by (unfold Qlt in Hq; simpl in Hq; lia).
  destruct (Z.log2_spec n Hn) as [Hn1 _].
  destruct (Z.log2_spec (Z.pos d) ltac:(lia)) as [_ Hd2].
  pose proof (Z.log2_nonneg n) as Ha. pose proof (Z.log2_nonneg (Z.pos d)) as Hb.
  replace (k - 1) with (Z.log2 n - Z.succ (Z.log2 (Z.pos d))) by (unfold k; lia).
  rewrite Qpower_minus by discriminate.
  rewrite <- (Zpower_Qpower 2 (Z.log2 n)) by exact Ha.
  rewrite <- (Zpower_Qpower 2 (Z.succ (Z.log2 (Z.pos d)))) by (apply Z.le_le_succ_r, Hb).
  assert (Hd' : (0 < inject_Z (2 ^ Z.succ (Z.log2 (Z.pos d))))%Q).
  { change 0%Q with (inject_Z 0). rewrite <- Zlt_Qlt. lia. }
  apply Qle_shift_div_r; [exact Hd'|].
  unfold Qle, Qmult, inject_Z. cbn [Qnum Qden].
  rewrite Pos.mul_1_r, !Z.mul_1_r.
  assert (0 < 2 ^ Z.log2 n) by (apply Z.pow_pos_nonneg; lia).
  apply Z.mul_le_mono_nonneg; lia.
Qed.

Lemma ulp_pos (q : Q) : (0 < ulp q)%Q.
Proof. apply two_pos. Qed.

Lemma ulp_bound (q : Q) (k : Z) :
  (0 < q)%Q -> (q < 2 ^ k)%Q -> -1021 <= k -> (ulp q <= 2 ^ (k - 53))%Q.
Proof.
  intros Hq Hk Hmin. unfold ulp. apply two_mono.
  pose proof (binade_le q Hq) as Hb.
  assert (binade q < k) by (apply two_lt_inv; lra).
  lia.
Qed.

Lemma double_near (q : Q) :
  (0 < q)%Q -> (q - (1 # 2) * ulp q <= double q /\ double q <= q + (1 # 2) * ulp q)%Q.
Proof.
  intros Hq. unfold double.
  destruct (Qcompare_spec q 0) as [H|H|H]; try lra.
  pose proof (ulp_pos q) as Hu.
  destruct (nearestInteger_near (q / ulp q)) as [H1 H2].
  assert (Hx : (q == q / ulp q * ulp q)%Q) by (field; lra).
  revert H1 H2 Hx.
  generalize (inject_Z (nearestInteger (q / ulp q))) (q / ulp q)%Q. revert Hu.
  generalize (ulp q). intros u Hu N x H1 H2 Hx.
  rewrite Hx. clear Hx. split.
  - apply Qle_trans with ((x - (1 # 2)) * u)%Q.
    + apply Qle_lteq. right. field.
    + apply Qmult_le_compat_r; lra.
  - apply Qle_trans with ((x + (1 # 2)) * u)%Q.
    + apply Qmult_le_compat_r; lra.
    + apply Qle_lteq. right. field.
Qed.

Lemma double_nonneg (q : Q) : (0 <= q)%Q -> (0 <= double q)%Q.
Proof.
  intros Hq. unfold double.
  destruct (Qcompare_spec q 0) as [H|H|H]; try lra.
  pose proof (ulp_pos q) as Hu.
  apply Qmult_le_0_compat; [|lra].
  change 0%Q with (inject_Z 0). rewrite <- Zle_Qle.
  apply nearestInteger_nonneg. apply Qle_shift_div_l; lra.
Qed.

Lemma double_error (q : Q) (k : Z) :
  (0 <= q)%Q -> (q < 2 ^ k)%Q -> -1021 <= k ->
  (q - 2 ^ (k - 54) <= double q /\ double q <= q + 2 ^ (k - 54))%Q.
Proof.
  intros Hq Hk Hmin.
  assert (Hhalf : (2 ^ (k - 53) == 2 * 2 ^ (k - 54))%Q).
  { replace (k - 53) with (1 + (k - 54)) by lia.
    rewrite Qpower_plus by discriminate. reflexivity. }
  pose proof (two_pos (k - 54)) as Hp.
  destruct (Qlt_le_dec 0 q) as [Hpos|Hzero].
  - pose proof (ulp_bound q k Hpos Hk Hmin) as Hu.
    destruct (double_near q Hpos) as [H1 H2].
    revert Hhalf Hp Hu H1 H2.
    generalize (2 ^ (k - 53))%Q (2 ^ (k - 54))%Q (ulp q) (double q).
    intros b a u d Hhalf Hp Hu H1 H2. clear Hk. split; lra.
  - clear Hk. unfold double. revert Hp. generalize (2 ^ (k - 54))%Q. intros a Hp.
    destruct (Qcompare_spec q 0) as [H|H|H]; split; lra.
Qed.

(** ** The breakdown *)

Lemma mathRound_near (x : Q) :
  (inject_Z (mathRound x) <= x + (1 # 2) /\ x - (1 # 2) < inject_Z (mathRound x))%Q.
Proof.
  unfold mathRound. split; [apply Qfloor_le|].
  pose proof (Qlt_floor (x + (1 # 2))) as H.
  rewrite inject_Z_plus in H. change (inject_Z 1) with 1%Q in H. lra.
Qed.

(** The double of a quotient of counts, times 100, rounded again: within a
    thousandth of the exact percentage, and not negative. *)
Lemma percent_near (count total : Z) :
  0 <= count <= total -> 0 < total ->
  (0 <= percent count total /\
   inject_Z count / inject_Z total * 100 - (1 # 1000) <= percent count total /\
   percent count total <= inject_Z count / inject_Z total * 100 + (1 # 1000))%Q.
Proof.
  intros Hc Ht. unfold percent.
  destruct (Qpercent_bounds count total Hc Ht) as [Hp0 Hp1].
  set (q := (inject_Z count / inject_Z total)%Q) in *.
  assert (Hq0 : (0 <= q)%Q) by lra.
  assert (Hq1 : (q <= 1)%Q) by lra.
  destruct (double_error q 1) as [Hx1 Hx2]; [exact Hq0 | | lia |].
  { change (2 ^ 1)%Q with 2%Q. lra. }
  pose proof (double_nonneg q Hq0) as Hx0.
  change (2 ^ (1 - 54))%Q with (1 # 9007199254740992)%Q in Hx1, Hx2.
  set (x := double q) in *.
  destruct (double_error (x * 100) 7) as [Hy1 Hy2]; [lra | | lia |].
  { change (2 ^ 7)%Q with 128%Q. lra. }
  pose proof (double_nonneg (x * 100) ltac:(lra)) as Hy0.
  change (2 ^ (7 - 54))%Q with (1 # 140737488355328)%Q in Hy1, Hy2.
  repeat split; lra.
Qed.

Lemma mathRound_percent (count total : Z) :
  0 <= count <= total -> 0 < total -> 0 <= mathRound (percent count total) <= 100.
Proof.
  intros Hc Ht.
  destruct (percent_near count total Hc Ht) as (H0 & _ & H1).
  destruct (Qpercent_bounds count total Hc Ht) as [_ Hp1].
  destruct (mathRound_near (percent count total)) as [Hr1 Hr2].
  split.
  - assert (-1 < mathRound (percent count total)); [|lia].
    rewrite Zlt_Qlt. change (inject_Z (-1)) with (-1)%Q. lra.
  - assert (mathRound (percent count total) < 101); [|lia].
    rewrite Zlt_Qlt. change (inject_Z 101) with 101%Q. lra.
Qed.

Lemma mathRound_sum5_near (a b c d e a' b' c' d' e' : Q) :
  (a + (b + (c + (d + (e + 0)))) == 100)%Q ->
  (a - (1 # 1000) <= a' /\ a' <= a + (1 # 1000))%Q ->
  (b - (1 # 1000) <= b' /\ b' <= b + (1 # 1000))%Q ->
  (c - (1 # 1000) <= c' /\ c' <= c + (1 # 1000))%Q ->
  (d - (1 # 1000) <= d' /\ d' <= d + (1 # 1000))%Q ->
  (e - (1 # 1000) <= e' /\ e' <= e + (1 # 1000))%Q ->
  98 <= mathRound a' + mathRound b' + mathRound c' + mathRound d' + mathRound e' <= 102.
Proof.
  intros Hsum [Ha1 Ha2] [Hb1 Hb2] [Hc1 Hc2] [Hd1 Hd2] [He1 He2].
  destruct (mathRound_near a') as [Ra1 Ra2], (mathRound_near b') as [Rb1 Rb2],
    (mathRound_near c') as [Rc1 Rc2], (mathRound_near d') as [Rd1 Rd2],
    (mathRound_near e') as [Re1 Re2].
  set (s := mathRound a' + mathRound b' + mathRound c' + mathRound d' + mathRound e').
  assert (Hs : (inject_Z s == inject_Z (mathRound a') + inject_Z (mathRound b')
                + inject_Z (mathRound c') + inject_Z (mathRound d') + inject_Z (mathRound e'))%Q).
  { unfold s. rewrite !inject_Z_plus. reflexivity. }
  assert (Hlo : 97 < s).
  { rewrite Zlt_Qlt, Hs. change (inject_Z 97) with 97%Q. lra. }
  assert (Hhi : s < 103).
  { rewrite Zlt_Qlt, Hs. change (inject_Z 103) with 103%Q. lra. }
  lia.
Qed.

(** Both pages show the same rows. *)
Lemma breakdown_counts (reviews : option (list AppReview.t)) :
  ReviewsPage.breakdown reviews
  = map (fun row => (Some row.1, Some row.2)) (DetailsPage.breakdown reviews).
Proof.
  destruct reviews as [[|r rs]|]; [reflexivity| |reflexivity].
  unfold ReviewsPage.breakdown, ReviewsPage.percentages, DetailsPage.breakdown,
    Details.ratingCounts, Reviews.calculateReviewStats.
  cbn [Reviews.ratingCounts].
  rewrite countRatings_spec. reflexivity.
Qed.

(** The breakdown: both pages show the same count and the same rounded
    percentage for each star, the percentage being computed in doubles; a
    percentage shown is a whole number from 0 to 100; and for a non-empty
    list of ratings from 1 to 5 the five percentages shown add up to a
    number from 98 to 102 (the rounding can keep them from adding up to
    100). *)
Theorem breakdown_shown (reviews : option (list AppReview.t)) :
  ReviewsPage.breakdown reviews
    = map (fun row => (Some row.1, Some row.2)) (DetailsPage.breakdown reviews) /\
  Forall (fun row => 0 <= row.1 /\ 0 <= row.2 <= 100) (DetailsPage.breakdown reviews) /\
  (forall rs, reviews = Some rs -> rs <> [] ->
     Forall (fun r => 1 <= AppReview.rating r <= 5) rs ->
     98 <= sumZ (map snd (DetailsPage.breakdown reviews)) <= 102).
Proof.
  split; [apply breakdown_counts|]. split.
  - destruct reviews as [[|r rs]|].
    + repeat constructor; simpl; lia.
    + set (l := r :: rs).
      assert (Hn : 0 < Z.of_nat (length l)) by (simpl; lia).
      unfold DetailsPage.breakdown, Details.ratingCounts. fold l.
      rewrite countRatings_spec. simpl map.
      repeat (constructor;
              [split; [apply withRating_nonneg|];
               apply mathRound_percent;
               solve [split; [apply withRating_nonneg | apply withRating_le_length]
                     | exact Hn] |]).
      constructor.
    + repeat constructor; simpl; lia.
  - intros rs -> Hne Hall.
    assert (Hcount : sumZ (countRatings rs) = Z.of_nat (length rs)).
    { rewrite sum_countRatings, counted_all by assumption. reflexivity. }
    destruct rs as [|r rs]; [congruence|]. set (l := r :: rs) in *.
    assert (Hn : 0 < Z.of_nat (length l)) by (simpl; lia).
    unfold DetailsPage.breakdown, Details.ratingCounts. fold l.
    rewrite countRatings_spec in *. unfold sumZ in Hcount. cbn [fold_right] in Hcount.
    assert (Hcount' : withRating 5 l + withRating 4 l + withRating 3 l + withRating 2 l
                      + withRating 1 l = Z.of_nat (length l)) by lia.
    pose proof (percent_sum _ _ _ _ _ (Z.of_nat (length l)) ltac:(lia) Hcount') as Hsum.
    simpl map. unfold sumZ. simpl fold_right.
    assert (Hnear : forall k,
      (inject_Z (withRating k l) / inject_Z (Z.of_nat (length l)) * 100 - (1 # 1000)
         <= percent (withRating k l) (Z.of_nat (length l)) /\
       percent (withRating k l) (Z.of_nat (length l))
         <= inject_Z (withRating k l) / inject_Z (Z.of_nat (length l)) * 100 + (1 # 1000))%Q).
    { intros k. apply percent_near; [|exact Hn].
      split; [apply withRating_nonneg | apply withRating_le_length]. }
    pose proof (mathRound_sum5_near _ _ _ _ _ _ _ _ _ _ Hsum
                  (Hnear 5) (Hnear 4) (Hnear 3) (Hnear 2) (Hnear 1)).
    change (S (length rs)) with (length l). lia.
Qed.

Lemma breakdown_shown_witness :
  98 <= sumZ (map snd (DetailsPage.breakdown (Some [review 1 5; review 2 4; review 3 3]))) <= 102.
Proof.
  destruct (breakdown_shown (Some [review 1 5; review 2 4; review 3 3])) as (_ & _ & H).
  apply (H [review 1 5; review 2 4; review 3 3]).
  - reflexivity.
  - discriminate.
  - repeat constructor; simpl; lia.
Defined.

(** Three reviews with the ratings 5, 4 and 3 show 33% three times: 99 in
    all. *)
Example breakdown_99 :
  map snd (DetailsPage.breakdown (Some [review 1 5; review 2 4; review 3 3]))
  = [33; 33; 33; 0; 0].
Proof. vm_compute. reflexivity. Qed.

(** Where the doubles show: 23 reviews of 40 are 57.5% exactly, and the page
    shows 57%, the product of the two roundings being just below a half. *)
Example percent_23_of_40 :
  (inject_Z 23 / inject_Z 40 * 100 == 115 # 2)%Q /\
  mathRound (inject_Z 23 / inject_Z 40 * 100) = 58 /\
  Qred (percent 23 40) = (8092405580431359 # 140737488355328)%Q /\
  mathRound (percent 23 40) = 57.
Proof. repeat split; vm_compute; reflexivity. Qed.

(** [percent] against the binary64 operations of the Standard Library: the
    same doubles for every count out of 40 and out of 7. *)
Example percent_binary64 :
  forallb (fun count =>
             match percent64 count 40, percent64 count 7 with
             | Some x, Some y => Qeq_bool x (percent count 40) && Qeq_bool y (percent count 7)
             | _, _ => false
             end)
          (map Z.of_nat (seq 0 8)) = true /\
  forallb (fun count =>
             match percent64 count 40 with
             | Some x => Qeq_bool x (percent count 40)
             | None => false
             end)
          (map Z.of_nat (seq 0 41)) = true.
Proof. split; vm_compute; reflexivity. Qed.

(** ** The review form as a machine *)

Ltac all_offered :=
  repeat (apply List.Forall_cons;
          [simpl; unfold ReviewsPage.currentUserId; first [exact I | lia] |]);
  apply List.Forall_nil.

Section ReviewForm.
Import ReviewsPage.

Lemma run_cons event events page :
  run (event :: events) page =
  ((run events (handle event page)).1,
   match send event page with
   | Some request => request :: (run events (handle event page)).2
   | None => (run events (handle event page)).2
   end).
Proof. simpl. destruct (run events (handle event page)). reflexivity. Qed.

Lemma run_app events events' page :
  run (events ++ events') page =
  ((run events' (run events page).1).1,
   (run events page).2 ++ (run events' (run events page).1).2).
Proof.
  revert page. induction events as [|event events IH]; intros page.
  - simpl. destruct (run events' page). reflexivity.
  - rewrite <- app_comm_cons, !run_cons, IH. simpl.
    destruct (send event page); reflexivity.
Qed.

Lemma handle_ratingInRange event page :
  offered event -> ratingInRange page -> ratingInRange (handle event page).
Proof.
  unfold ratingInRange. destruct event; simpl; intros Hoff Hinv; try assumption; try lia.
Qed.

Lemma send_ratingInRange event page request data :
  ratingInRange page -> send event page = Some request ->
  carried request = Some data -> 1 <= Reviews.rating data <= 5.
Proof.
  unfold ratingInRange. intros Hinv Hsend Hdata.
  destruct event; simpl in Hsend; try discriminate.
  - injection Hsend as <-. unfold Reviews.handleSubmit in Hdata.
    destruct (Reviews.isEditing (form page)), (Reviews.selectedReview (form page));
      simpl in Hdata; injection Hdata as <-; exact Hinv.
  - destruct (Reviews.selectedReview (form page)); [|discriminate].
    injection Hsend as <-. discriminate.
Qed.

Lemma run_ratingInRange events : forall page,
  ratingInRange page -> Forall offered events ->
  Forall (fun request => forall data, carried request = Some data ->
                                      1 <= Reviews.rating data <= 5)
         (run events page).2.
Proof.
  induction events as [|event events IH]; intros page Hinv Hoff.
  - constructor.
  - inversion Hoff as [|? ? Hevent Hrest]; subst.
    rewrite run_cons. simpl.
    specialize (IH (handle event page) (handle_ratingInRange _ _ Hevent Hinv) Hrest).
    destruct (send event page) as [request|] eqn:Hsend; [|exact IH].
    constructor; [|exact IH].
    intros data. eapply send_ratingInRange; eauto.
Qed.

(** Whatever the user does with the controls that the page offers, starting
    from the page as it loads, every PUT and POST that the form sends
    carries a rating from 1 to 5 (given that the reviews offered for editing
    have one). *)
Theorem form_sends_ratings_in_range (events : list Event) :
  Forall offered events ->
  Forall (fun request => forall data, carried request = Some data ->
                                      1 <= Reviews.rating data <= 5)
         (run events initialPage).2.
Proof. apply run_ratingInRange. unfold ratingInRange. simpl. lia. Qed.

Lemma form_sends_ratings_in_range_witness :
  Forall (fun request => forall data, carried request = Some data ->
                                      1 <= Reviews.rating data <= 5)
         (run [ClickWrite; RatingChange 2; InputChange "so so"; Submit] initialPage).2.
Proof.
  apply (form_sends_ratings_in_range [ClickWrite; RatingChange 2; InputChange "so so"; Submit]).
  all_offered.
Defined.

Lemma handle_selected event page seen :
  (forall r, Reviews.selectedReview (form page) = Some r -> In r seen) ->
  forall r, Reviews.selectedReview (form (handle event page)) = Some r ->
            In r (seen ++ clicked [event]).
Proof.
  intros Hinv r. destruct event; simpl; rewrite ?app_nil_r;
    try (intros H; apply Hinv; exact H).
  - intros [= <-]. apply in_or_app. right. left. reflexivity.
  - intros [= <-]. apply in_or_app. right. left. reflexivity.
  - discriminate.
Qed.

Lemma send_target event page request reviewId seen :
  (forall r, Reviews.selectedReview (form page) = Some r -> In r seen) ->
  send event page = Some request -> target request = Some reviewId ->
  exists r, In r seen /\ AppReview.id r = reviewId.
Proof.
  intros Hinv Hsend Htarget.
  destruct event; simpl in Hsend; try discriminate.
  - injection Hsend as <-. unfold Reviews.handleSubmit in Htarget.
    destruct (Reviews.isEditing (form page));
      destruct (Reviews.selectedReview (form page)) as [r|] eqn:Hsel;
      simpl in Htarget; try discriminate.
    injection Htarget as <-. exists r. split; [apply Hinv; reflexivity | reflexivity].
  - destruct (Reviews.selectedReview (form page)) as [r|] eqn:Hsel; [|discriminate].
    injection Hsend as <-. simpl in Htarget. injection Htarget as <-.
    exists r. split; [apply Hinv; reflexivity | reflexivity].
Qed.

Lemma clicked_cons event events : clicked (event :: events) = clicked [event] ++ clicked events.
Proof. destruct event; reflexivity. Qed.

Lemma run_targets events : forall page seen,
  (forall r, Reviews.selectedReview (form page) = Some r -> In r seen) ->
  Forall (fun request => forall reviewId, target request = Some reviewId ->
            exists r, In r (seen ++ clicked events) /\ AppReview.id r = reviewId)
         (run events page).2.
Proof.
  induction events as [|event events IH]; intros page seen Hinv.
  - constructor.
  - rewrite run_cons. simpl snd.
    specialize (IH (handle event page) (seen ++ clicked [event])
                   (handle_selected event page seen Hinv)).
    rewrite <- app_assoc, <- clicked_cons in IH.
    destruct (send event page) as [request|] eqn:Hsend; [|exact IH].
    constructor; [|exact IH].
    intros reviewId Htarget.
    destruct (send_target _ _ _ _ _ Hinv Hsend Htarget) as (r & Hin & Hid).
    exists r. split; [apply in_or_app; left; exact Hin | exact Hid].
Qed.

Lemma buttons_own (view : View) (event : Event) (r : AppReview.t) :
  In event (buttons view) -> event = ClickEdit r \/ event = ClickDelete r ->
  (In r (default [] (reviews view)) /\ AppReview.userId r = currentUserId) \/
  (userReview view = Some r /\ event = ClickEdit r).
Proof.
  unfold buttons. intros Hin Hevent. apply in_app_or in Hin as [Hheader|Hlist].
  - right. destruct (userReview view) as [r'|]; [|contradiction].
    destruct Hheader as [<-|[]]. destruct Hevent as [[= ->]|[=]]. auto.
  - left. apply in_flat_map in Hlist as (r' & Hr' & Hin).
    destruct (AppReview.userId r' =? currentUserId) eqn:Hown; [|contradiction].
    apply Z.eqb_eq in Hown.
    destruct Hin as [<-|[<-|[]]]; destruct Hevent as [[= ->]|[= ->]]; auto.
Qed.

Lemma clicked_rendered (views : list View) (events : list Event) (r : AppReview.t) :
  Forall (fun event => exists view, In view views /\ renders view event) events ->
  In r (clicked events) ->
  exists view, In view views /\
    ((In r (default [] (reviews view)) /\ AppReview.userId r = currentUserId) \/
     userReview view = Some r).
Proof.
  induction 1 as [|event events (view & Hview & Hevent) _ IH]; simpl; [tauto|].
  destruct event; simpl; try exact IH; intros [<-|Hin]; auto;
    exists view; (split; [exact Hview|]); simpl in Hevent.
  - destruct (buttons_own view _ review0 Hevent) as [?|[? _]]; auto.
  - destruct (buttons_own view _ review0 Hevent) as [?|[? _]]; auto.
Qed.

(** Whose reviews the page asks to change or delete.  Over the renderings
    [views] of a session, starting from the page as it loads: when every
    Edit and Delete clicked is a button of one of the renderings, every PUT
    and every DELETE that the page sends is about a review of the list that
    belongs to the current user, or about the review that the server
    returned as [userReview], which the page does not check. *)
Theorem requests_target_own_reviews (views : list View) (events : list Event) :
  Forall (fun event => exists view, In view views /\ renders view event) events ->
  Forall (fun request => forall reviewId, target request = Some reviewId ->
            exists view r, In view views /\ AppReview.id r = reviewId /\
              ((In r (default [] (reviews view)) /\ AppReview.userId r = currentUserId) \/
               userReview view = Some r))
         (run events initialPage).2.
Proof.
  intros Hrendered.
  pose proof (run_targets events initialPage []) as H.
  simpl app in H.
  eapply Forall_impl; [apply H; simpl; discriminate|].
  intros request Hreq reviewId Htarget.
  destruct (Hreq reviewId Htarget) as (r & Hin & Hid).
  destruct (clicked_rendered views events r Hrendered Hin) as (view & Hview & Hown).
  exists view, r. auto.
Qed.

Lemma requests_target_own_reviews_witness :
  Forall (fun request => forall reviewId, target request = Some reviewId ->
            exists view r, In view [sampleView] /\ AppReview.id r = reviewId /\
              ((In r (default [] (reviews view)) /\ AppReview.userId r = currentUserId) \/
               userReview view = Some r))
         (run [ClickDelete (review 1 4); ConfirmDelete] initialPage).2.
Proof.
  apply (requests_target_own_reviews [sampleView] [ClickDelete (review 1 4); ConfirmDelete]).
  repeat (apply List.Forall_cons; [exists sampleView; split; [left; reflexivity|] |]);
    [simpl; auto | exact I | apply List.Forall_nil].
Defined.

(** What the page does not check: a [userReview] that belongs to user 2 is
    opened by the header button, and Submit sends a PUT to it. *)
Example header_edits_any_review :
  renders (mkView None (Some (review 2 4))) (ClickEdit (review 2 4)) /\
  (run [ClickEdit (review 2 4); Submit] initialPage).2 =
    [SentForm (Reviews.PutReview 2 {| Reviews.rating := 4; Reviews.reviewText := EmptyString |})].
Proof. split; [left; reflexivity | reflexivity]. Qed.

Lemma run_inputs edits : forall page,
  Forall (fun event => isInput event = true) edits ->
  run edits page =
  ({| form :=
        {| Reviews.showReviewDialog := Reviews.showReviewDialog (form page);
           Reviews.selectedReview := Reviews.selectedReview (form page);
           Reviews.isEditing := Reviews.isEditing (form page);
           Reviews.formData :=
             {| Reviews.rating :=
                  lastRating edits (Reviews.rating (Reviews.formData (form page)));
                Reviews.reviewText :=
                  lastText edits (Reviews.reviewText (Reviews.formData (form page))) |} |};
      showDeleteDialog := showDeleteDialog page |}, []).
Proof.
  induction edits as [|event edits IH]; intros page Hall.
  - simpl. destruct page as [[? ? ? []] ?]. reflexivity.
  - inversion Hall as [|? ? Hevent Hrest]; subst.
    rewrite run_cons, (IH _ Hrest).
    destruct event; try discriminate; reflexivity.
Qed.

(** Filling the form in: after Edit on a review, however the rating and the
    text are changed, Submit sends one request, a PUT to that review with
    the rating picked last and the text typed last (the review's own where
    none was, a null text counting as empty); and on the page as it loads,
    "Write a Review" followed by such changes and Submit sends one POST,
    with rating 5 and an empty text where none was entered. *)
Theorem inputs_then_submit (edits : list Event) :
  Forall (fun event => isInput event = true) edits ->
  (forall (r : AppReview.t) (page : Page),
     (run (ClickEdit r :: edits ++ [Submit]) page).2 =
     [SentForm (Reviews.PutReview (AppReview.id r)
        {| Reviews.rating := lastRating edits (AppReview.rating r);
           Reviews.reviewText :=
             lastText edits (default EmptyString (AppReview.reviewText r)) |})]) /\
  (run (ClickWrite :: edits ++ [Submit]) initialPage).2 =
    [SentForm (Reviews.PostReview
       {| Reviews.rating := lastRating edits 5;
          Reviews.reviewText := lastText edits EmptyString |})].
Proof.
  intros Hall. split.
  - intros r page. rewrite run_cons, run_app, (run_inputs edits _ Hall). simpl.
    destruct (AppReview.reviewText r); reflexivity.
  - rewrite run_cons, run_app, (run_inputs edits _ Hall). reflexivity.
Qed.

Lemma inputs_then_submit_witness :
  (run (ClickEdit (review 1 4) :: [RatingChange 2; InputChange "meh"; RatingChange 3] ++ [Submit])
       initialPage).2 =
  [SentForm (Reviews.PutReview 1 {| Reviews.rating := 3; Reviews.reviewText := "meh" |})].
Proof.
  destruct (inputs_then_submit [RatingChange 2; InputChange "meh"; RatingChange 3]) as [H _].
  - repeat constructor.
  - apply (H (review 1 4) initialPage).
Defined.

End ReviewForm.

(** ** The pricing plans form *)

Section PricingPlansForm.
Import PricingPlans.



Lemma run_snoc events event st : run (events ++ [event]) st = handle event (run events st).
Proof. unfold run. rewrite fold_left_app. reflexivity. Qed.

Lemma run_cons_plans event events st : run (event :: events) st = run events (handle event st).
Proof. reflexivity. Qed.

Lemma handle_keepsSelection event st :
  keepsSelection event = true -> selectedPlan (handle event st) = selectedPlan st.
Proof.
  destruct event; try discriminate; intros _; try reflexivity.
  unfold handle, handleInputChange.
  destruct (String.eqb field "price"); [reflexivity|].
  destruct (String.eqb field "name"); reflexivity.
Qed.

Lemma run_keepsSelection events : forall st,
  Forall (fun event => keepsSelection event = true) events ->
  selectedPlan (run events st) = selectedPlan st.
Proof.
  induction events as [|event events IH]; intros st Hall; [reflexivity|].
  inversion Hall as [|? ? Hevent Hrest]; subst.
  rewrite run_cons_plans, IH by exact Hrest. apply handle_keepsSelection, Hevent.
Qed.

(** Which request Submit sends follows the selected plan alone, and the
    selection is only cleared by the success of an update or of a deletion:
    once Edit or Delete is clicked on a plan, then whatever else happens
    (the dialog closed or cancelled, the Add dialog opened, the form filled
    in or reset by a creation), Submit sends a PUT to that plan, not a POST;
    and on the page as it loads, where nothing is selected, it sends a
    POST. *)
Theorem submit_follows_selection (plan : PricingPlan.t) (events : list Event) (st : State) :
  Forall (fun event => keepsSelection event = true) events ->
  handleSubmit (run events (handleEdit plan st))
    = PutPlan (PricingPlan.id plan)
        (cleanedData (formData (run events (handleEdit plan st)))) /\
  handleSubmit (run events (handleDelete plan st))
    = PutPlan (PricingPlan.id plan)
        (cleanedData (formData (run events (handleDelete plan st)))) /\
  handleSubmit (run events initialState)
    = PostPlan (cleanedData (formData (run events initialState))).
Proof.
  intros Hall. unfold handleSubmit.
  rewrite !(run_keepsSelection events _ Hall). repeat split.
Qed.

Lemma submit_follows_selection_witness :
  exists data,
    handleSubmit
      (run [EditDialogOpenChange false; AddDialogOpenChange true;
            InputChange "name" "Team"; InputChange "price" "12.50"]
           (handleEdit (PricingPlan.mk 3 1 "Solo" (Finite 5) "monthly" ["One seat"] true)
                       initialState))
    = PutPlan 3 data /\ name data = "Team".
Proof.
  destruct (submit_follows_selection
              (PricingPlan.mk 3 1 "Solo" (Finite 5) "monthly" ["One seat"] true)
              [EditDialogOpenChange false; AddDialogOpenChange true;
               InputChange "name" "Team"; InputChange "price" "12.50"]
              initialState) as [H _].
  - repeat (apply List.Forall_cons; [reflexivity|]). apply List.Forall_nil.
  - eexists. split; [exact H | reflexivity].
Defined.

Lemma featuresOr_setFeatures fs data st :
  featuresOr (formData (setFormData (withFeatures fs data) st)) = fs.
Proof. reflexivity. Qed.

(** The feature fields: Add Feature appends an empty field; typing in field
    [i] changes that field and no other; the remove button of field [i]
    takes that field out and keeps the others in order; and removing the
    field that was just added gives the list back.  None of them touches the
    rest of the form or the selection. *)
Theorem feature_fields (st : State) (i : nat) (value : string) :
  let fs := featuresOr (formData st) in
  featuresOr (formData (addFeatureField st)) = fs ++ [EmptyString] /\
  featuresOr (formData (removeFeatureField (length fs) (addFeatureField st))) = fs /\
  ((i < length fs)%nat ->
   featuresOr (formData (handleFeatureChange i value st)) !! i = Some value /\
   length (featuresOr (formData (handleFeatureChange i value st))) = length fs /\
   (forall j, j <> i ->
      featuresOr (formData (handleFeatureChange i value st)) !! j = fs !! j) /\
   featuresOr (formData (removeFeatureField i st)) = take i fs ++ drop (S i) fs /\
   S (length (featuresOr (formData (removeFeatureField i st)))) = length fs) /\
  (forall st', In st' [addFeatureField st; handleFeatureChange i value st;
                       removeFeatureField i st] ->
     selectedPlan st' = selectedPlan st /\
     name (formData st') = name (formData st) /\
     price (formData st') = price (formData st) /\
     billingInterval (formData st') = billingInterval (formData st) /\
     isPublic (formData st') = isPublic (formData st)).
Proof.
  intros fs. unfold addFeatureField, removeFeatureField, handleFeatureChange.
  rewrite !featuresOr_setFeatures. fold fs.
  split; [reflexivity|]. split; [|split].
  - rewrite delete_take_drop, take_app_length.
    rewrite drop_ge by (rewrite length_app; simpl; lia). apply app_nil_r.
  - intros Hi. split; [apply list_lookup_insert_eq; exact Hi|].
    split; [apply length_insert|].
    split; [intros j Hj; apply list_lookup_insert_ne; congruence|].
    split; [apply delete_take_drop|].
    rewrite length_delete by (apply lookup_lt_is_Some_2; exact Hi). lia.
  - intros st' [<-|[<-|[<-|[]]]]; repeat split.
Qed.

Lemma feature_fields_witness :
  featuresOr (formData (handleFeatureChange 0 "One seat" initialState)) !! 0%nat
    = Some "One seat".
Proof.
  destruct (feature_fields initialState 0 "One seat") as (_ & _ & H & _).
  apply H. simpl. lia.
Defined.

Lemma filter_nonBlank_all fs : Forall (fun f => nonBlank f = true) fs -> List.filter nonBlank fs = fs.
Proof.
  induction 1 as [|f fs Hf _ IH]; simpl; [reflexivity|]. rewrite Hf, IH. reflexivity.
Qed.

(** Editing a plan and submitting it unchanged sends the plan back as it
    is, when none of its features is blank; and no request that the form
    sends has a blank feature, so that is the case of every plan made of
    what the form sent. *)
Theorem edit_round_trip (plan : PricingPlan.t) (st : State) :
  (Forall (fun f => nonBlank f = true) (PricingPlan.features plan) ->
   handleSubmit (handleEdit plan st) =
     PutPlan (PricingPlan.id plan)
       {| name := PricingPlan.name plan;
          price := PricingPlan.price plan;
          billingInterval := PricingPlan.billingInterval plan;
          features := Some (PricingPlan.features plan);
          isPublic := PricingPlan.isPublic plan |}) /\
  (forall data fs, carried (handleSubmit st) = Some data -> features data = Some fs ->
     Forall (fun f => nonBlank f = true) fs).
Proof.
  split.
  - intros Hall. unfold handleSubmit, handleEdit, cleanedData, withFeatures. simpl.
    rewrite filter_nonBlank_all by exact Hall. reflexivity.
  - intros data fs Hdata Hfs.
    assert (data = cleanedData (formData st)) as ->.
    { unfold handleSubmit in Hdata. destruct (selectedPlan st); simpl in Hdata; congruence. }
    simpl in Hfs. injection Hfs as <-.
    destruct (features (formData st)) as [entered|]; [|constructor].
    apply List.Forall_forall. intros f Hf. apply filter_In in Hf. tauto.
Qed.

Lemma edit_round_trip_witness :
  handleSubmit (handleEdit (PricingPlan.mk 3 1 "Solo" (Finite 5) "monthly" ["One seat"] true)
                           initialState)
  = PutPlan 3 (mkForm "Solo" (Finite 5) "monthly" (Some ["One seat"]) true).
Proof.
  destruct (edit_round_trip (PricingPlan.mk 3 1 "Solo" (Finite 5) "monthly" ["One seat"] true)
              initialState) as [H _].
  apply H. repeat constructor.
Defined.




End PricingPlansForm.

(** ** Creating an application, from the form to the store *)

Lemma falsy_true value :
  Routes.falsy value = true <-> value = None \/ value = Some EmptyString.
Proof.
  destruct value as [s|]; simpl.
  - destruct (String.eqb_spec s EmptyString) as [->|Hs].
    + split; auto.
    + split; [discriminate | intros [H|[= H]]; [discriminate | contradiction]].
  - split; auto.
Qed.

(** The answers of [POST /], over any store: 401 exactly when the request
    has no session; 400 exactly when it has one and a required field is
    absent or empty; otherwise the store is asked to create the row, and the
    answer is 201 when it does and 500 when it fails.  With 401 and 400 the
    store is not called and stays as it was. *)
Theorem createApp_status {S : Type} `{Routes.Storage S} (req : Routes.Request) (st : S) :
  let session := Routes.isAuthenticated req = true /\ Routes.user req <> None in
  let missing :=
    Routes.falsy (Routes.name (Routes.body req)) = true \/
    Routes.falsy (Routes.description (Routes.body req)) = true \/
    Routes.falsy (Routes.homepageUrl (Routes.body req)) = true \/
    Routes.falsy (Routes.callbackUrl (Routes.body req)) = true in
  let status := Routes.status (Routes.run (Routes.createApp req) st).1 in
  (status = 401 <-> ~ session) /\
  (status = 400 <-> session /\ missing) /\
  (status = 201 \/ status = 500 <-> session /\ ~ missing) /\
  (status = 401 \/ status = 400 -> (Routes.run (Routes.createApp req) st).2 = st).
Proof.
  intros session missing status. subst session missing status.
  unfold Routes.createApp, Routes.requireAuth.
  destruct (Routes.isAuthenticated req); destruct (Routes.user req) as [userId|];
    cbn [Routes.run Routes.status fst snd].
  2-4: repeat split; intros; solve [discriminate | intuition congruence].
  destruct (Routes.falsy (Routes.name (Routes.body req)));
    destruct (Routes.falsy (Routes.description (Routes.body req)));
    destruct (Routes.falsy (Routes.homepageUrl (Routes.body req)));
    destruct (Routes.falsy (Routes.callbackUrl (Routes.body req)));
    cbn [orb Routes.run Routes.status fst snd].
  1-15: repeat split; intros; solve [discriminate | intuition congruence].
  match goal with
  | |- context [Routes.createOAuthApp ?data st] =>
      destruct (Routes.createOAuthApp data st) as [[app st']|]
  end;
    cbn [Routes.run Routes.status fst snd];
    repeat split; intros; solve [discriminate | intuition congruence].
Qed.

Lemma createApp_status_witness :
  Routes.status (Routes.run (Routes.createApp (withLimit None)) sampleApps).1 = 401 /\
  (Routes.run (Routes.createApp (withLimit None)) sampleApps).2 = sampleApps.
Proof.
  destruct (createApp_status (withLimit None) sampleApps) as (H401 & _ & _ & Hst).
  assert (H : Routes.status (Routes.run (Routes.createApp (withLimit None)) sampleApps).1 = 401).
  { apply H401. intros [Hauth _]. discriminate. }
  split; [exact H | apply Hst; left; exact H].
Defined.

(** What reaches the store: for a signed-in user and a form whose four
    required fields are filled in, the handler asks the store to create a
    row owned by the session's user with the name, description and URLs of
    the form as they are; the logo URL is passed as the form has it, the
    empty string when the field was left empty. *)
Theorem form_reaches_store (userId : Z) (data : MyApps.FormData) :
  MyApps.name data <> EmptyString -> MyApps.description data <> EmptyString ->
  MyApps.homepageUrl data <> EmptyString -> MyApps.callbackUrl data <> EmptyString ->
  exists k,
    Routes.createApp (MyApps.posted true (Some userId) data) =
      Routes.CreateOAuthApp
        (Routes.mkInsert userId (MyApps.name data) (MyApps.description data)
           (MyApps.homepageUrl data) (MyApps.callbackUrl data) (Some (MyApps.logoUrl data))) k /\
    (forall app, k (Some app) = Routes.Respond (Routes.mkResponse 201 (Routes.App app))) /\
    k None = Routes.Respond (Routes.mkResponse 500 (Routes.Message "Failed to create OAuth app")).
Proof.
  intros Hn Hd Hh Hc.
  unfold Routes.createApp, Routes.requireAuth, MyApps.posted, MyApps.handleSubmit. simpl.
  destruct (String.eqb_spec (MyApps.name data) EmptyString); [contradiction|].
  destruct (String.eqb_spec (MyApps.description data) EmptyString); [contradiction|].
  destruct (String.eqb_spec (MyApps.homepageUrl data) EmptyString); [contradiction|].
  destruct (String.eqb_spec (MyApps.callbackUrl data) EmptyString); [contradiction|].
  simpl. eexists. repeat split.
Qed.

Lemma form_reaches_store_witness :
  exists k,
    Routes.createApp
      (MyApps.posted true (Some 7)
         (MyApps.handleInputChange "callbackUrl" "https://a.test/cb"
            (MyApps.handleInputChange "homepageUrl" "https://a.test"
               (MyApps.handleInputChange "description" "an app"
                  (MyApps.handleInputChange "name" "app" MyApps.emptyForm))))) =
    Routes.CreateOAuthApp
      (Routes.mkInsert 7 "app" "an app" "https://a.test" "https://a.test/cb" (Some EmptyString)) k.
Proof.
  destruct (form_reaches_store 7
              (MyApps.handleInputChange "callbackUrl" "https://a.test/cb"
                 (MyApps.handleInputChange "homepageUrl" "https://a.test"
                    (MyApps.handleInputChange "description" "an app"
                       (MyApps.handleInputChange "name" "app" MyApps.emptyForm)))))
    as (k & Hk & _); try discriminate.
  exists k. exact Hk.
Defined.

(** ** The limit of the top-rated route *)

Ltac eval_code :=
  repeat match goal with
         | |- context [code ?c] =>
             let v := eval vm_compute in (code c) in change (code c) with v
         end.

Lemma radixDigit_not_decimal c : isDecimalDigit c = false -> Routes.radixDigit 10 c = None.
Proof.
  unfold isDecimalDigit, Routes.radixDigit, Routes.digitValue. intros H.
  destruct (48 <=? code c) eqn:H1, (code c <=? 57) eqn:H2; try discriminate; simpl.
  - destruct ((97 <=? code c) && (code c <=? 122)) eqn:H3.
    + apply andb_true_iff in H3 as [H3 _]. apply Z.leb_le in H3.
      destruct (code c - 87 <? 10) eqn:H4; [apply Z.ltb_lt in H4; lia | reflexivity].
    + destruct ((65 <=? code c) && (code c <=? 90)) eqn:H5; [|reflexivity].
      apply andb_true_iff in H5 as [H5 _]. apply Z.leb_le in H5.
      destruct (code c - 55 <? 10) eqn:H4; [apply Z.ltb_lt in H4; lia | reflexivity].
  - apply Z.leb_gt in H1.
    destruct ((97 <=? code c) && (code c <=? 122)) eqn:H3.
    + apply andb_true_iff in H3 as [H3 _]. apply Z.leb_le in H3. lia.
    + destruct ((65 <=? code c) && (code c <=? 90)) eqn:H5; [|reflexivity].
      apply andb_true_iff in H5 as [H5 _]. apply Z.leb_le in H5. lia.
  - apply Z.leb_gt in H1.
    destruct ((97 <=? code c) && (code c <=? 122)) eqn:H3.
    + apply andb_true_iff in H3 as [H3 _]. apply Z.leb_le in H3. lia.
    + destruct ((65 <=? code c) && (code c <=? 90)) eqn:H5; [|reflexivity].
      apply andb_true_iff in H5 as [H5 _]. apply Z.leb_le in H5. lia.
Qed.

Lemma digits_rest rest acc :
  startsWith isDecimalDigit rest = false -> Routes.digits 10 rest acc = acc.
Proof.
  destruct rest as [|c rest]; simpl; [reflexivity|].
  intros H. rewrite (radixDigit_not_decimal c H). reflexivity.
Qed.

Section Numeral.
Variable rest : string.
Hypothesis rest_no_digit : startsWith isDecimalDigit rest = false.

Lemma digits_uint_acc (d : Decimal.uint) : forall acc : positive,
  Routes.digits 10 (NilEmpty.string_of_uint d +:+ rest) (Some (Z.pos acc))
  = Some (Z.pos (Pos.of_uint_acc d acc)).
Proof.
  induction d; intros acc; rewrite ?append_String, ?append_empty; simpl;
    [apply digits_rest, rest_no_digit | ..];
    eval_code; rewrite <- IHd; do 2 f_equal; lia.
Qed.

Lemma digits_uint_zero (d : Decimal.uint) :
  Routes.digits 10 (NilEmpty.string_of_uint d +:+ rest) (Some 0)
  = Some (Z.of_N (Pos.of_uint d)).
Proof.
  induction d; rewrite ?append_String, ?append_empty; simpl;
    [apply digits_rest, rest_no_digit | ..]; eval_code;
    first [exact IHd | apply (digits_uint_acc d)].
Qed.

Lemma digits_uint (d : Decimal.uint) :
  d <> Decimal.Nil ->
  Routes.digits 10 (NilEmpty.string_of_uint d +:+ rest) None
  = Some (Z.of_N (Pos.of_uint d)).
Proof.
  destruct d; intros Hd; try congruence; simpl; rewrite ?append_String; simpl; eval_code;
    first [apply digits_uint_zero | apply (digits_uint_acc d)].
Qed.

End Numeral.

Lemma nzhead_not_D0 (d u : Decimal.uint) : Decimal.nzhead d <> Decimal.D0 u.
Proof. induction d; simpl; try discriminate. exact IHd. Qed.

Lemma to_uint_not_D0 (p : positive) (u : Decimal.uint) : Pos.to_uint p <> Decimal.D0 u.
Proof.
  intros H.
  pose proof (DecimalPos.Unsigned.to_of (Pos.to_uint p)) as Hnorm.
  rewrite DecimalPos.Unsigned.of_to in Hnorm. simpl in Hnorm.
  rewrite H in Hnorm. unfold Decimal.unorm in Hnorm. simpl in Hnorm.
  destruct (Decimal.nzhead u) eqn:Hu; try discriminate.
  - injection Hnorm as ->. apply (DecimalPos.Unsigned.to_uint_nonzero p). exact H.
  - apply (nzhead_not_D0 u u0). congruence.
Qed.

Lemma trimStart_app ws s : allWhiteSpace ws = true -> trimStart (ws +:+ s) = trimStart s.
Proof.
  induction ws as [|c ws IH]; [reflexivity|].
  intros H. simpl in H. apply andb_true_iff in H as [Hc Hws].
  rewrite ?append_String. simpl. rewrite Hc. apply IH, Hws.
Qed.

(** The numeral of a non-negative number, as the source of the digits. *)
Lemma parseInt_unsigned (d : Decimal.uint) (rest : string) (sign : Z) (unsigned : string) :
  d <> Decimal.Nil ->
  startsWith isDecimalDigit rest = false ->
  (forall u, d = Decimal.D0 u -> u = Decimal.Nil /\ startsWith isX rest = false) ->
  unsigned = NilEmpty.string_of_uint d +:+ rest ->
  (let '(R, numeral) :=
     match unsigned with
     | String "0" (String "x" rest) | String "0" (String "X" rest) => (16, rest)
     | _ => (10, unsigned)
     end in
   match Routes.digits R numeral None with
   | Some mathInt => Routes.toNumber (sign * mathInt)
   | None => Routes.NaN
   end) = Routes.toNumber (sign * Z.of_N (Pos.of_uint d)).
Proof.
  intros Hd Hrest Hzero ->.
  assert (Hprefix :
    match NilEmpty.string_of_uint d +:+ rest with
    | String "0" (String "x" rest') | String "0" (String "X" rest') => (16, rest')
    | _ => (10, NilEmpty.string_of_uint d +:+ rest)
    end = (10, NilEmpty.string_of_uint d +:+ rest)).
  { destruct d as [|u|u|u|u|u|u|u|u|u|u]; [congruence | | reflexivity ..].
    destruct (Hzero u eq_refl) as [-> Hx]. simpl.
    destruct rest as [|c rest']; [reflexivity|].
    simpl in Hx. unfold isX in Hx. apply orb_false_iff in Hx as [Hx1 Hx2].
    rewrite append_String, append_empty.
    destruct c as [[] [] [] [] [] [] [] []]; try reflexivity;
      (vm_compute in Hx1; discriminate) || (vm_compute in Hx2; discriminate). }
  rewrite Hprefix, (digits_uint rest Hrest d Hd). reflexivity.
Qed.

Lemma string_of_uint_nonnil (d : Decimal.uint) :
  d <> Decimal.Nil -> NilZero.string_of_uint d = NilEmpty.string_of_uint d.
Proof. destruct d; intros Hd; [congruence | reflexivity ..]. Qed.

Lemma numeral_head (d : Decimal.uint) (rest : string) :
  d <> Decimal.Nil ->
  trimStart (NilEmpty.string_of_uint d +:+ rest) = NilEmpty.string_of_uint d +:+ rest /\
  match NilEmpty.string_of_uint d +:+ rest with
  | String "-" rest' => (-1, rest')
  | String "+" rest' => (1, rest')
  | _ => (1, NilEmpty.string_of_uint d +:+ rest)
  end = (1, NilEmpty.string_of_uint d +:+ rest).
Proof. destruct d; intros Hd; [congruence | split; reflexivity ..]. Qed.

Lemma parseInt_numeral (n : Z) (rest : string) :
  startsWith isDecimalDigit rest = false ->
  (n = 0 -> startsWith isX rest = false) ->
  Routes.parseInt (numberToString n +:+ rest) = Routes.toNumber n.
Proof.
  intros Hrest Hx. unfold numberToString, Routes.parseInt.
  destruct n as [|p|p]; cbn [Z.to_int NilZero.string_of_int].
  - change (NilZero.string_of_uint (Decimal.D0 Decimal.Nil))
      with (NilEmpty.string_of_uint (Decimal.D0 Decimal.Nil)).
    destruct (numeral_head (Decimal.D0 Decimal.Nil) rest) as [-> ->]; [discriminate|].
    apply (parseInt_unsigned (Decimal.D0 Decimal.Nil) rest 1); auto; try discriminate.
    intros u [= <-]. auto.
  - rewrite string_of_uint_nonnil by apply DecimalPos.Unsigned.to_uint_nonnil.
    destruct (numeral_head (Pos.to_uint p) rest) as [-> ->];
      [apply DecimalPos.Unsigned.to_uint_nonnil|].
    rewrite (parseInt_unsigned (Pos.to_uint p) rest 1); auto.
    + rewrite DecimalPos.Unsigned.of_to. reflexivity.
    + apply DecimalPos.Unsigned.to_uint_nonnil.
    + intros u Hu. exfalso. apply (to_uint_not_D0 p u Hu).
  - rewrite string_of_uint_nonnil by apply DecimalPos.Unsigned.to_uint_nonnil.
    rewrite append_String. cbn [trimStart]. change (isWhiteSpace "-") with false. cbv iota.
    rewrite (parseInt_unsigned (Pos.to_uint p) rest (-1)); auto.
    + rewrite DecimalPos.Unsigned.of_to. reflexivity.
    + apply DecimalPos.Unsigned.to_uint_nonnil.
    + intros u Hu. exfalso. apply (to_uint_not_D0 p u Hu).
Qed.

(** Below 2^53, and at 2^53 itself, an integer is its own Number value. *)
Lemma toNumber_exact (n : Z) : Z.abs n <= 2 ^ 53 -> Routes.toNumber n = Routes.Num n.
Proof.
  intros Hn. unfold Routes.toNumber.
  destruct (Z.abs n <? 2 ^ 53) eqn:Hlt; [reflexivity|].
  apply Z.ltb_ge in Hlt.
  assert (Habs : Z.abs n = 2 ^ 53) by lia.
  rewrite Habs.
  destruct (Z.abs_eq_or_opp n) as [He|He]; rewrite He in Habs.
  - subst n. reflexivity.
  - assert (n = - 2 ^ 53) as -> by lia. reflexivity.
Qed.

(** Above 2^53 the limit is rounded: 2^53 + 1 is read as 2^53, and 2^53 + 3
    as 2^53 + 4. *)
Example parseInt_rounds :
  Routes.parseInt "9007199254740993" = Routes.Num 9007199254740992 /\
  Routes.parseInt "9007199254740995" = Routes.Num 9007199254740996 /\
  Routes.parseInt "-9007199254740993" = Routes.Num (-9007199254740992).
Proof. repeat split; vm_compute; reflexivity. Qed.

(** Reading the limit: when the [limit] of the query is the decimal numeral
    of an integer [n] of magnitude at most 2^53, after any white space and
    before any text that does not go on with a digit (nor, after a lone 0,
    with x or X), the handler asks the store for exactly [n] apps: zero and
    negative numbers are passed on as they are. *)
Theorem topRated_reads_limit (req : Routes.Request) (n : Z) (ws rest : string) :
  Routes.queryLimit req = Some (ws +:+ numberToString n +:+ rest) ->
  allWhiteSpace ws = true ->
  startsWith isDecimalDigit rest = false ->
  (n = 0 -> startsWith isX rest = false) ->
  Z.abs n <= 2 ^ 53 ->
  Routes.parseInt (ws +:+ numberToString n +:+ rest) = Routes.Num n /\
  Routes.limitOf req = Routes.Num n /\
  exists k, Routes.topRated req = Routes.GetTopRatedOAuthApps (Routes.Num n) k.
Proof.
  intros Hq Hws Hrest Hx Hn.
  assert (Hparse : Routes.parseInt (ws +:+ numberToString n +:+ rest) = Routes.Num n).
  { rewrite <- (toNumber_exact n Hn).
    unfold Routes.parseInt. rewrite trimStart_app by exact Hws.
    apply (parseInt_numeral n rest Hrest Hx). }
  assert (Hlimit : Routes.limitOf req = Routes.Num n).
  { unfold Routes.limitOf. rewrite Hq.
    destruct (String.eqb_spec (ws +:+ numberToString n +:+ rest) EmptyString) as [He|_];
      [|exact Hparse].
    rewrite He in Hparse. discriminate. }
  split; [exact Hparse|]. split; [exact Hlimit|].
  unfold Routes.topRated. rewrite Hlimit. eexists. reflexivity.
Qed.

Lemma topRated_reads_limit_witness :
  Routes.limitOf (withLimit (Some " -3 apps")) = Routes.Num (-3) /\
  Routes.limitOf (withLimit (Some "0")) = Routes.Num 0.
Proof.
  split.
  - apply (topRated_reads_limit (withLimit (Some " -3 apps")) (-3) " " " apps");
      [reflexivity | reflexivity | reflexivity | discriminate | vm_compute; discriminate].
  - apply (topRated_reads_limit (withLimit (Some "0")) 0 EmptyString EmptyString);
      [reflexivity | reflexivity | reflexivity | reflexivity | vm_compute; discriminate].
Defined.

(** ** The marketplace search, query after query *)

Lemma filter_sublist {A} (p : A -> bool) (l : list A) : sublist (List.filter p l) l.
Proof.
  induction l as [|x l IH]; simpl; [constructor|].
  destruct (p x); [apply sublist_skip | apply sublist_cons]; exact IH.
Qed.

Lemma filter_sublist_impl {A} (p q : A -> bool) (l : list A) :
  (forall x, p x = true -> q x = true) -> sublist (List.filter p l) (List.filter q l).
Proof.
  intros Hpq. induction l as [|x l IH]; simpl; [constructor|].
  destruct (p x) eqn:Hp.
  - rewrite (Hpq x Hp). apply sublist_skip, IH.
  - destruct (q x); [apply sublist_cons|]; exact IH.
Qed.

Lemma blank_app a b : blank (a ++ b) = blank a && blank b.
Proof. unfold blank. apply forallb_app. Qed.

Lemma occurs_blank q1 q2 : occurs q1 q2 -> blank q2 = true -> blank q1 = true.
Proof.
  intros (before & after & ->) H.
  rewrite !blank_app in H.
  apply andb_true_iff in H as [_ H]. apply andb_true_iff in H as [H _]. exact H.
Qed.

Lemma occurs_isAscii q1 q2 : occurs q1 q2 -> isAscii q2 -> isAscii q1.
Proof.
  intros (before & after & ->) H.
  apply isAscii_app in H as [_ H]. apply isAscii_app in H as [H _]. exact H.
Qed.

Lemma occurs_toLowerCase q1 q2 :
  occurs q1 q2 -> isAscii q2 -> occurs (JS.toLowerCase q1) (JS.toLowerCase q2).
Proof.
  intros Hocc Hq2. pose proof (occurs_isAscii _ _ Hocc Hq2) as Hq1.
  rewrite !toLowerCase_ascii by assumption.
  destruct Hocc as (before & after & ->).
  exists (map lowerAscii before), (map lowerAscii after).
  rewrite !map_app. reflexivity.
Qed.

Lemma occurs_trans a b c : occurs a b -> occurs b c -> occurs a c.
Proof.
  intros (x & y & ->) (u & v & ->).
  exists (u ++ x), (y ++ v).
  rewrite <- !app_assoc. reflexivity.
Qed.

Section Narrowing.
Context {App : Type} (name description : App -> JSString).

Lemma matches_narrows q1 q2 app :
  occurs q1 q2 -> isAscii q2 ->
  Marketplace.matches name description (JS.toLowerCase q2) app = true ->
  Marketplace.matches name description (JS.toLowerCase q1) app = true.
Proof.
  intros Hocc Hq2. apply occurs_toLowerCase in Hocc; [|exact Hq2].
  unfold Marketplace.matches. rewrite !orb_true_iff, !includes_occurs.
  intros [H|H]; [left | right]; eapply occurs_trans; eauto.
Qed.

End Narrowing.

(** Typing more narrows the search: when the query [q1] occurs in the query
    [q2] (as when [q2] is [q1] with more typed before or after it) and [q2]
    is ASCII text, the apps found for [q2] are among those found for [q1],
    in the same order, and both are among the apps of the list, whatever
    the names and descriptions are. *)
Theorem search_narrows {App : Type} (name description : App -> JSString)
    (apps found1 found2 : list App) (q1 q2 : JSString) :
  occurs q1 q2 -> isAscii q2 ->
  Marketplace.filteredApps name description (Some apps) q1 = Some found1 ->
  Marketplace.filteredApps name description (Some apps) q2 = Some found2 ->
  sublist found2 found1 /\ sublist found1 apps.
Proof.
  intros Hocc Hascii.
  destruct (blank q2) eqn:H2.
  - pose proof (occurs_blank _ _ Hocc H2) as H1.
    rewrite !filteredApps_blank by assumption.
    intros [= <-] [= <-]. split; reflexivity.
  - rewrite (filteredApps_filter _ _ apps q2 H2).
    destruct (blank q1) eqn:H1.
    + rewrite filteredApps_blank by assumption.
      intros [= <-] [= <-]. split; [apply filter_sublist | reflexivity].
    + rewrite (filteredApps_filter _ _ apps q1 H1).
      intros [= <-] [= <-]. split; [|apply filter_sublist].
      apply filter_sublist_impl. intros app. apply matches_narrows; assumption.
Qed.

Lemma search_narrows_witness :
  sublist (drop 1 sampleApps) sampleApps /\ sublist sampleApps sampleApps.
Proof.
  apply (search_narrows nameOf descriptionOf sampleApps sampleApps (drop 1 sampleApps)
           (units "a") (units "mail")).
  - exists (units "m"), (units "il"). reflexivity.
  - apply isAscii_forallb. vm_compute. reflexivity.
  - vm_compute. reflexivity.
  - vm_compute. reflexivity.
Defined.

(** Beyond ASCII the search need not narrow: a capital sigma occurs in [A],
    capital sigma, and an app of that name is found for the longer query and
    not for the sigma alone. *)
Example search_widens_on_sigma :
  occurs [931] [65; 931] /\
  Marketplace.filteredApps fst snd (Some [sigmaApp]) [931] = Some [] /\
  Marketplace.filteredApps fst snd (Some [sigmaApp]) [65; 931] = Some [sigmaApp].
Proof.
  split; [exists [65], []; reflexivity|]. split; vm_compute; reflexivity.
Qed.

(** What the "All Apps" tab shows for a loaded list, when the query is
    blank, or it and the names and descriptions of the apps are ASCII text:
    an app of the list is in the grid exactly when the query is blank or its
    name or description contains the query up to the case of the letters,
    the grid keeps the order of the list, and "No apps found" is shown
    exactly when there is no such app, with "Check back later" for the empty
    query only. *)
Theorem allTab_shows {App : Type} (name description : App -> JSString)
    (apps : list App) (searchQuery : JSString) :
  blank searchQuery = true \/
  (isAscii searchQuery /\
   Forall (fun app => isAscii (name app) /\ isAscii (description app)) apps) ->
  let visible app :=
    blank searchQuery = true \/
    containsIgnoringCase (name app) searchQuery \/
    containsIgnoringCase (description app) searchQuery in
  match MarketplacePage.allTab name description false (Some apps) searchQuery with
  | MarketplacePage.Grid shown =>
      shown <> [] /\ sublist shown apps /\
      forall app, In app shown <-> In app apps /\ visible app
  | MarketplacePage.NoApps hint =>
      (forall app, In app apps -> ~ visible app) /\
      (searchQuery = [] -> hint = "Check back later for new apps") /\
      (searchQuery <> [] -> hint = "Try a different search term")
  | MarketplacePage.Loading => False
  end.
Proof.
  intros Htext visible. unfold MarketplacePage.allTab.
  assert (Hhint : forall hint : string,
            hint = match searchQuery with
                   | [] => "Check back later for new apps"
                   | _ => "Try a different search term"
                   end ->
            (searchQuery = [] -> hint = "Check back later for new apps") /\
            (searchQuery <> [] -> hint = "Try a different search term")).
  { intros hint ->. destruct searchQuery; split; congruence. }
  destruct (blank searchQuery) eqn:Hq.
  - rewrite filteredApps_blank by exact Hq. destruct apps as [|app apps].
    + split; [intros app []|apply Hhint; reflexivity].
    + split; [discriminate|]. split; [reflexivity|].
      intros app'. unfold visible. tauto.
  - destruct Htext as [Hblank|[Hascii Happs]]; [discriminate|].
    rewrite (filteredApps_filter _ _ apps searchQuery Hq).
    assert (Hin : forall app,
              In app (List.filter
                        (Marketplace.matches name description (JS.toLowerCase searchQuery))
                        apps)
              <-> In app apps /\ visible app).
    { intros app. rewrite filter_In. unfold visible.
      rewrite List.Forall_forall in Happs. split.
      - intros [Happ Hm]. split; [exact Happ|]. right.
        destruct (Happs app Happ) as [Hn Hd].
        apply (matches_spec name description); assumption.
      - intros [Happ [Hb|Hc]]; [discriminate|]. split; [exact Happ|].
        destruct (Happs app Happ) as [Hn Hd].
        apply (matches_spec name description); assumption. }
    destruct (List.filter _ apps) as [|app shown] eqn:Hfilter.
    + split; [|apply Hhint; reflexivity]. intros app Happ Hvis.
      apply (proj2 (Hin app)). split; assumption.
    + split; [discriminate|]. split; [|exact Hin].
      rewrite <- Hfilter. apply filter_sublist.
Qed.

Lemma allTab_shows_witness : sublist (drop 1 sampleApps) sampleApps.
Proof.
  pose proof (allTab_shows nameOf descriptionOf sampleApps (units "mail")) as H.
  change (MarketplacePage.allTab nameOf descriptionOf false (Some sampleApps) (units "mail"))
    with (MarketplacePage.Grid (drop 1 sampleApps)) in H.
  destruct H as (_ & H & _); [|exact H].
  right. split; [apply isAscii_forallb; vm_compute; reflexivity|].
  repeat (apply List.Forall_cons;
          [split; apply isAscii_forallb; vm_compute; reflexivity |]).
  apply List.Forall_nil.
Defined.

(** The figures of a marketplace card: for draws in [0, 1) the stars are
    from 1 to 5 and the installs from 10 to 1009. *)
Theorem AppCard_figures_range (app : OAuthApp.t) (random1 random2 : Q) :
  (0 <= random1)%Q -> (random1 < 1)%Q -> (0 <= random2)%Q -> (random2 < 1)%Q ->
  1 <= Marketplace.stars (Marketplace.AppCard app random1 random2) <= 5 /\
  10 <= Marketplace.installs (Marketplace.AppCard app random1 random2) <= 1009.
Proof.
  intros H10 H11 H20 H21. split; [apply Qfloor_stars; assumption|].
  unfold Marketplace.AppCard. cbn [Marketplace.installs].
  assert (Hlo : 0 <= Qfloor (random2 * 1000)).
  { change 0 with (Qfloor 0). apply Qfloor_resp_le. lra. }
  assert (Hhi : Qfloor (random2 * 1000) < 1000).
  { rewrite Zlt_Qlt. apply Qle_lt_trans with (random2 * 1000)%Q; [apply Qfloor_le|].
    change (inject_Z 1000) with 1000%Q. lra. }
  lia.
Qed.

Lemma AppCard_figures_range_witness :
  1 <= Marketplace.stars (Marketplace.AppCard (appWith 1 "a" "b") (1 # 2) (1 # 2)) <= 5 /\
  10 <= Marketplace.installs (Marketplace.AppCard (appWith 1 "a" "b") (1 # 2) (1 # 2)) <= 1009.
Proof.
  apply (AppCard_figures_range (appWith 1 "a" "b") (1 # 2) (1 # 2)); lra.
Defined.

(** ** The reviewer's letter *)

Lemma code_ascii_of_N (x : Z) :
  0 <= x < 256 -> code (ascii_of_N (Z.to_N x)) = x.
Proof.
  intros Hx. unfold code. rewrite N_ascii_embedding by lia. lia.
Qed.

(** The avatar of a reviewer with a non-negative id is one of the capital
    letters A to Z, the one at position [userId mod 26]; ids that differ by
    26 share their letter. *)
Theorem avatarLetter_capital (review : AppReview.t) :
  0 <= AppReview.userId review ->
  code (ReviewsPage.avatarLetter review) = 65 + AppReview.userId review mod 26 /\
  65 <= code (ReviewsPage.avatarLetter review) <= 90 /\
  (forall other, AppReview.userId other = AppReview.userId review + 26 ->
     ReviewsPage.avatarLetter other = ReviewsPage.avatarLetter review).
Proof.
  intros Hid. unfold ReviewsPage.avatarLetter.
  assert (Hrem : Z.rem (AppReview.userId review) 26 = AppReview.userId review mod 26).
  { apply Z.rem_mod_nonneg; lia. }
  pose proof (Z.mod_pos_bound (AppReview.userId review) 26 ltac:(lia)) as Hbound.
  rewrite Hrem, code_ascii_of_N by lia.
  split; [reflexivity|]. split; [lia|].
  intros other Hother. rewrite Hother.
  rewrite !Z.rem_mod_nonneg by lia.
  replace (AppReview.userId review + 26) with (AppReview.userId review + 1 * 26) by lia.
  rewrite Z.mod_add by lia. reflexivity.
Qed.

Lemma avatarLetter_capital_witness :
  code (ReviewsPage.avatarLetter (review 27 3)) = 65 + 27 mod 26.
Proof.
  apply (avatarLetter_capital (review 27 3)). simpl. lia.
Defined.

